(** * amikonet-signer: the DID resolution and signing core

    A shallow embedding of the TypeScript sources
      - utils/crypto.ts          (Ed25519 "did:key" helpers)
      - utils/solana-crypto.ts   (Solana did:pkh helpers)
      - utils/evm-crypto.ts      (did:ethr / did:pkh:eip155 helpers)
      - utils/did-helpers.ts     (provider detection, credential resolution)
      - lib/get-mcp-tools.ts     (the generate_auth_payload tool callbacks)

    Conventions of the embedding.
      - A JavaScript string is a [string]: a sequence of code units, each
        below 256 (the Latin-1 fragment of JavaScript strings).
      - A [Uint8Array] is a [list byte].
      - A function that can throw returns [Res A]: [Ok a] or [Throw msg],
        where [msg] is the message of the JavaScript [Error].  A rejected
        promise is a [Throw] as well.
      - [process.env] is a [gmap string string].
      - Signature primitives (tweetnacl, noble-ed25519, ethers' signing
        key) are fields of the class [Crypto]; the codecs the sources call
        (bs58, base64 of Buffer, ethers' isAddress with Keccak-256) are
        written out. *)

From Stdlib Require Import ZArith NArith Ascii String Strings.Byte List Lia Bool.
From stdpp Require Import base option list gmap strings.

#[local] Arguments String.append !s1 s2 : simpl nomatch.

(** ** Results of computations that may throw *)

Inductive Res (A : Type) : Type :=
| Ok (a : A)
| Throw (e : string).
Arguments Ok {A} a.
Arguments Throw {A} e.

Definition bindR {A B} (m : Res A) (k : A -> Res B) : Res B :=
  match m with
  | Ok a => k a
  | Throw e => Throw e
  end.

(** [try { body } catch (error) { handler error }] *)
Definition try_catch {A} (body : Res A) (handler : string -> Res A) : Res A :=
  match body with
  | Ok a => Ok a
  | Throw e => handler e
  end.

Notation "'let*' x ':=' m 'in' k" := (bindR m (fun x => k))
  (at level 10, x name, m at level 100, k at level 200).

Definition is_ok {A} (r : Res A) : bool :=
  match r with Ok _ => true | Throw _ => false end.

(** ** JavaScript string operations used by the sources *)

Module JS.

(** [s.startsWith(p)] *)
Fixpoint startsWith (s p : string) {struct p} : bool :=
  match p with
  | EmptyString => true
  | String c p' =>
      match s with
      | EmptyString => false
      | String d s' => if Ascii.eqb d c then startsWith s' p' else false
      end
  end.

(** [s.slice(n)] for a non-negative [n] *)
Fixpoint slice (n : nat) (s : string) : string :=
  match n with
  | O => s
  | S n' => match s with
            | EmptyString => EmptyString
            | String _ s' => slice n' s'
            end
  end.

(** [s.split(sep)] for a one-character separator: never empty,
    [''.split(':')] is [['']]. *)
Fixpoint split (sep : ascii) (s : string) : list string :=
  match s with
  | EmptyString => [EmptyString]
  | String c s' =>
      if Ascii.eqb c sep then EmptyString :: split sep s'
      else match split sep s' with
           | [] => [String c EmptyString]
           | x :: xs => String c x :: xs
           end
  end.

(** [c.toLowerCase()] on one code unit below 256: A-Z, and the
    Latin-1 capitals 0xC0-0xDE except the multiplication sign 0xD7. *)
Definition lower_char (c : ascii) : ascii :=
  let n := N_of_ascii c in
  if ((65 <=? n) && (n <=? 90))%N then ascii_of_N (n + 32)
  else if ((192 <=? n) && (n <=? 222) && negb (n =? 215))%N
       then ascii_of_N (n + 32)
  else c.

Fixpoint toLowerCase (s : string) : string :=
  match s with
  | EmptyString => EmptyString
  | String c s' => String (lower_char c) (toLowerCase s')
  end.

(** Truthiness of a string: only [''] is falsy. *)
Definition truthy (s : string) : bool :=
  match s with EmptyString => false | _ => true end.

(** Truthiness of [process.env.X]: [undefined] and [''] are falsy. *)
Definition truthy_opt (o : option string) : bool :=
  match o with Some s => truthy s | None => false end.

(** [a || b] on values that are strings or [undefined]. *)
Definition or_else (a b : option string) : option string :=
  if truthy_opt a then a else b.

(** [parts[i]] where the index is known to be in range is a string;
    out of range it is [undefined]. *)
Definition index (parts : list string) (i : nat) : option string :=
  parts !! i.

Fixpoint mem (c : ascii) (s : string) : bool :=
  match s with
  | EmptyString => false
  | String d s' => Ascii.eqb d c || mem c s'
  end.

End JS.

(** ** utils/crypto.ts : extractPublicKeyFromDID *)

Definition extractPublicKeyFromDID (did : string) : option string :=
  if negb (JS.startsWith did "did:key:z") then None
  else
    let multibaseKey := JS.slice 8 did in
    if JS.startsWith multibaseKey "6Mk" then Some multibaseKey
    else None.

(** ** Bytes *)

Definition byte_of_N (n : N) : byte :=
  match Byte.of_N (n mod 256) with
  | Some b => b
  | None => x00
  end.

Definition bytes_of_string (s : string) : list byte :=
  map byte_of_ascii (list_ascii_of_string s).

(** [new TextEncoder().encode(s)]: UTF-8; a code unit from 128 to 255
    takes two bytes. *)
Definition utf8_char (c : ascii) : list byte :=
  let n := N_of_ascii c in
  if (n <? 128)%N then [byte_of_N n]
  else [byte_of_N (192 + n / 64); byte_of_N (128 + n mod 64)].

Fixpoint utf8_encode (s : string) : list byte :=
  match s with
  | EmptyString => []
  | String c s' => utf8_char c ++ utf8_encode s'
  end.

(** Positional numerals: the digits of a number in a radix, most
    significant first.  The fuel is the binary size of the number, which
    is enough for every radix from 2 on (lemma [to_digits_value]). *)
Module Radix.

Fixpoint to_digits_go (radix : N) (fuel : nat) (n : N) (acc : list N) : list N :=
  match fuel with
  | O => acc
  | S fuel' =>
      if (n =? 0)%N then acc
      else to_digits_go radix fuel' (n / radix)%N ((n mod radix)%N :: acc)
  end.

Definition to_digits (radix n : N) : list N :=
  to_digits_go radix (N.size_nat n) n [].

Definition of_digits (radix : N) (ds : list N) : N :=
  fold_left (fun acc d => (acc * radix + d)%N) ds 0%N.

(** a numeral with digits below the radix and no leading zero *)
Definition canonical (radix : N) (ds : list N) : Prop :=
  Forall (fun d => (d < radix)%N) ds
  /\ (forall d rest, ds = d :: rest -> d <> 0%N).

End Radix.

(** ** bs58: base58 with the Bitcoin alphabet (base-x) *)

Module Base58.

Definition ALPHABET : string :=
  "123456789ABCDEFGHJKLMNPQRSTUVWXYZabcdefghijkmnopqrstuvwxyz".

(** [BASE_MAP[charCode]], [None] for 255 (not in the alphabet) *)
Fixpoint index_in (c : ascii) (alphabet : string) (i : N) : option N :=
  match alphabet with
  | EmptyString => None
  | String d rest => if Ascii.eqb d c then Some i else index_in c rest (N.succ i)
  end.

Definition char_value (c : ascii) : option N := index_in c ALPHABET 0%N.

Definition digit_char (d : N) : ascii :=
  match String.get (N.to_nat d) ALPHABET with
  | Some c => c
  | None => "1"%char
  end.

Fixpoint count_leading {A} (is_zero : A -> bool) (l : list A) : nat :=
  match l with
  | x :: l' => if is_zero x then S (count_leading is_zero l') else O
  | [] => O
  end.

Fixpoint values (s : string) : option (list N) :=
  match s with
  | EmptyString => Some []
  | String c s' =>
      match char_value c, values s' with
      | Some v, Some vs => Some (v :: vs)
      | _, _ => None
      end
  end.

(** [bs58.decode(source)]: throws on a character outside the alphabet;
    each leading '1' is one zero byte, the rest is a base-58 numeral
    written out in as few bytes as it takes. *)
Definition decode (source : string) : Res (list byte) :=
  match values source with
  | None => Throw "Non-base58 character"
  | Some vs =>
      let zeroes := count_leading (N.eqb 0) vs in
      let n := Radix.of_digits 58 vs in
      Ok (repeat x00 zeroes ++ map byte_of_N (Radix.to_digits 256 n))
  end.

(** [bs58.encode(bytes)] *)
Definition encode (source : list byte) : string :=
  let zeroes := count_leading (Byte.eqb x00) source in
  let n := Radix.of_digits 256 (map Byte.to_N source) in
  string_of_list_ascii
    (repeat "1"%char zeroes ++ map digit_char (Radix.to_digits 58 n)).

End Base58.

(** ** Buffer.from(bytes).toString('base64') *)

Module Base64.

Definition ALPHABET : string :=
  "ABCDEFGHIJKLMNOPQRSTUVWXYZabcdefghijklmnopqrstuvwxyz0123456789+/".

Definition digit_char (d : N) : ascii :=
  match String.get (N.to_nat d) ALPHABET with
  | Some c => c
  | None => "="%char
  end.

Fixpoint encode_chars (bs : list byte) : list ascii :=
  match bs with
  | [] => []
  | [a] =>
      let a := Byte.to_N a in
      [digit_char (a / 4); digit_char ((a mod 4) * 16); "="; "="]%char%N
  | [a; b] =>
      let a := Byte.to_N a in
      let b := Byte.to_N b in
      [digit_char (a / 4); digit_char ((a mod 4) * 16 + b / 16);
       digit_char ((b mod 16) * 4); "="]%char%N
  | a :: b :: c :: rest =>
      let a := Byte.to_N a in
      let b := Byte.to_N b in
      let c := Byte.to_N c in
      [digit_char (a / 4); digit_char ((a mod 4) * 16 + b / 16);
       digit_char ((b mod 16) * 4 + c / 64); digit_char (c mod 64)]%N
        ++ encode_chars rest
  end.

Definition encode (bs : list byte) : string :=
  string_of_list_ascii (encode_chars bs).

End Base64.


(** ** Keccak-256, as ethers' [keccak256] computes it *)

Module Keccak.
Local Open Scope Z_scope.

Definition mask64 : Z := Z.ones 64.

Definition rotl64 (x : Z) (n : Z) : Z :=
  Z.land (Z.lor (Z.shiftl x n) (Z.shiftr x (64 - n))) mask64.

Definition lane (st : list Z) (i : nat) : Z := nth i st 0.

Definition RC : list Z :=
  [ 0x0000000000000001; 0x0000000000008082; 0x800000000000808A;
    0x8000000080008000; 0x000000000000808B; 0x0000000080000001;
    0x8000000080008081; 0x8000000000008009; 0x000000000000008A;
    0x0000000000000088; 0x0000000080008009; 0x000000008000000A;
    0x000000008000808B; 0x800000000000008B; 0x8000000000008089;
    0x8000000000008003; 0x8000000000008002; 0x8000000000000080;
    0x000000000000800A; 0x800000008000000A; 0x8000000080008081;
    0x8000000000008080; 0x0000000080000001; 0x8000000080008008 ].

(** rotation offsets, indexed by [x + 5 * y] *)
Definition ROT : list Z :=
  [ 0; 1; 62; 28; 27;
    36; 44; 6; 55; 20;
    3; 10; 43; 25; 39;
    41; 45; 15; 21; 8;
    18; 2; 61; 56; 14 ].

Definition indices : list nat := seq 0 25.

Definition theta (st : list Z) : list Z :=
  let C x := Z.lxor (lane st x)
               (Z.lxor (lane st (x + 5))
                  (Z.lxor (lane st (x + 10))
                     (Z.lxor (lane st (x + 15)) (lane st (x + 20))))) in
  let D x := Z.lxor (C ((x + 4) mod 5)%nat) (rotl64 (C ((x + 1) mod 5)%nat) 1) in
  map (fun i => Z.lxor (lane st i) (D (i mod 5)%nat)) indices.

(** B[y, 2x+3y] = rot(A[x, y], r[x, y]), read from the target side *)
Definition rho_pi (st : list Z) : list Z :=
  map (fun j =>
         let X := (j mod 5)%nat in
         let Y := (j / 5)%nat in
         let x := ((X + 3 * Y) mod 5)%nat in
         let src := (x + 5 * X)%nat in
         rotl64 (lane st src) (nth src ROT 0)) indices.

Definition chi (st : list Z) : list Z :=
  map (fun i =>
         let x := (i mod 5)%nat in
         let y := (i / 5)%nat in
         let b1 := lane st ((x + 1) mod 5 + 5 * y) in
         let b2 := lane st ((x + 2) mod 5 + 5 * y) in
         Z.lxor (lane st i) (Z.land (Z.lxor b1 mask64) b2)) indices.

Definition iota (rc : Z) (st : list Z) : list Z :=
  match st with
  | a :: rest => Z.lxor a rc :: rest
  | [] => []
  end.

Definition round (st : list Z) (rc : Z) : list Z :=
  iota rc (chi (rho_pi (theta st))).

Definition keccak_f (st : list Z) : list Z := fold_left round RC st.

(** little-endian lanes *)
Fixpoint le_value (bs : list Z) : Z :=
  match bs with
  | [] => 0
  | b :: rest => b + 256 * le_value rest
  end.

Fixpoint le_bytes (n : nat) (v : Z) : list Z :=
  match n with
  | O => []
  | S n' => (v mod 256) :: le_bytes n' (v / 256)
  end.

Fixpoint lanes_of (nlanes : nat) (bs : list Z) : list Z :=
  match nlanes with
  | O => []
  | S n' => le_value (firstn 8 bs) :: lanes_of n' (skipn 8 bs)
  end.

Definition rate : nat := 136.

(** pad10*1 with the Keccak domain byte 0x01 *)
Definition pad (msg : list Z) : list Z :=
  let r := (rate - (length msg mod rate))%nat in
  match r with
  | 1%nat => msg ++ [0x81]
  | _ => msg ++ [0x01] ++ repeat 0 (r - 2) ++ [0x80]
  end.

Fixpoint xor_lanes (st blk : list Z) : list Z :=
  match st, blk with
  | s :: st', b :: blk' => Z.lxor s b :: xor_lanes st' blk'
  | _, [] => st
  | [], _ => []
  end.

Fixpoint absorb (nblocks : nat) (data : list Z) (st : list Z) : list Z :=
  match nblocks with
  | O => st
  | S n' =>
      let blk := lanes_of 17 (firstn rate data) in
      absorb n' (skipn rate data) (keccak_f (xor_lanes st blk))
  end.

Definition keccak256 (msg : list byte) : list byte :=
  let data := pad (map (fun b => Z.of_N (Byte.to_N b)) msg) in
  let st := absorb (length data / rate) data (repeat 0 25) in
  map (fun z => byte_of_N (Z.to_N z))
    (flat_map (le_bytes 8) (firstn 4 st)).

End Keccak.

(** ** Hexadecimal *)

Definition hex_digit (n : N) : ascii :=
  match String.get (N.to_nat n) "0123456789abcdef" with
  | Some c => c
  | None => "0"%char
  end.

(** [bytesToHex] of utils/crypto.ts: two lower-case digits per byte *)
Definition bytesToHex (bs : list byte) : string :=
  string_of_list_ascii
    (flat_map (fun b => let n := Byte.to_N b in
                        [hex_digit (n / 16); hex_digit (n mod 16)]%N) bs).

(** ** ethers (v6): address validation *)

Module Ethers.

Definition in_range (lo hi : N) (c : ascii) : bool :=
  let n := N_of_ascii c in ((lo <=? n) && (n <=? hi))%N.

Definition is_digit : ascii -> bool := in_range 48 57.
Definition is_upper : ascii -> bool := in_range 65 90.
Definition is_lower : ascii -> bool := in_range 97 122.
Definition is_hex (c : ascii) : bool :=
  is_digit c || in_range 97 102 c || in_range 65 70 c.
Definition is_alnum (c : ascii) : bool :=
  is_digit c || is_upper c || is_lower c.

Fixpoint all_chars (p : ascii -> bool) (s : string) : bool :=
  match s with
  | EmptyString => true
  | String c s' => p c && all_chars p s'
  end.

Fixpoint any_char (p : ascii -> bool) (s : string) : bool :=
  match s with
  | EmptyString => false
  | String c s' => p c || any_char p s'
  end.

Definition upper_char (c : ascii) : ascii :=
  if is_lower c then ascii_of_N (N_of_ascii c - 32) else c.

Fixpoint map_chars (f : ascii -> ascii) (s : string) : string :=
  match s with
  | EmptyString => EmptyString
  | String c s' => String (f c) (map_chars f s')
  end.

(** [/^(0x)?[0-9a-fA-F]{40}$/] *)
Definition match_hex40 (address : string) : bool :=
  let body := if JS.startsWith address "0x" then JS.slice 2 address else address in
  (String.length body =? 40)%nat && all_chars is_hex body.

(** [/([A-F].*[a-f])|([a-f].*[A-F])/] on a string of hexadecimal
    digits and [x]: some capital and some small letter among a-f *)
Definition match_mixed_case (address : string) : bool :=
  any_char (in_range 65 70) address && any_char (in_range 97 102) address.

(** [/^XE[0-9]{2}[0-9A-Za-z]{30,31}$/] *)
Definition match_icap (address : string) : bool :=
  JS.startsWith address "XE"
  && all_chars is_digit (String.substring 2 2 address)
  && (String.length (String.substring 2 2 address) =? 2)%nat
  && (let rest := JS.slice 4 address in
      ((String.length rest =? 30)%nat || (String.length rest =? 31)%nat)
      && all_chars is_alnum rest).

(** [getChecksumAddress]: the EIP-55 capitalisation of a 0x-prefixed
    address, from the Keccak-256 of its 40 lower-case digits *)
Fixpoint checksum_chars (chars : list ascii) (nibbles : list N) : list ascii :=
  match chars, nibbles with
  | c :: chars', n :: nibbles' =>
      (if (8 <=? n)%N then upper_char c else c) :: checksum_chars chars' nibbles'
  | _, _ => chars
  end.

Definition getChecksumAddress (address : string) : string :=
  let address := JS.toLowerCase address in
  let chars := list_ascii_of_string (JS.slice 2 address) in
  let expanded := map byte_of_ascii (firstn 40 chars) in
  let hashed := Keccak.keccak256 expanded in
  let nibbles :=
    flat_map (fun b => let n := Byte.to_N b in [n / 16; n mod 16]%N)
      (firstn 20 hashed) in
  "0x" +:+ string_of_list_ascii (checksum_chars chars nibbles).

(** [ibanLookup]: a digit stands for itself, a capital letter for its
    two-digit number from 10 to 35 *)
Definition iban_step (acc : N) (c : ascii) : N :=
  let n := N_of_ascii c in
  if is_digit c then ((acc * 10 + (n - 48)) mod 97)%N
  else ((acc * 100 + (n - 55)) mod 97)%N.

Definition decimal2 (n : N) : string :=
  String (hex_digit (n / 10)) (String (hex_digit (n mod 10)) EmptyString).

(** [ibanChecksum]: 98 minus the residue modulo 97 of the decimal
    numeral spelled by the rearranged address; the source reduces that
    numeral fifteen digits at a time, which yields the same residue *)
Definition ibanChecksum (address : string) : string :=
  let address := map_chars upper_char address in
  let address := JS.slice 4 address +:+ String.substring 0 2 address +:+ "00" in
  let residue := fold_left iban_step (list_ascii_of_string address) 0%N in
  decimal2 (98 - residue).

(** [isAddress(value)]: [getAddress] returns rather than throws *)
Definition isAddress (value : string) : bool :=
  if match_hex40 value then
    let address := if JS.startsWith value "0x" then value else "0x" +:+ value in
    negb (match_mixed_case address) || String.eqb (getChecksumAddress address) address
  else if match_icap value then
    String.eqb (String.substring 2 2 value) (ibanChecksum value)
  else false.

End Ethers.

(** ** JavaScript numbers, as far as the sources need them *)

(** The numbers that [parseInt] and [Date.now()] return: [NaN], a
    double whose value is an integer, or an infinity.  [Int 0] stands
    for both zeros: the sources never tell them apart (both are falsy
    and both print as "0"). *)
Inductive JSNum : Type :=
| NaN
| Int (z : Z)
| Infinity (negative : bool).

Module Number.

(** StrWhiteSpaceChar below 256: TAB, LF, VT, FF, CR, SP, NBSP *)
Definition is_space (c : ascii) : bool :=
  let n := N_of_ascii c in
  ((9 <=? n) && (n <=? 13) || (n =? 32) || (n =? 160))%N.

Fixpoint trim_start (s : string) : string :=
  match s with
  | String c s' => if is_space c then trim_start s' else s
  | EmptyString => EmptyString
  end.

(** value of a digit in a radix up to 36, [None] when it is not one *)
Definition digit_value (radix : N) (c : ascii) : option N :=
  let n := N_of_ascii c in
  let v := if Ethers.is_digit c then Some (n - 48)%N
           else if Ethers.is_lower c then Some (n - 87)%N
           else if Ethers.is_upper c then Some (n - 55)%N
           else None in
  match v with
  | Some d => if (d <? radix)%N then Some d else None
  | None => None
  end.

(** the longest prefix of digits, most significant first *)
Fixpoint leading_digits (radix : N) (s : string) : list N :=
  match s with
  | EmptyString => []
  | String c s' =>
      match digit_value radix c with
      | Some d => d :: leading_digits radix s'
      | None => []
      end
  end.

(** The double nearest to a natural number, ties to the even
    significand; [None] when that is beyond the largest double.  Below
    2^53 every natural number is a double. *)
Definition to_double (n : N) : option N :=
  if (n <? 2 ^ 53)%N then Some n
  else
    let e := (N.log2 n - 52)%N in
    let q := N.shiftr n e in
    let r := (n mod 2 ^ e)%N in
    let half := (2 ^ (e - 1))%N in
    let q := if (half <? r)%N || ((r =? half)%N && N.odd q)
             then (q + 1)%N else q in
    let v := N.shiftl q e in
    if (v <? 2 ^ 1024)%N then Some v else None.

(** [parseInt(string, radix)] for radix 10 or 16: the integer that the
    longest prefix of digits denotes, as a double (V8 rounds it
    correctly in both radices) *)
Definition parseInt (s : string) (radix : N) : JSNum :=
  let s := trim_start s in
  let '(negative, s) :=
    match s with
    | String "-" s' => (true, s')
    | String "+" s' => (false, s')
    | _ => (false, s)
    end in
  let s := if (radix =? 16)%N
           then if JS.startsWith s "0x" || JS.startsWith s "0X"
                then JS.slice 2 s else s
           else s in
  match leading_digits radix s with
  | [] => NaN
  | ds =>
      match to_double (Radix.of_digits radix ds) with
      | Some v => Int (if negative then - Z.of_N v else Z.of_N v)%Z
      | None => Infinity negative
      end
  end.

Definition digits_string (radix : N) (n : N) : string :=
  match Radix.to_digits radix n with
  | [] => "0"
  | ds => string_of_list_ascii (map hex_digit ds)
  end.

(** [n.toString(radix)] for a safe integer [n] (below 2^53 in absolute
    value, as every [Date.now()] and every chain id in use is) and a
    radix up to 16: all its digits.  Beyond the safe integers a number
    prints the shortest digits that read back, and in radix 10 takes
    the exponent form from 10^21 on; the statements that read a
    printed chain id back carry the bound. *)
Definition toString (z : Z) (radix : N) : string :=
  if (z <? 0)%Z then "-" +:+ digits_string radix (Z.to_N (- z))
  else digits_string radix (Z.to_N z).

End Number.

(** ** Signature primitives of the libraries the sources call *)

Class Crypto : Type := {
  (** tweetnacl [crypto_sign]: the signed message, signature first *)
  nacl_crypto_sign : list byte -> list byte -> list byte;
  (** tweetnacl [crypto_sign_open(...) >= 0] on message, signature, key *)
  nacl_crypto_sign_open : list byte -> list byte -> list byte -> bool;
  (** noble [ed25519.signAsync(message, secretKey)] *)
  ed25519_signAsync : list byte -> list byte -> Res (list byte);
  (** noble [ed25519.verifyAsync(signature, message, publicKey)] *)
  ed25519_verifyAsync : list byte -> list byte -> list byte -> Res bool;
  (** [new ethers.Wallet(key).signingKey.sign(ethers.hashMessage(m)).serialized] *)
  ethers_wallet_sign : string -> string -> Res string;
  (** [ethers.verifyMessage(message, signature)]: the recovered address *)
  ethers_verifyMessage : string -> string -> Res string
}.

(** [console.error] lines a call emits, oldest first, next to its result *)
Definition Logged (A : Type) : Type := (list string * A)%type.

Definition try_catch_log {A} (body : Res A)
    (handler : string -> Logged (Res A)) : Logged (Res A) :=
  match body with
  | Ok a => ([], Ok a)
  | Throw e => handler e
  end.

(** [webcrypto.getRandomValues(new Uint8Array(n))] and
    [nacl.randomBytes(n)]: the [n] bytes that one draw delivers, where
    [entropy] is what the source delivers at that draw.  Draws of
    different calls are given different [entropy]. *)
Definition random_bytes (entropy : nat -> byte) (n : nat) : list byte :=
  map entropy (seq 0 n).

Section Core.
Context `{Crypto}.

(** *** tweetnacl wrappers *)

(** [nacl.sign.detached]: the first 64 bytes of the signed message *)
Definition nacl_sign_detached (msg secretKey : list byte) : Res (list byte) :=
  if negb (length secretKey =? 64)%nat then Throw "bad secret key size"
  else Ok (firstn 64 (nacl_crypto_sign msg secretKey ++ repeat x00 64)).

Definition nacl_sign_detached_verify (msg sig publicKey : list byte) : Res bool :=
  if negb (length sig =? 64)%nat then Throw "bad signature size"
  else if negb (length publicKey =? 32)%nat then Throw "bad public key size"
  else Ok (nacl_crypto_sign_open msg sig publicKey).

(** *** utils/crypto.ts *)

(** [parseInt(hex.slice(i, i + 2), 16)] stored into a [Uint8Array]:
    [NaN] and the infinities are stored as 0, any other value modulo
    256 *)
Definition hex_pair_byte (pair : string) : byte :=
  match Number.parseInt pair 16 with
  | NaN | Infinity _ => x00
  | Int z => byte_of_N (Z.to_N (z mod 256))
  end.

(** the loop of [hexToBytes], [fuel] iterations left *)
Fixpoint hexToBytes_loop (fuel : nat) (hex : string) : list byte :=
  match fuel with
  | O => []
  | S fuel' => hex_pair_byte (String.substring 0 2 hex)
                 :: hexToBytes_loop fuel' (JS.slice 2 hex)
  end.

(** [hexToBytes]: an array of [floor(length / 2)] bytes; of an odd
    length the last, single digit is parsed and then dropped by the
    out-of-range store *)
Definition hexToBytes (hex : string) : list byte :=
  hexToBytes_loop (String.length hex / 2) hex.

Definition signMessage (message privateKeyHex : string) : Res string :=
  let messageBytes := utf8_encode message in
  let privateKeyBytes := hexToBytes privateKeyHex in
  let* signature := ed25519_signAsync messageBytes privateKeyBytes in
  Ok (bytesToHex signature).

Definition verifySignature_try (message signatureHex publicKeyHex : string)
  : Res bool :=
  let messageBytes := utf8_encode message in
  let signatureBytes := hexToBytes signatureHex in
  let publicKeyBytes := hexToBytes publicKeyHex in
  ed25519_verifyAsync signatureBytes messageBytes publicKeyBytes.

Definition verifySignature (message signatureHex publicKeyHex : string)
  : Logged (Res bool) :=
  try_catch_log (verifySignature_try message signatureHex publicKeyHex)
    (fun error => (["Signature verification error: " +:+ error], Ok false)).

Definition generateNonce (entropy : nat -> byte) : string :=
  Base64.encode (random_bytes entropy 32).

(** *** utils/solana-crypto.ts *)

Definition SOLANA_MAINNET_CHAIN_ID : string :=
  "solana:4sGjMW1sUnHzSxGspuhpqLDx6wiyjNtZ".

Definition isValidSolanaAddress (address : string) : Res bool :=
  try_catch
    (let* decoded := Base58.decode address in
     Ok (length decoded =? 32)%nat)
    (fun _ => Ok false).

Definition walletAddressToDid (walletAddress : string) (chainId : option string)
  : Res string :=
  let chainId := default SOLANA_MAINNET_CHAIN_ID chainId in
  let* valid := isValidSolanaAddress walletAddress in
  if negb valid then Throw "Invalid Solana wallet address"
  else Ok ("did:pkh:" +:+ chainId +:+ ":" +:+ walletAddress).

Definition didToWalletAddress (did : string) : Res string :=
  if negb (JS.startsWith did "did:pkh:solana:") then
    Throw "Invalid Solana did:pkh format"
  else
    match JS.split ":" did with
    | [_; _; _; _; address] =>
        let* valid := isValidSolanaAddress address in
        if negb valid then Throw "Invalid Solana address in DID"
        else Ok address
    | _ => Throw "Invalid did:pkh format. Expected did:pkh:solana:chainId:address"
    end.

Definition isValidSolanaDid (did : string) : Res bool :=
  try_catch
    (let* address := didToWalletAddress did in
     isValidSolanaAddress address)
    (fun _ => Ok false).

Definition signSolanaMessage (message privateKeyBase58 : string) : Res string :=
  let messageBytes := utf8_encode message in
  let* privateKeyBytes := Base58.decode privateKeyBase58 in
  if negb (length privateKeyBytes =? 64)%nat then
    Throw "Invalid private key length. Expected 64 bytes for Solana keypair."
  else
    let* signature := nacl_sign_detached messageBytes privateKeyBytes in
    Ok (Base58.encode signature).

Definition verifySolanaSignature_try
    (message signatureBase58 publicKeyBase58 : string) : Res bool :=
  let messageBytes := utf8_encode message in
  let* signatureBytes := Base58.decode signatureBase58 in
  let* publicKeyBytes := Base58.decode publicKeyBase58 in
  if negb (length publicKeyBytes =? 32)%nat then
    Throw "Invalid public key length. Expected 32 bytes."
  else if negb (length signatureBytes =? 64)%nat then
    Throw "Invalid signature length. Expected 64 bytes."
  else nacl_sign_detached_verify messageBytes signatureBytes publicKeyBytes.

Definition verifySolanaSignature
    (message signatureBase58 publicKeyBase58 : string) : Logged (Res bool) :=
  try_catch_log
    (verifySolanaSignature_try message signatureBase58 publicKeyBase58)
    (fun error =>
       (["Solana signature verification error: " +:+ error], Ok false)).

Definition generateSolanaNonce (entropy : nat -> byte) : string :=
  Base58.encode (random_bytes entropy 32).

Definition extractPublicKey (keypairBase58 : string) : Res string :=
  let* keypairBytes := Base58.decode keypairBase58 in
  if negb (length keypairBytes =? 64)%nat then
    Throw "Invalid keypair length. Expected 64 bytes."
  else Ok (Base58.encode (skipn 32 keypairBytes)).

(** *** utils/evm-crypto.ts *)

Definition signEvmMessage (message privateKeyHex : string) : Res string :=
  let privateKey := if JS.startsWith privateKeyHex "0x" then privateKeyHex
                    else "0x" +:+ privateKeyHex in
  ethers_wallet_sign privateKey message.

Definition verifyEvmSignature_try (message signature expectedAddress : string)
  : Res bool :=
  let* recoveredAddress := ethers_verifyMessage message signature in
  let normalizedExpected := JS.toLowerCase expectedAddress in
  let normalizedRecovered := JS.toLowerCase recoveredAddress in
  Ok (String.eqb normalizedExpected normalizedRecovered).

Definition verifyEvmSignature (message signature expectedAddress : string)
  : Logged (Res bool) :=
  try_catch_log (verifyEvmSignature_try message signature expectedAddress)
    (fun error => (["EVM signature verification error: " +:+ error], Ok false)).

(** the [chainId?: number | string] argument *)
Inductive ChainId : Type :=
| ChainNumber (n : Z)
| ChainString (s : string).

Definition normalizeAddress (address : string) : string :=
  if JS.startsWith (JS.toLowerCase address) "0x" then JS.toLowerCase address
  else "0x" +:+ JS.toLowerCase address.

(** [chainId && chainId !== 1 && chainId !== '0x1']: the chain id
    the second branch uses, if any *)
Definition explicit_chain (chainId : option ChainId) : option ChainId :=
  match chainId with
  | None => None
  | Some (ChainNumber n) =>
      if negb (n =? 0)%Z && negb (n =? 1)%Z then chainId else None
  | Some (ChainString s) =>
      if JS.truthy s && negb (String.eqb s "0x1") then chainId else None
  end.

(** [network && network !== 'mainnet']: the network the first branch
    uses, if any *)
Definition explicit_network (network : option string) : option string :=
  match network with
  | None => None
  | Some net =>
      if JS.truthy net && negb (String.eqb net "mainnet") then network else None
  end.

Definition hexChainId (chainId : ChainId) : string :=
  match chainId with
  | ChainNumber n => "0x" +:+ Number.toString n 16
  | ChainString s => s
  end.

Definition addressToEthrDid (address : string) (chainId : option ChainId)
    (network : option string) : Res string :=
  let normalizedAddress := normalizeAddress address in
  if negb (Ethers.isAddress normalizedAddress) then
    Throw "Invalid Ethereum address"
  else
    match explicit_network network with
    | Some net => Ok ("did:ethr:" +:+ net +:+ ":" +:+ normalizedAddress)
    | None =>
        match explicit_chain chainId with
        | Some c =>
            Ok ("did:ethr:" +:+ hexChainId c +:+ ":" +:+ normalizedAddress)
        | None => Ok ("did:ethr:" +:+ normalizedAddress)
        end
    end.

Definition addressToPkhDid (address : string) (chainId : option Z) : Res string :=
  let chainId := default 1%Z chainId in
  let normalizedAddress := normalizeAddress address in
  if negb (Ethers.isAddress normalizedAddress) then
    Throw "Invalid Ethereum address"
  else
    Ok ("did:pkh:eip155:" +:+ Number.toString chainId 10
          +:+ ":" +:+ normalizedAddress).

Definition didToAddress (did : string) : Res string :=
  if JS.startsWith did "did:ethr:" then
    match JS.split ":" did with
    | [_; _; address] => Ok (JS.toLowerCase address)
    | [_; _; _; address] => Ok (JS.toLowerCase address)
    | _ => Throw "Invalid did:ethr format"
    end
  else if JS.startsWith did "did:pkh:eip155:" then
    match JS.split ":" did with
    | [_; _; _; _; address] => Ok (JS.toLowerCase address)
    | _ => Throw "Invalid did:pkh:eip155 format. Expected did:pkh:eip155:chainId:address"
    end
  else Throw "Unsupported DID format. Expected did:ethr or did:pkh:eip155".

(** What [extractChainId] can return: [null], a number, or, for a
    network name that is a member of [Object.prototype], that member
    (the lookup table is a plain object). *)
Inductive ChainIdResult : Type :=
| CNull
| CNumber (n : JSNum)
| CInherited (name : string).

Definition networkMap : gmap string Z :=
  {[ "mainnet" := 1%Z; "goerli" := 5%Z; "sepolia" := 11155111%Z;
     "polygon" := 137%Z; "optimism" := 10%Z; "arbitrum" := 42161%Z ]}.

Definition object_prototype_members : list string :=
  [ "constructor"; "toString"; "toLocaleString"; "valueOf";
    "hasOwnProperty"; "isPrototypeOf"; "propertyIsEnumerable";
    "__proto__"; "__defineGetter__"; "__defineSetter__";
    "__lookupGetter__"; "__lookupSetter__" ].

(** [networkMap[name] || null] *)
Definition networkMap_lookup (name : string) : ChainIdResult :=
  match networkMap !! name with
  | Some id => if (id =? 0)%Z then CNull else CNumber (Int id)
  | None =>
      if existsb (String.eqb name) object_prototype_members
      then CInherited name else CNull
  end.

Definition extractChainId (did : string) : Res ChainIdResult :=
  if JS.startsWith did "did:ethr:" then
    match JS.split ":" did with
    | [_; _; _] => Ok (CNumber (Int 1))
    | [_; _; networkOrChainId; _] =>
        if JS.startsWith networkOrChainId "0x" then
          Ok (CNumber (Number.parseInt networkOrChainId 16))
        else Ok (networkMap_lookup networkOrChainId)
    | _ => Ok CNull
    end
  else if JS.startsWith did "did:pkh:eip155:" then
    match JS.split ":" did with
    | [_; _; _; chain; _] => Ok (CNumber (Number.parseInt chain 10))
    | _ => Ok CNull
    end
  else Ok CNull.

Definition isValidEvmDid (did : string) : Res bool :=
  try_catch
    (let* address := didToAddress did in
     Ok (Ethers.isAddress address))
    (fun _ => Ok false).

Definition isValidEvmAddress (address : string) : Res bool :=
  try_catch (Ok (Ethers.isAddress address)) (fun _ => Ok false).

Definition generateEvmNonce (entropy : nat -> byte) : string :=
  Base64.encode (random_bytes entropy 32).

(** *** utils/did-helpers.ts *)

Inductive DidProvider : Type := key | solana | evm.

#[global] Instance DidProvider_eq_dec : EqDecision DidProvider :=
  ltac:(intros a b; unfold Decision; decide equality).

Definition DidProvider_eqb (a b : DidProvider) : bool :=
  match a, b with
  | key, key | solana, solana | evm, evm => true
  | _, _ => false
  end.

Definition detectDidProvider (did : string) : Res DidProvider :=
  if JS.startsWith did "did:key:" then Ok key
  else if JS.startsWith did "did:pkh:solana:" then Ok solana
  else if JS.startsWith did "did:ethr:" || JS.startsWith did "did:pkh:eip155:"
  then Ok evm
  else
    let* isSolana := isValidSolanaAddress did in
    if isSolana then Ok solana
    else
      let* isEvm := isValidEvmAddress did in
      if isEvm then Ok evm
      else Ok key.

Record Credentials : Type := {
  cred_did : string;
  cred_privateKey : string;
  cred_provider : DidProvider
}.

(** [provider === p || !provider] *)
Definition hint_allows (provider : option DidProvider) (p : DidProvider) : bool :=
  match provider with
  | None => true
  | Some q => DidProvider_eqb q p
  end.

(** [did && key && valid], with the JavaScript short circuit: the
    validation runs only when both values are truthy, on the DID *)
Definition both_and (did privateKey : option string)
    (valid : string -> Res bool) : Res (option (string * string)) :=
  match did, privateKey with
  | Some d, Some k =>
      if JS.truthy d && JS.truthy k then
        let* ok := valid d in
        Ok (if ok then Some (d, k) else None)
      else Ok None
  | _, _ => Ok None
  end.

(** [a(x) || b(x)] on booleans: [b] runs only when [a] is false *)
Definition orR (a b : Res bool) : Res bool :=
  let* x := a in if x then Ok true else b.

Definition solana_branch (env : gmap string string) : Res (option Credentials) :=
  let solanaDid := JS.or_else (env !! "AGENT_SOLANA_DID") (env !! "AGENT_DID") in
  let solanaKey :=
    JS.or_else (env !! "AGENT_SOLANA_PRIVATE_KEY") (env !! "AGENT_PRIVATE_KEY") in
  let* found := both_and solanaDid solanaKey
                  (fun d => orR (isValidSolanaDid d) (isValidSolanaAddress d)) in
  Ok (match found with
      | Some (d, k) =>
          Some {| cred_did := d; cred_privateKey := k; cred_provider := solana |}
      | None => None
      end).

Definition evm_branch (env : gmap string string) : Res (option Credentials) :=
  let evmDid := JS.or_else (env !! "AGENT_EVM_DID") (env !! "AGENT_DID") in
  let evmKey :=
    JS.or_else (env !! "AGENT_EVM_PRIVATE_KEY") (env !! "AGENT_PRIVATE_KEY") in
  let* found := both_and evmDid evmKey
                  (fun d => orR (isValidEvmDid d) (isValidEvmAddress d)) in
  Ok (match found with
      | Some (d, k) =>
          Some {| cred_did := d; cred_privateKey := k; cred_provider := evm |}
      | None => None
      end).

Definition key_branch (env : gmap string string) : Res (option Credentials) :=
  let keyDid := env !! "AGENT_DID" in
  let keyPrivateKey := env !! "AGENT_PRIVATE_KEY" in
  let* found := both_and keyDid keyPrivateKey
                  (fun d => Ok (JS.startsWith d "did:key:")) in
  Ok (match found with
      | Some (d, k) =>
          Some {| cred_did := d; cred_privateKey := k; cred_provider := key |}
      | None => None
      end).

(** one [if (provider === p || !provider) { ... return ... }] block
    followed by the rest of the function *)
Definition branch_then (provider : option DidProvider) (p : DidProvider)
    (branch : Res (option Credentials)) (rest : Res (option Credentials))
  : Res (option Credentials) :=
  if hint_allows provider p then
    let* found := branch in
    match found with
    | Some c => Ok (Some c)
    | None => rest
    end
  else rest.

Definition getCredentialsFromEnv (env : gmap string string)
    (provider : option DidProvider) : Res (option Credentials) :=
  branch_then provider solana (solana_branch env)
    (branch_then provider evm (evm_branch env)
       (branch_then provider key (key_branch env)
          (Ok None))).

End Core.

(** ** lib/get-mcp-tools.ts *)

(** What one tool call reads from outside: the environment, the instant
    [Date.now()] returns and the bytes its draw from the entropy source
    delivers (a callback draws at most once).  Two calls are two
    runtimes: a later call reads a later clock and draws other bytes. *)
Record Runtime : Type := {
  rt_env : gmap string string;
  rt_now : Z;
  rt_entropy : nat -> byte
}.

(** The object a [generate_auth_payload] call serialises. *)
Record AuthPayload : Type := {
  payload_did : string;
  payload_timestamp : Z;
  payload_nonce : string;
  payload_signature : string;
  payload_provider : DidProvider
}.

Record ToolArgs : Type := {
  arg_did : option string;
  arg_privateKey : option string;
  arg_provider : option DidProvider
}.

Section Tools.
Context `{Crypto}.

(** the dispatch on [provider] that every callback ends with *)
Definition sign_with (provider : DidProvider) (message privateKey : string)
  : Res string :=
  match provider with
  | solana => signSolanaMessage message privateKey
  | evm => signEvmMessage message privateKey
  | key => signMessage message privateKey
  end.

(** [`${did}:${timestamp}:${nonce}`] *)
Definition auth_message (did : string) (timestamp : Z) (nonce : string) : string :=
  did +:+ ":" +:+ Number.toString timestamp 10 +:+ ":" +:+ nonce.

Definition rethrow_logged {A} (label : string) (body : Res A) : Logged (Res A) :=
  try_catch_log body (fun err => ([label], Throw err)).

End Tools.

(** The callback that also takes [did] and [privateKey] arguments and
    draws the nonce by provider (first listing of get-mcp-tools.ts). *)
Module McpTools.
Section Callbacks.
Context `{Crypto}.

Definition resolve (rt : Runtime) (args : ToolArgs)
  : Res (string * string * option DidProvider) :=
  let from_env :=
    let* envCreds := getCredentialsFromEnv (rt_env rt) (arg_provider args) in
    match envCreds with
    | None =>
        Throw "No DID or private key provided, and none found in environment variables"
    | Some c =>
        let did := match arg_did args with
                   | Some d => if JS.truthy d then d else cred_did c
                   | None => cred_did c
                   end in
        let privateKey := match arg_privateKey args with
                          | Some k => if JS.truthy k then k else cred_privateKey c
                          | None => cred_privateKey c
                          end in
        let provider := match arg_provider args with
                        | Some p => p
                        | None => cred_provider c
                        end in
        Ok (did, privateKey, Some provider)
    end in
  match arg_did args, arg_privateKey args with
  | Some d, Some k =>
      if JS.truthy d && JS.truthy k then Ok (d, k, arg_provider args)
      else from_env
  | _, _ => from_env
  end.

Definition nonce_for (provider : DidProvider) (entropy : nat -> byte) : string :=
  match provider with
  | solana => generateSolanaNonce entropy
  | evm => generateEvmNonce entropy
  | key => generateNonce entropy
  end.

Definition generate_auth_payload_try (rt : Runtime) (args : ToolArgs)
  : Res AuthPayload :=
  let* resolved := resolve rt args in
  let '(did, privateKey, provider) := resolved in
  let* provider := match provider with
                   | Some p => Ok p
                   | None => detectDidProvider did
                   end in
  let timestamp := rt_now rt in
  let nonce := nonce_for provider (rt_entropy rt) in
  let message := auth_message did timestamp nonce in
  let* signature := sign_with provider message privateKey in
  Ok {| payload_did := did; payload_timestamp := timestamp;
        payload_nonce := nonce; payload_signature := signature;
        payload_provider := provider |}.

Definition generate_auth_payload (rt : Runtime) (args : ToolArgs)
  : Logged (Res AuthPayload) :=
  rethrow_logged "Error in generate_auth_payload tool"
    (generate_auth_payload_try rt args).

End Callbacks.
End McpTools.

(** The callback that reads the credential from the environment only
    (second and third listing of get-mcp-tools.ts). *)
Module McpToolsEnv.
Section Callbacks.
Context `{Crypto}.

Definition generate_auth_payload_try (rt : Runtime)
    (providedProvider : option DidProvider) : Res AuthPayload :=
  let* envCreds := getCredentialsFromEnv (rt_env rt) providedProvider in
  match envCreds with
  | None =>
      Throw "No credentials found in environment variables. Please set AGENT_DID and AGENT_PRIVATE_KEY (or provider-specific variants)."
  | Some c =>
      let did := cred_did c in
      let privateKey := cred_privateKey c in
      let provider := cred_provider c in
      let timestamp := rt_now rt in
      let nonce := generateNonce (rt_entropy rt) in
      let message := auth_message did timestamp nonce in
      let* signature := sign_with provider message privateKey in
      Ok {| payload_did := did; payload_timestamp := timestamp;
            payload_nonce := nonce; payload_signature := signature;
            payload_provider := provider |}
  end.

Definition generate_auth_payload (rt : Runtime)
    (providedProvider : option DidProvider) : Logged (Res AuthPayload) :=
  rethrow_logged "Error in generate_auth_payload tool"
    (generate_auth_payload_try rt providedProvider).

End Callbacks.
End McpToolsEnv.

(** ** An instance of the primitives to run the definitions with

    Signatures are Keccak digests of key and message; verification
    recomputes nothing and rejects.  It stands in for the real
    libraries when a statement is evaluated on concrete inputs. *)
Definition test_crypto : Crypto := {|
  nacl_crypto_sign msg sk :=
    Keccak.keccak256 (sk ++ msg) ++ Keccak.keccak256 (msg ++ sk) ++ msg;
  nacl_crypto_sign_open _ _ _ := false;
  ed25519_signAsync msg sk :=
    if (length sk =? 32)%nat
    then Ok (Keccak.keccak256 (sk ++ msg) ++ Keccak.keccak256 (msg ++ sk))
    else Throw "secretKey of length 32 expected";
  ed25519_verifyAsync sig _ pk :=
    if negb (length sig =? 64)%nat then Throw "signature of length 64 expected"
    else if negb (length pk =? 32)%nat then Throw "publicKey of length 32 expected"
    else Ok false;
  ethers_wallet_sign k m :=
    if (String.length k =? 66)%nat
    then Ok ("0x" +:+ bytesToHex (Keccak.keccak256 (bytes_of_string (k +:+ m))))
    else Throw "invalid private key";
  ethers_verifyMessage _ sig :=
    if (String.length sig =? 132)%nat
    then Ok "0x0000000000000000000000000000000000000000"
    else Throw "invalid signature"
|}.

(** ** The specification's reading of detection and resolution

    These definitions follow the documented algorithms, not the sources;
    the theorems below relate them to the functions above. *)

Module Spec.

(** "the string decodes as a valid 32-byte base58 blob" *)
Definition base58_32_bytes (s : string) : bool :=
  match Base58.decode s with
  | Ok bytes => (length bytes =? 32)%nat
  | Throw _ => false
  end.

(** "first match wins, in this order" *)
Fixpoint first_match {T} (rules : list ((string -> bool) * T)) (fallback : T)
    (s : string) : T :=
  match rules with
  | [] => fallback
  | (applies, tag) :: rest =>
      if applies s then tag else first_match rest fallback s
  end.

Definition detect_rules : list ((string -> bool) * DidProvider) :=
  [ (fun s => JS.startsWith s "did:key:", key);
    (fun s => JS.startsWith s "did:pkh:solana:", solana);
    (fun s => JS.startsWith s "did:ethr:", evm);
    (fun s => JS.startsWith s "did:pkh:eip155:", evm);
    (base58_32_bytes, solana);
    (Ethers.isAddress, evm) ].

Definition detect (did : string) : DidProvider :=
  first_match detect_rules key did.

(** "requires prefix did:pkh:solana: and exactly 5 colon-separated
    segments; re-validates the extracted address" *)
Definition solana_did_ok (did : string) : bool :=
  JS.startsWith did "did:pkh:solana:"
  && match JS.split ":" did with
     | [_; _; _; _; address] => base58_32_bytes address
     | _ => false
     end.

(** "for did:ethr:, 3 segments or 4 segments; for did:pkh:eip155:,
    exactly 5 segments", and the address found there is valid *)
Definition evm_did_ok (did : string) : bool :=
  if JS.startsWith did "did:ethr:" then
    match JS.split ":" did with
    | [_; _; address] | [_; _; _; address] =>
        Ethers.isAddress (JS.toLowerCase address)
    | _ => false
    end
  else if JS.startsWith did "did:pkh:eip155:" then
    match JS.split ":" did with
    | [_; _; _; _; address] => Ethers.isAddress (JS.toLowerCase address)
    | _ => false
    end
  else false.

(** "read X falling back to Y": the first of the two that is set to a
    non-empty value *)
Definition read_or (env : gmap string string) (name fallback : string)
  : option string :=
  match env !! name with
  | Some v => if JS.truthy v then Some v else env !! fallback
  | None => env !! fallback
  end.

(** the DID variable, the key variable and the DID check of a branch *)
Definition did_of (env : gmap string string) (p : DidProvider) : option string :=
  match p with
  | solana => read_or env "AGENT_SOLANA_DID" "AGENT_DID"
  | evm => read_or env "AGENT_EVM_DID" "AGENT_DID"
  | key => env !! "AGENT_DID"
  end.

Definition key_of (env : gmap string string) (p : DidProvider) : option string :=
  match p with
  | solana => read_or env "AGENT_SOLANA_PRIVATE_KEY" "AGENT_PRIVATE_KEY"
  | evm => read_or env "AGENT_EVM_PRIVATE_KEY" "AGENT_PRIVATE_KEY"
  | key => env !! "AGENT_PRIVATE_KEY"
  end.

Definition did_ok (p : DidProvider) (did : string) : bool :=
  match p with
  | solana => solana_did_ok did || base58_32_bytes did
  | evm => evm_did_ok did || Ethers.isAddress did
  | key => JS.startsWith did "did:key:"
  end.

(** "accept if both present and the DID validates" *)
Definition branch (env : gmap string string) (p : DidProvider)
  : option Credentials :=
  match did_of env p, key_of env p with
  | Some d, Some k =>
      if JS.truthy d && JS.truthy k && did_ok p d
      then Some {| cred_did := d; cred_privateKey := k; cred_provider := p |}
      else None
  | _, _ => None
  end.

(** "a non-numeric segment": one that, leading white space and one
    sign apart, does not begin with a decimal digit *)
Definition decimal_digit (c : ascii) : bool :=
  existsb (Ascii.eqb c) (list_ascii_of_string "0123456789").

Definition begins_with_digit (s : string) : bool :=
  match s with
  | String c _ => decimal_digit c
  | EmptyString => false
  end.

(** the white space of a string of code units below 256: TAB, LF, VT,
    FF, CR, space and no-break space *)
Definition blank (c : ascii) : bool :=
  existsb (Ascii.eqb c) ["009"; "010"; "011"; "012"; "013"; " "; "160"]%char.

Fixpoint skip_blanks (s : string) : string :=
  match s with
  | String c s' => if blank c then skip_blanks s' else s
  | EmptyString => EmptyString
  end.

Definition strip_sign (s : string) : string :=
  match s with
  | String "-" s' | String "+" s' => s'
  | _ => s
  end.

Definition numeric (s : string) : bool :=
  begins_with_digit (strip_sign (skip_blanks s)).

(** "providerHint being unset or matching" *)
Definition unset_or_matching (hint : option DidProvider) (p : DidProvider)
  : Prop :=
  hint = None \/ hint = Some p.

#[global] Instance unset_or_matching_dec (hint : option DidProvider)
    (p : DidProvider) : Decision (unset_or_matching hint p) :=
  or_dec (decide (hint = None)) (decide (hint = Some p)).

(** "checks, in fixed order, each conditional on providerHint being
    unset or matching; first satisfied branch wins; null if none" *)
Fixpoint first_branch (env : gmap string string) (hint : option DidProvider)
    (order : list DidProvider) : option Credentials :=
  match order with
  | [] => None
  | p :: rest =>
      match (if decide (unset_or_matching hint p) then branch env p
             else None) with
      | Some c => Some c
      | None => first_branch env hint rest
      end
  end.

Definition resolve (env : gmap string string) (hint : option DidProvider)
  : option Credentials :=
  first_branch env hint [solana; evm; key].

(** Two environments that differ at most in the values of the
    private-key variables, which are set (to a non-empty value) in one
    exactly when they are in the other. *)
Definition same_up_to_key_values (env env' : gmap string string) : Prop :=
  (forall name, In name ["AGENT_DID"; "AGENT_SOLANA_DID"; "AGENT_EVM_DID"] ->
                env !! name = env' !! name)
  /\ (forall name, In name ["AGENT_PRIVATE_KEY"; "AGENT_SOLANA_PRIVATE_KEY";
                            "AGENT_EVM_PRIVATE_KEY"] ->
                   JS.truthy_opt (env !! name) = JS.truthy_opt (env' !! name)).

(** what of a resolution does not mention the private key *)
Definition did_and_provider (r : option Credentials)
  : option (string * DidProvider) :=
  match r with
  | Some c => Some (cred_did c, cred_provider c)
  | None => None
  end.

(** a verification that reports [false] and logs one diagnostic *)
Definition logged_false (r : Logged (Res bool)) : Prop :=
  exists line, r = ([line], Ok false).

(** "any decode/length failure": the signature or the public key is
    not base58, or the key is not 32 bytes, or the signature not 64 *)
Definition solana_material_malformed (signatureBase58 publicKeyBase58 : string)
  : Prop :=
  (exists e, Base58.decode signatureBase58 = Throw e)
  \/ (exists e, Base58.decode publicKeyBase58 = Throw e)
  \/ (exists bytes, Base58.decode publicKeyBase58 = Ok bytes
                    /\ length bytes <> 32%nat)
  \/ (exists bytes, Base58.decode signatureBase58 = Ok bytes
                    /\ length bytes <> 64%nat).

End Spec.

(** ** Sample inputs *)

Definition sample_solana_did : string :=
  "did:pkh:solana:4sGjMW1sUnHzSxGspuhpqLDx6wiyjNtZ:11111111111111111111111111111111".

(** a Solana credential in the provider-specific variables, the clock at
    a fixed instant and an entropy source that yields zero bytes *)
Definition sample_solana_runtime : Runtime := {|
  rt_env :=
    {[ "AGENT_SOLANA_DID" := sample_solana_did;
       "AGENT_SOLANA_PRIVATE_KEY" :=
         "1111111111111111111111111111111111111111111111111111111111111111" ]};
  rt_now := 1700000000000%Z;
  rt_entropy := fun _ => x00
|}.

(** what the environment-only callback returns on it under [test_crypto] *)
Definition sample_solana_payload : AuthPayload := {|
  payload_did := sample_solana_did;
  payload_timestamp := 1700000000000%Z;
  payload_nonce := "AAAAAAAAAAAAAAAAAAAAAAAAAAAAAAAAAAAAAAAAAAA=";
  payload_signature :=
    "5KfgTHJghNTxtq2ukzpURgCkAnjgEo6hf2fNiSEND8gZianUUA11SsUMKxdGfT33Ptx3wdXCamM1k9XUZ6fGWHiP";
  payload_provider := solana
|}.

(** what the callback of the first listing returns on it, without
    arguments, under [test_crypto]: the nonce is in base58 *)
Definition sample_solana_payload_base58 : AuthPayload := {|
  payload_did := sample_solana_did;
  payload_timestamp := 1700000000000%Z;
  payload_nonce := "11111111111111111111111111111111";
  payload_signature :=
    "2g8vcEcUki27qPTRNx41M2ahVqhFNNHRxbo5t59geXuUjaiVDVyxBhhNBozAFNfSgjFhMeLVxuhodjyZP8dXHMhA";
  payload_provider := solana
|}.

(** a later call in the same environment: the clock has advanced and
    the entropy source yields other bytes *)
Definition sample_later_runtime : Runtime := {|
  rt_env := rt_env sample_solana_runtime;
  rt_now := 1700000060000%Z;
  rt_entropy := fun _ => xff
|}.

Definition sample_evm_env : gmap string string :=
  {[ "AGENT_DID" := "0x742d35cc6634c0532925a3b844bc9e7595f0beb0";
     "AGENT_PRIVATE_KEY" := "not a key" ]}.

(** ** utils/solana-crypto.ts, continued *)

Definition getAddressFromPublicKeyBase58 (publicKeyBase58 : string) : Res string :=
  try_catch
    (let* publicKeyBytes := Base58.decode publicKeyBase58 in
     if negb (length publicKeyBytes =? 32)%nat then
       Throw "Invalid public key length. Expected 32 bytes."
     else Ok publicKeyBase58)
    (fun error => Throw ("Failed to get address from public key: " +:+ error)).

(** ** utils/auth-base.ts *)

Module AuthBase.

(** [BaseAuthStrategy.verifyTimestamp(timestamp, windowMs = 5 * 60 * 1000)]
    at the instant [now = Date.now()]; a comparison with [NaN] is false *)
Definition verifyTimestamp (now : Z) (timestamp : JSNum) (windowMs : option Z)
  : bool :=
  let windowMs := default (5 * 60 * 1000)%Z windowMs in
  match timestamp with
  | NaN => true
  | Int t =>
      if (windowMs <? now - t)%Z then false
      else if (60 * 1000 <? t - now)%Z then false
      else true
  | Infinity _ =>
      (* one of [now - timestamp] and [timestamp - now] is +Infinity *)
      false
  end.

(** [BaseAuthStrategy.buildAuthMessage] *)
Definition buildAuthMessage (did : string) (timestamp : JSNum) (nonce : string)
  : string :=
  did +:+ ":" +:+
  match timestamp with
  | NaN => "NaN"
  | Int t => Number.toString t 10
  | Infinity negative => if negative then "-Infinity" else "Infinity"
  end +:+ ":" +:+ nonce.

(** [BaseAuthStrategy.generateNonce], the default of every strategy *)
Definition generateNonce (entropy : nat -> byte) : string :=
  Base64.encode (random_bytes entropy 32).

(** truthiness of a number: [0] and [NaN] are falsy *)
Definition number_truthy (n : JSNum) : bool :=
  match n with
  | NaN => false
  | Int z => negb (z =? 0)%Z
  | Infinity _ => true
  end.

(** [NonceManager.isUsed(nonce, timestamp)] on the map [usedNonces]:
    the answer and the map afterwards *)
Definition isUsed (usedNonces : gmap string JSNum) (nonce : string)
    (timestamp : JSNum) : bool * gmap string JSNum :=
  let existingTimestamp := usedNonces !! nonce in
  match existingTimestamp with
  | Some existing =>
      if number_truthy existing then (true, usedNonces)
      else (false, <[nonce := timestamp]> usedNonces)
  | None => (false, <[nonce := timestamp]> usedNonces)
  end.



End AuthBase.

(** ** utils/did-generator.ts *)

Module DidGenerator.

Definition ALPHABET : string :=
  "123456789ABCDEFGHJKLMNPQRSTUVWXYZabcdefghijkmnopqrstuvwxyz".

(** [ALPHABET[Number(remainder)]] *)
Definition alphabet_at (i : N) : ascii :=
  match String.get (N.to_nat i) ALPHABET with
  | Some c => c
  | None => "1"%char
  end.

Fixpoint hex_values (digits : string) : option (list N) :=
  match digits with
  | EmptyString => Some []
  | String c rest =>
      match Number.digit_value 16 c, hex_values rest with
      | Some v, Some vs => Some (v :: vs)
      | _, _ => None
      end
  end.

(** [BigInt('0x' + digits)]: a SyntaxError when there is no digit or
    one of the characters is not a hexadecimal digit *)
Definition BigInt_0x (digits : string) : Res N :=
  match digits, hex_values digits with
  | String _ _, Some vs => Ok (Radix.of_digits 16 vs)
  | _, _ => Throw ("Cannot convert 0x" +:+ digits +:+ " to a BigInt")
  end.

(** [while (num > 0n) { ... }], the fuel is the binary size of [num] *)
Fixpoint digits_loop (fuel : nat) (num : N) (result : string) : string :=
  match fuel with
  | O => result
  | S fuel' =>
      if (0 <? num)%N then
        digits_loop fuel' (num / 58)%N (String (alphabet_at (num mod 58)) result)
      else result
  end.

(** [for (let i = 0; i < bytes.length && bytes[i] === 0; i++)
      result = '1' + result] *)
Fixpoint leading_ones (bytes : list byte) (result : string) : string :=
  match bytes with
  | b :: rest =>
      if Byte.eqb b x00 then leading_ones rest (String "1" result) else result
  | [] => result
  end.

Definition bytesToBase58 (bytes : list byte) : Res string :=
  let* num := BigInt_0x (bytesToHex bytes) in
  let result := digits_loop (N.size_nat num) num EmptyString in
  Ok (leading_ones bytes result).

Definition createDidKey (publicKeyBytes : list byte) : Res string :=
  let prefix := [xed; x01] in
  let prefixedKey := prefix ++ publicKeyBytes in
  let* base58Key := bytesToBase58 prefixedKey in
  Ok ("did:key:z" +:+ base58Key).

Record DidKeyPair : Type := {
  pair_did : string;
  pair_privateKeyHex : string;
  pair_publicKeyHex : string
}.

(** [generateDidKeyPair], with noble's [ed25519.getPublicKeyAsync] as a
    parameter and [ed25519.utils.randomSecretKey()] drawing 32 bytes *)
Definition generateDidKeyPair (getPublicKeyAsync : list byte -> Res (list byte))
    (entropy : nat -> byte) : Res DidKeyPair :=
  let privateKey := random_bytes entropy 32 in
  let privateKeyHex := bytesToHex privateKey in
  let* publicKey := getPublicKeyAsync privateKey in
  let publicKeyHex := bytesToHex publicKey in
  let* did := createDidKey publicKey in
  Ok {| pair_did := did; pair_privateKeyHex := privateKeyHex;
        pair_publicKeyHex := publicKeyHex |}.

(** [formatDidEnv] *)
Definition formatDidEnv (pair : DidKeyPair) : string :=
  "AGENT_DID=" +:+ pair_did pair +:+ String "010" EmptyString
  +:+ "AGENT_PRIVATE_KEY=" +:+ pair_privateKeyHex pair
  +:+ String "010" EmptyString.

End DidGenerator.

(** ** lib/get-mcp-tools.ts: create_did_signature *)

(** The object a [create_did_signature] call serialises; the first
    listing also reports a nonce. *)
Record DidSignature : Type := {
  signed_did : string;
  signed_message : string;
  signed_nonce : option string;
  signed_signature : string;
  signed_provider : DidProvider
}.

Module McpSign.
Section Callbacks.
Context `{Crypto}.

(** first listing: [did] and [privateKey] arguments, a nonce by provider *)
Definition create_did_signature_try (rt : Runtime) (message : string)
    (args : ToolArgs) : Res DidSignature :=
  let* resolved := McpTools.resolve rt args in
  let '(did, privateKey, provider) := resolved in
  let* provider := match provider with
                   | Some p => Ok p
                   | None => detectDidProvider did
                   end in
  let nonce := McpTools.nonce_for provider (rt_entropy rt) in
  let* signature := sign_with provider message privateKey in
  Ok {| signed_did := did; signed_message := message;
        signed_nonce := Some nonce; signed_signature := signature;
        signed_provider := provider |}.

Definition create_did_signature (rt : Runtime) (message : string)
    (args : ToolArgs) : Logged (Res DidSignature) :=
  rethrow_logged "Error in create_did_signature tool"
    (create_did_signature_try rt message args).

(** second and third listing: the credential of the environment only *)
Definition create_did_signature_env_try (rt : Runtime) (message : string)
    (providedProvider : option DidProvider) : Res DidSignature :=
  let* envCreds := getCredentialsFromEnv (rt_env rt) providedProvider in
  match envCreds with
  | None =>
      Throw "No credentials found in environment variables. Please set AGENT_DID and AGENT_PRIVATE_KEY (or provider-specific variants)."
  | Some c =>
      let did := cred_did c in
      let privateKey := cred_privateKey c in
      let provider := cred_provider c in
      let* signature := sign_with provider message privateKey in
      Ok {| signed_did := did; signed_message := message;
            signed_nonce := None; signed_signature := signature;
            signed_provider := provider |}
  end.

Definition create_did_signature_env (rt : Runtime) (message : string)
    (providedProvider : option DidProvider) : Logged (Res DidSignature) :=
  rethrow_logged "Error in create_did_signature tool"
    (create_did_signature_env_try rt message providedProvider).

End Callbacks.
End McpSign.

(** ** Auxiliary notions for the statements *)

(** what [parseInt] makes of a string once whitespace, sign and prefix
    are dealt with: the value of its longest prefix of digits, as a
    double *)
Definition digits_result (radix : N) (s : string) : JSNum :=
  match Number.leading_digits radix s with
  | [] => NaN
  | ds =>
      match Number.to_double (Radix.of_digits radix ds) with
      | Some v => Int (Z.of_N v)
      | None => Infinity false
      end
  end.


(** a stand-in for noble's [getPublicKeyAsync]: 32 bytes from the key *)
Definition sample_getPublicKey (secretKey : list byte) : Res (list byte) :=
  Ok (Keccak.keccak256 secretKey).

(** a string that is both 40 hexadecimal digits and the base58 form of
    32 bytes, in the EVM-specific variables *)
Definition sample_ambiguous_env : gmap string string :=
  {[ "AGENT_EVM_DID" := "1111111111ffffffffffffffffffffffffffffff";
     "AGENT_EVM_PRIVATE_KEY" := "0x01" ]}.

(** ** Lemmas on strings *)

Lemma startsWith_app (p t : string) : JS.startsWith (p +:+ t) p = true.
Proof.
  induction p as [|c p IH]; simpl; [reflexivity|].
  rewrite Ascii.eqb_refl. exact IH.
Qed.

Lemma startsWith_inv (s p : string) :
  JS.startsWith s p = true -> exists t, s = p +:+ t.
Proof.
  revert s. induction p as [|c p IH]; intros s H; simpl in *.
  - exists s. reflexivity.
  - destruct s as [|d s]; [discriminate|].
    destruct (Ascii.eqb d c) eqn:E; [|discriminate].
    apply Ascii.eqb_eq in E. subst d.
    destruct (IH s H) as [t ->]. exists t. reflexivity.
Qed.

Lemma startsWith_iff (s p : string) :
  JS.startsWith s p = true <-> exists t, s = p +:+ t.
Proof.
  split; [apply startsWith_inv|]. intros [t ->]. apply startsWith_app.
Qed.

(** Whatever the DID, [extractPublicKeyFromDID] returns [null]: the
    slice keeps the multibase letter [z], so the test for [6Mk] never
    succeeds. *)
Theorem extractPublicKeyFromDID_always_null (did : string) :
  extractPublicKeyFromDID did = None.
Proof.
  unfold extractPublicKeyFromDID.
  destruct (JS.startsWith did "did:key:z") eqn:E; simpl; [|reflexivity].
  apply startsWith_inv in E. destruct E as [t ->]. reflexivity.
Qed.

(** ** Positional numerals: the fuel is enough *)

Lemma of_digits_from (radix : N) (ds : list N) (start : N) :
  fold_left (fun acc d => (acc * radix + d)%N) ds start
  = (start * radix ^ N.of_nat (length ds) + Radix.of_digits radix ds)%N.
Proof.
  unfold Radix.of_digits. revert start.
  induction ds as [|d ds IH]; intros start; simpl length.
  - simpl. lia.
  - cbn [fold_left]. rewrite (IH (start * radix + d)%N), (IH (0 * radix + d)%N).
    rewrite Nat2N.inj_succ, N.pow_succ_r'. lia.
Qed.

Lemma of_digits_cons (radix d : N) (ds : list N) :
  Radix.of_digits radix (d :: ds)
  = (d * radix ^ N.of_nat (length ds) + Radix.of_digits radix ds)%N.
Proof.
  unfold Radix.of_digits at 1. cbn [fold_left].
  rewrite of_digits_from. lia.
Qed.

Lemma size_nat_bound (n : N) : (n < 2 ^ N.of_nat (N.size_nat n))%N.
Proof.
  destruct n as [|p]; [reflexivity|]. simpl N.size_nat.
  induction p as [p IH|p IH|]; simpl Pos.size_nat;
    rewrite ?Nat2N.inj_succ, ?N.pow_succ_r'; lia.
Qed.

Lemma to_digits_go_value (radix : N) (fuel : nat) (n : N) (acc : list N) :
  (2 <= radix)%N ->
  (n < 2 ^ N.of_nat fuel)%N ->
  Radix.of_digits radix (Radix.to_digits_go radix fuel n acc)
  = (n * radix ^ N.of_nat (length acc) + Radix.of_digits radix acc)%N.
Proof.
  intros Hradix. revert n acc.
  induction fuel as [|fuel IH]; intros n acc Hn.
  - simpl in *. assert (n = 0%N) as -> by lia. reflexivity.
  - cbn [Radix.to_digits_go]. destruct (N.eqb_spec n 0) as [->|Hnz].
    + reflexivity.
    + rewrite IH.
      * rewrite of_digits_cons. simpl length.
        rewrite Nat2N.inj_succ, N.pow_succ_r'.
        pose proof (N.div_mod n radix ltac:(lia)) as Hdm. nia.
      * rewrite Nat2N.inj_succ, N.pow_succ_r' in Hn.
        apply N.Div0.div_lt_upper_bound.
        assert (2 * 2 ^ N.of_nat fuel <= radix * 2 ^ N.of_nat fuel)%N
          by (apply N.mul_le_mono_r; lia).
        lia.
Qed.

(** the digits denote the number: the fuel never runs out *)
Lemma to_digits_value (radix n : N) :
  (2 <= radix)%N ->
  Radix.of_digits radix (Radix.to_digits radix n) = n.
Proof.
  intros Hradix. unfold Radix.to_digits.
  rewrite to_digits_go_value by (try assumption; apply size_nat_bound).
  simpl. unfold Radix.of_digits. simpl. lia.
Qed.

(** ** Positional numerals: canonical numerals are unique *)

Lemma of_digits_snoc (radix d : N) (ds : list N) :
  Radix.of_digits radix (ds ++ [d]) = (Radix.of_digits radix ds * radix + d)%N.
Proof. unfold Radix.of_digits. rewrite fold_left_app. reflexivity. Qed.

Lemma of_digits_leading_zeros (radix : N) (z : nat) (ds : list N) :
  Radix.of_digits radix (repeat 0%N z ++ ds) = Radix.of_digits radix ds.
Proof.
  induction z as [|z IH]; [reflexivity|].
  cbn [repeat app]. rewrite of_digits_cons, IH. lia.
Qed.

Lemma canonical_nil (radix : N) : Radix.canonical radix [].
Proof. split; [constructor | discriminate]. Qed.

Lemma canonical_snoc_inv (radix d : N) (ds : list N) :
  Radix.canonical radix (ds ++ [d]) ->
  Radix.canonical radix ds /\ (d < radix)%N.
Proof.
  intros [Hall Hhead]. apply Forall_app in Hall. destruct Hall as [Hds Hd].
  split; [split; [exact Hds|] | exact (Forall_inv Hd)].
  intros h rest ->. apply (Hhead h (rest ++ [d])). reflexivity.
Qed.

Lemma canonical_value_nonzero (radix : N) (ds : list N) :
  (2 <= radix)%N -> Radix.canonical radix ds -> ds <> [] ->
  Radix.of_digits radix ds <> 0%N.
Proof.
  intros Hradix [_ Hhead] Hne. destruct ds as [|h rest]; [contradiction|].
  specialize (Hhead h rest eq_refl). rewrite of_digits_cons.
  assert (radix ^ N.of_nat (length rest) <> 0)%N by (apply N.pow_nonzero; lia).
  nia.
Qed.

Lemma to_digits_go_zero (radix : N) (fuel : nat) (acc : list N) :
  Radix.to_digits_go radix fuel 0 acc = acc.
Proof. destruct fuel; reflexivity. Qed.

Lemma to_digits_go_of_digits (radix : N) (ds : list N) :
  (2 <= radix)%N -> Radix.canonical radix ds ->
  forall (fuel : nat) (acc : list N),
    (Radix.of_digits radix ds < 2 ^ N.of_nat fuel)%N ->
    Radix.to_digits_go radix fuel (Radix.of_digits radix ds) acc = ds ++ acc.
Proof.
  intros Hradix. induction ds as [|d ds IH] using rev_ind; intros Hcan fuel acc Hfuel.
  - apply to_digits_go_zero.
  - pose proof (canonical_value_nonzero radix (ds ++ [d]) Hradix Hcan) as Hnz.
    destruct (canonical_snoc_inv _ _ _ Hcan) as [Hds Hd].
    rewrite of_digits_snoc in *.
    set (v := Radix.of_digits radix ds) in *.
    assert (Hv : (v * radix + d)%N <> 0%N) by (apply Hnz; destruct ds; discriminate).
    destruct fuel as [|fuel].
    { simpl in Hfuel. lia. }
    cbn [Radix.to_digits_go].
    destruct (N.eqb_spec (v * radix + d) 0) as [Hz|_]; [contradiction|].
    assert (Hdiv : ((v * radix + d) / radix = v)%N).
    { symmetry. apply (N.div_unique _ _ _ d); lia. }
    assert (Hmod : ((v * radix + d) mod radix = d)%N).
    { symmetry. apply (N.mod_unique _ _ v); lia. }
    rewrite Hdiv, Hmod, <- app_assoc. cbn [app].
    apply (IH Hds).
    rewrite Nat2N.inj_succ, N.pow_succ_r' in Hfuel. nia.
Qed.

Lemma to_digits_of_digits (radix : N) (ds : list N) :
  (2 <= radix)%N -> Radix.canonical radix ds ->
  Radix.to_digits radix (Radix.of_digits radix ds) = ds.
Proof.
  intros Hradix Hcan. unfold Radix.to_digits.
  rewrite (to_digits_go_of_digits radix ds Hradix Hcan)
    by apply size_nat_bound.
  apply app_nil_r.
Qed.

Lemma to_digits_go_canonical (radix : N) (fuel : nat) (n : N) (acc : list N) :
  (2 <= radix)%N ->
  (n < 2 ^ N.of_nat fuel)%N ->
  exists hi,
    Radix.to_digits_go radix fuel n acc = hi ++ acc
    /\ Forall (fun d => (d < radix)%N) hi
    /\ (n <> 0%N -> exists h rest, hi = h :: rest /\ h <> 0%N).
Proof.
  intros Hradix. revert n acc.
  induction fuel as [|fuel IH]; intros n acc Hn.
  - exists []. simpl in *. repeat split; [constructor | lia].
  - cbn [Radix.to_digits_go]. destruct (N.eqb_spec n 0) as [->|Hnz].
    + exists []. repeat split; [constructor | contradiction].
    + assert (Hq : (n / radix < 2 ^ N.of_nat fuel)%N).
      { rewrite Nat2N.inj_succ, N.pow_succ_r' in Hn.
        apply N.Div0.div_lt_upper_bound.
        assert (2 * 2 ^ N.of_nat fuel <= radix * 2 ^ N.of_nat fuel)%N
          by (apply N.mul_le_mono_r; lia).
        lia. }
      destruct (IH (n / radix)%N ((n mod radix)%N :: acc) Hq)
        as (hi & Heq & Hall & Hhead).
      exists (hi ++ [(n mod radix)%N]). rewrite Heq, <- app_assoc.
      split; [reflexivity|]. split.
      * apply Forall_app. split; [exact Hall|].
        constructor; [apply N.mod_lt; lia | constructor].
      * intros _. destruct (N.eqb_spec (n / radix) 0) as [Hzero|Hq0].
        -- destruct hi as [|h rest].
           ++ exists (n mod radix)%N, []. split; [reflexivity|].
              pose proof (N.div_mod n radix ltac:(lia)). nia.
           ++ exfalso.
              assert (Hlen : length (Radix.to_digits_go radix fuel (n / radix)
                                       ((n mod radix)%N :: acc))
                             = length ((h :: rest) ++ (n mod radix)%N :: acc))
                by (rewrite Heq; reflexivity).
              rewrite Hzero, to_digits_go_zero, length_app in Hlen.
              simpl in Hlen. lia.
        -- destruct (Hhead Hq0) as (h & rest & -> & Hh).
           exists h, (rest ++ [(n mod radix)%N]). split; [reflexivity|exact Hh].
Qed.

Lemma to_digits_canonical (radix n : N) :
  (2 <= radix)%N -> Radix.canonical radix (Radix.to_digits radix n).
Proof.
  intros Hradix. unfold Radix.to_digits.
  destruct (to_digits_go_canonical radix (N.size_nat n) n [] Hradix
              (size_nat_bound n)) as (hi & Heq & Hall & Hhead).
  rewrite Heq, app_nil_r. split; [exact Hall|].
  intros d rest ->. destruct (N.eqb_spec n 0) as [->|Hnz].
  - rewrite to_digits_go_zero in Heq. discriminate.
  - destruct (Hhead Hnz) as (h & rest' & [= <- <-] & Hh). exact Hh.
Qed.

(** ** bs58: decoding an encoding gives the bytes back *)

Lemma base58_char_value_digit (d : N) :
  (d < 58)%N -> Base58.char_value (Base58.digit_char d) = Some d.
Proof.
  intros Hd. rewrite <- (N2Nat.id d) at 2. unfold Base58.digit_char.
  assert (Hn : N.to_nat d < 58) by lia. revert Hn.
  generalize (N.to_nat d). intros n Hn.
  do 58 (destruct n as [|n]; [reflexivity|]). lia.
Qed.

Lemma base58_values_digits (ds : list N) :
  Forall (fun d => (d < 58)%N) ds ->
  Base58.values (string_of_list_ascii (map Base58.digit_char ds)) = Some ds.
Proof.
  induction 1 as [|d ds Hd _ IH]; [reflexivity|].
  cbn [map string_of_list_ascii Base58.values].
  rewrite (base58_char_value_digit d Hd), IH. reflexivity.
Qed.

Lemma base58_values_encode (z : nat) (ds : list N) :
  Forall (fun d => (d < 58)%N) ds ->
  Base58.values
    (string_of_list_ascii (repeat "1"%char z ++ map Base58.digit_char ds))
  = Some (repeat 0%N z ++ ds).
Proof.
  intros Hds. induction z as [|z IH]; cbn [repeat app].
  - apply base58_values_digits, Hds.
  - cbn [string_of_list_ascii Base58.values]. rewrite IH. reflexivity.
Qed.

Lemma count_leading_zeros_app {A} (is_zero : A -> bool) (zero : A) (z : nat)
    (l : list A) :
  is_zero zero = true ->
  (forall x rest, l = x :: rest -> is_zero x = false) ->
  Base58.count_leading is_zero (repeat zero z ++ l) = z.
Proof.
  intros Hzero Hhead. induction z as [|z IH]; cbn [repeat app].
  - destruct l as [|x rest]; [reflexivity|]. simpl.
    rewrite (Hhead x rest eq_refl). reflexivity.
  - simpl. rewrite Hzero, IH. reflexivity.
Qed.

Lemma leading_zero_bytes (bytes : list byte) :
  exists rest,
    bytes = repeat x00 (Base58.count_leading (Byte.eqb x00) bytes) ++ rest
    /\ (forall b tail, rest = b :: tail -> b <> x00).
Proof.
  induction bytes as [|b bytes (rest & Heq & Hhead)].
  - exists []. split; [reflexivity | discriminate].
  - simpl. destruct (Byte.eqb x00 b) eqn:Hb.
    + apply Byte.byte_dec_bl in Hb. subst b.
      exists rest. split; [|exact Hhead]. simpl. congruence.
    + exists (b :: bytes). split; [reflexivity|].
      intros b' tail [= <- <-]. apply Byte.eqb_false in Hb. congruence.
Qed.

Lemma byte_of_to_N (b : byte) : byte_of_N (Byte.to_N b) = b.
Proof.
  unfold byte_of_N. pose proof (Byte.to_N_bounded b) as Hb.
  rewrite N.mod_small by lia. rewrite Byte.of_to_N. reflexivity.
Qed.

Lemma bytes_canonical (rest : list byte) :
  (forall b tail, rest = b :: tail -> b <> x00) ->
  Radix.canonical 256 (map Byte.to_N rest).
Proof.
  intros Hhead. split.
  - apply List.Forall_forall. intros d Hd. apply in_map_iff in Hd.
    destruct Hd as (b & <- & _). pose proof (Byte.to_N_bounded b). lia.
  - intros d tail Heq. destruct rest as [|b rest]; [discriminate|].
    injection Heq as <- _. intros Hzero.
    apply (Hhead b rest eq_refl).
    pose proof (Byte.of_to_N b) as Hb. rewrite Hzero in Hb.
    simpl in Hb. congruence.
Qed.

(** bs58 is a codec: every byte string is recovered from its encoding *)
Theorem base58_decode_encode (bytes : list byte) :
  Base58.decode (Base58.encode bytes) = Ok bytes.
Proof.
  destruct (leading_zero_bytes bytes) as (rest & Hbytes & Hhead).
  unfold Base58.decode, Base58.encode.
  set (z := Base58.count_leading (Byte.eqb x00) bytes) in *.
  set (n := Radix.of_digits 256 (map Byte.to_N bytes)).
  pose proof (to_digits_canonical 58 n ltac:(lia)) as [Hall Hnz].
  rewrite (base58_values_encode z _ Hall).
  rewrite (count_leading_zeros_app (N.eqb 0) 0%N z).
  - rewrite of_digits_leading_zeros, to_digits_value by lia.
    assert (Hn : n = Radix.of_digits 256 (map Byte.to_N rest)).
    { unfold n. rewrite Hbytes at 1. rewrite map_app.
      replace (map Byte.to_N (repeat x00 z)) with (repeat 0%N z)
        by (clear; induction z; simpl; congruence).
      apply of_digits_leading_zeros. }
    rewrite Hn, (to_digits_of_digits 256) by
      (try lia; apply bytes_canonical, Hhead).
    rewrite map_map, (map_ext _ (fun b => b) byte_of_to_N), map_id.
    rewrite <- Hbytes. reflexivity.
  - reflexivity.
  - intros d tail Heq. apply N.eqb_neq. intros Hd.
    apply (Hnz d tail Heq). congruence.
Qed.

(** ** Test vectors of the codecs *)

Example bs58_encode_hello :
  Base58.encode (bytes_of_string "Hello World!") = "2NEpo7TZRRrLZSi2U".
Proof. vm_compute. reflexivity. Qed.

Example bs58_decode_hello :
  Base58.decode "StV1DL6CwTryKyV" = Ok (bytes_of_string "hello world").
Proof. vm_compute. reflexivity. Qed.

Example bs58_decode_system_program :
  Base58.decode "11111111111111111111111111111111" = Ok (repeat x00 32).
Proof. vm_compute. reflexivity. Qed.

Example bs58_decode_rejects_zero_digit :
  Base58.decode "0x00" = Throw "Non-base58 character".
Proof. vm_compute. reflexivity. Qed.

Example base64_hello :
  Base64.encode (bytes_of_string "hello world") = "aGVsbG8gd29ybGQ=".
Proof. vm_compute. reflexivity. Qed.

Example keccak256_empty :
  bytesToHex (Keccak.keccak256 []) =
  "c5d2460186f7233c927e7db2dcc703c0e500b653ca82273b7bfad8045d85a470".
Proof. vm_compute. reflexivity. Qed.

Example keccak256_abc :
  bytesToHex (Keccak.keccak256 (bytes_of_string "abc")) =
  "4e03657aea45a94fc7d47ba826c8d667c0d1e6e33a64a036ec44f58fa12d6c45".
Proof. vm_compute. reflexivity. Qed.

Example checksum_eip55 :
  Ethers.getChecksumAddress "0x5aaeb6053f3e94c9b9a09f33669435e7ef1beaed" =
  "0x5aAeb6053F3E94C9b9A09f33669435E7Ef1BeAed".
Proof. vm_compute. reflexivity. Qed.

Example isAddress_checksummed :
  Ethers.isAddress "0x5aAeb6053F3E94C9b9A09f33669435E7Ef1BeAed" = true.
Proof. vm_compute. reflexivity. Qed.

Example isAddress_bad_checksum :
  Ethers.isAddress "0x5AAeb6053F3E94C9b9A09f33669435E7Ef1BeAed" = false.
Proof. vm_compute. reflexivity. Qed.

Example isAddress_no_prefix :
  Ethers.isAddress "5aaeb6053f3e94c9b9a09f33669435e7ef1beaed" = true.
Proof. vm_compute. reflexivity. Qed.

Example isAddress_icap :
  Ethers.isAddress "XE65GB6LDNXYOFTX0NSV3FUWKOWIXAMJK36" = true.
Proof. vm_compute. reflexivity. Qed.

(** ** The did:key codec *)

(** C1: for a DID of the documented shape [did:key:z6Mk<suffix>] the
    function returns [null], where the documentation promises the
    suffix after [did:key:z]. *)
Theorem extractPublicKeyFromDID_z6Mk (suffix : string) :
  extractPublicKeyFromDID ("did:key:z6Mk" +:+ suffix) = None
  /\ extractPublicKeyFromDID ("did:key:z6Mk" +:+ suffix)
       <> Some ("6Mk" +:+ suffix).
Proof.
  rewrite extractPublicKeyFromDID_always_null. split; [reflexivity|discriminate].
Qed.

(** ** Validation never throws *)

Lemma isValidSolanaAddress_total (address : string) :
  isValidSolanaAddress address = Ok (Spec.base58_32_bytes address).
Proof.
  unfold isValidSolanaAddress, Spec.base58_32_bytes.
  destruct (Base58.decode address); reflexivity.
Qed.

Lemma isValidEvmAddress_total (address : string) :
  isValidEvmAddress address = Ok (Ethers.isAddress address).
Proof. reflexivity. Qed.

Lemma isValidSolanaDid_total (did : string) :
  isValidSolanaDid did = Ok (Spec.solana_did_ok did).
Proof.
  unfold isValidSolanaDid, didToWalletAddress, Spec.solana_did_ok.
  destruct (JS.startsWith did "did:pkh:solana:"); simpl; [|reflexivity].
  destruct (JS.split ":" did) as [|p0 [|p1 [|p2 [|p3 [|p4 [|p5 rest]]]]]];
    simpl; try reflexivity.
  rewrite !isValidSolanaAddress_total. simpl.
  destruct (Spec.base58_32_bytes p4) eqn:E; simpl.
  - rewrite isValidSolanaAddress_total, E. reflexivity.
  - reflexivity.
Qed.

Lemma isValidEvmDid_total (did : string) :
  isValidEvmDid did = Ok (Spec.evm_did_ok did).
Proof.
  unfold isValidEvmDid, didToAddress, Spec.evm_did_ok.
  destruct (JS.startsWith did "did:ethr:").
  - destruct (JS.split ":" did) as [|p0 [|p1 [|p2 [|p3 [|p4 rest]]]]];
      reflexivity.
  - destruct (JS.startsWith did "did:pkh:eip155:"); [|reflexivity].
    destruct (JS.split ":" did) as [|p0 [|p1 [|p2 [|p3 [|p4 [|p5 rest]]]]]];
      reflexivity.
Qed.

(** ** Provider detection *)

(** C3: [detectDidProvider] returns a provider for every string and
    never throws; the provider is the one the documented first-match
    rule list selects, with [key] as the fallback. *)
Theorem detectDidProvider_first_match (did : string) :
  detectDidProvider did = Ok (Spec.detect did).
Proof.
  unfold detectDidProvider, Spec.detect, Spec.detect_rules, Spec.first_match.
  destruct (JS.startsWith did "did:key:"); [reflexivity|].
  destruct (JS.startsWith did "did:pkh:solana:"); [reflexivity|].
  destruct (JS.startsWith did "did:ethr:"); [reflexivity|].
  destruct (JS.startsWith did "did:pkh:eip155:"); [reflexivity|].
  rewrite isValidSolanaAddress_total. cbn [bindR orb].
  destruct (Spec.base58_32_bytes did); [reflexivity|].
  rewrite isValidEvmAddress_total. cbn [bindR].
  destruct (Ethers.isAddress did); reflexivity.
Qed.

(** C8, as the code behaves: the first literal has 39 hexadecimal
    digits, so it is not an address and detection falls through to
    [key], like for "garbage". *)
Theorem detectDidProvider_raw_examples :
  detectDidProvider "0x742d35Cc6634C0532925a3b844Bc9e7595f0bEb" = Ok key
  /\ detectDidProvider "garbage" = Ok key.
Proof. split; vm_compute; reflexivity. Qed.

(** C8, as stated, fails on its first example. *)
Lemma detectDidProvider_raw_39_digits_not_evm :
  detectDidProvider "0x742d35Cc6634C0532925a3b844Bc9e7595f0bEb" <> Ok evm.
Proof. vm_compute. discriminate. Qed.

(** With one more digit the literal is an address and is detected. *)
Example detectDidProvider_raw_40_digits :
  String.length "742d35cc6634c0532925a3b844bc9e7595f0beb0" = 40
  /\ detectDidProvider "0x742d35cc6634c0532925a3b844bc9e7595f0beb0" = Ok evm.
Proof. split; vm_compute; reflexivity. Qed.

(** ** Credential resolution *)

Lemma truthy_ne (s : string) : JS.truthy s = true <-> s <> "".
Proof. destruct s; simpl; split; congruence. Qed.

Lemma or_else_read_or (env : gmap string string) (name fallback : string) :
  JS.or_else (env !! name) (env !! fallback) = Spec.read_or env name fallback.
Proof.
  unfold JS.or_else, Spec.read_or, JS.truthy_opt.
  destruct (env !! name) as [v|]; [|reflexivity].
  destruct (JS.truthy v); reflexivity.
Qed.

Lemma both_and_spec (did privateKey : option string) (valid : string -> Res bool)
    (ok : string -> bool) :
  (forall d, valid d = Ok (ok d)) ->
  both_and did privateKey valid =
  Ok (match did, privateKey with
      | Some d, Some k =>
          if JS.truthy d && JS.truthy k && ok d then Some (d, k) else None
      | _, _ => None
      end).
Proof.
  intros Hvalid. unfold both_and.
  destruct did as [d|]; [|reflexivity].
  destruct privateKey as [k|]; [|reflexivity].
  destruct (JS.truthy d && JS.truthy k); [|reflexivity].
  rewrite Hvalid. reflexivity.
Qed.

Lemma solana_branch_spec (env : gmap string string) :
  solana_branch env = Ok (Spec.branch env solana).
Proof.
  unfold solana_branch, Spec.branch, Spec.did_of, Spec.key_of.
  rewrite !or_else_read_or.
  rewrite (both_and_spec _ _ _ (Spec.did_ok solana)).
  - cbn [bindR].
    destruct (Spec.read_or env "AGENT_SOLANA_DID" "AGENT_DID") as [d|]; [|reflexivity].
    destruct (Spec.read_or env "AGENT_SOLANA_PRIVATE_KEY" "AGENT_PRIVATE_KEY")
      as [k|]; [|reflexivity].
    destruct (JS.truthy d && JS.truthy k && Spec.did_ok solana d); reflexivity.
  - intros d. unfold orR. rewrite isValidSolanaDid_total. cbn [bindR Spec.did_ok].
    destruct (Spec.solana_did_ok d); [reflexivity|].
    apply isValidSolanaAddress_total.
Qed.

Lemma evm_branch_spec (env : gmap string string) :
  evm_branch env = Ok (Spec.branch env evm).
Proof.
  unfold evm_branch, Spec.branch, Spec.did_of, Spec.key_of.
  rewrite !or_else_read_or.
  rewrite (both_and_spec _ _ _ (Spec.did_ok evm)).
  - cbn [bindR].
    destruct (Spec.read_or env "AGENT_EVM_DID" "AGENT_DID") as [d|]; [|reflexivity].
    destruct (Spec.read_or env "AGENT_EVM_PRIVATE_KEY" "AGENT_PRIVATE_KEY")
      as [k|]; [|reflexivity].
    destruct (JS.truthy d && JS.truthy k && Spec.did_ok evm d); reflexivity.
  - intros d. unfold orR. rewrite isValidEvmDid_total. cbn [bindR Spec.did_ok].
    destruct (Spec.evm_did_ok d); reflexivity.
Qed.

Lemma key_branch_spec (env : gmap string string) :
  key_branch env = Ok (Spec.branch env key).
Proof.
  unfold key_branch, Spec.branch, Spec.did_of, Spec.key_of.
  rewrite (both_and_spec _ _ _ (Spec.did_ok key)); [|reflexivity].
  cbn [bindR].
  destruct (env !! "AGENT_DID") as [d|]; [|reflexivity].
  destruct (env !! "AGENT_PRIVATE_KEY") as [k|]; [|reflexivity].
  destruct (JS.truthy d && JS.truthy k && Spec.did_ok key d); reflexivity.
Qed.

(** the test of the code is the one of the documentation *)
Lemma hint_allows_spec (hint : option DidProvider) (p : DidProvider) :
  hint_allows hint p = bool_decide (Spec.unset_or_matching hint p).
Proof.
  unfold Spec.unset_or_matching.
  destruct hint as [[| |]|], p; cbn [hint_allows DidProvider_eqb];
    symmetry;
    first [ apply bool_decide_eq_true; auto; fail
          | apply bool_decide_eq_false; intros [|]; congruence ].
Qed.

Lemma first_branch_cons (env : gmap string string) (hint : option DidProvider)
    (p : DidProvider) (rest : list DidProvider) :
  Spec.first_branch env hint (p :: rest)
  = match (if hint_allows hint p then Spec.branch env p else None) with
    | Some c => Some c
    | None => Spec.first_branch env hint rest
    end.
Proof.
  rewrite hint_allows_spec. cbn [Spec.first_branch].
  case_bool_decide as Hd; destruct (decide (Spec.unset_or_matching hint p));
    try contradiction; reflexivity.
Qed.

Lemma getCredentialsFromEnv_resolve (env : gmap string string)
    (hint : option DidProvider) :
  getCredentialsFromEnv env hint = Ok (Spec.resolve env hint).
Proof.
  unfold getCredentialsFromEnv, branch_then, Spec.resolve.
  rewrite !first_branch_cons. cbn [Spec.first_branch].
  rewrite solana_branch_spec, evm_branch_spec, key_branch_spec.
  destruct (hint_allows hint solana), (hint_allows hint evm),
    (hint_allows hint key); cbn [bindR];
    repeat match goal with
      | |- context [Spec.branch env ?p] => destruct (Spec.branch env p)
      end; reflexivity.
Qed.

Lemma solana_did_ok_truthy (did : string) :
  Spec.solana_did_ok did = true -> JS.truthy did = true.
Proof.
  unfold Spec.solana_did_ok. destruct did; [discriminate|reflexivity].
Qed.

Lemma first_branch_inv (env : gmap string string) (hint : option DidProvider)
    (order : list DidProvider) (c : Credentials) :
  Spec.first_branch env hint order = Some c ->
  exists p, In p order /\ hint_allows hint p = true /\ Spec.branch env p = Some c.
Proof.
  induction order as [|p rest IH]; [discriminate|]. rewrite first_branch_cons.
  destruct (hint_allows hint p) eqn:Hp.
  - destruct (Spec.branch env p) as [c'|] eqn:Hb.
    + intros [= <-]. exists p. simpl. auto.
    + intros Hrest. destruct (IH Hrest) as (q & Hq & Hrest'). exists q.
      simpl. auto.
  - intros Hrest. destruct (IH Hrest) as (q & Hq & Hrest'). exists q.
    simpl. auto.
Qed.

Lemma branch_inv (env : gmap string string) (p : DidProvider) (c : Credentials) :
  Spec.branch env p = Some c ->
  cred_provider c = p
  /\ Spec.did_of env p = Some (cred_did c)
  /\ Spec.key_of env p = Some (cred_privateKey c)
  /\ JS.truthy (cred_privateKey c) = true
  /\ Spec.did_ok p (cred_did c) = true.
Proof.
  unfold Spec.branch.
  destruct (Spec.did_of env p) as [d|]; [|discriminate].
  destruct (Spec.key_of env p) as [k|]; [|discriminate].
  destruct (JS.truthy d) eqn:Hd, (JS.truthy k) eqn:Hk,
    (Spec.did_ok p d) eqn:Hok; simpl; try discriminate.
  intros [= <-]. simpl. auto.
Qed.

Lemma read_or_same (env env' : gmap string string) (name fallback : string) :
  env !! name = env' !! name ->
  env !! fallback = env' !! fallback ->
  Spec.read_or env name fallback = Spec.read_or env' name fallback.
Proof. unfold Spec.read_or. intros -> ->. reflexivity. Qed.

Lemma read_or_truthy (env env' : gmap string string) (name fallback : string) :
  JS.truthy_opt (env !! name) = JS.truthy_opt (env' !! name) ->
  JS.truthy_opt (env !! fallback) = JS.truthy_opt (env' !! fallback) ->
  JS.truthy_opt (Spec.read_or env name fallback)
  = JS.truthy_opt (Spec.read_or env' name fallback).
Proof.
  unfold Spec.read_or, JS.truthy_opt.
  destruct (env !! name) as [v|], (env' !! name) as [v'|]; simpl;
    try (destruct (JS.truthy v) eqn:Hv); try (destruct (JS.truthy v') eqn:Hv');
    simpl; try rewrite Hv; try rewrite Hv'; congruence.
Qed.

Lemma branch_same_up_to_key_values (env env' : gmap string string)
    (p : DidProvider) :
  Spec.same_up_to_key_values env env' ->
  Spec.did_and_provider (Spec.branch env p)
  = Spec.did_and_provider (Spec.branch env' p).
Proof.
  intros [Hdid Hkey].
  assert (Hd : Spec.did_of env p = Spec.did_of env' p).
  { destruct p; simpl; [apply Hdid | apply read_or_same; apply Hdid
                       | apply read_or_same; apply Hdid]; simpl; auto. }
  assert (Hk : JS.truthy_opt (Spec.key_of env p)
               = JS.truthy_opt (Spec.key_of env' p)).
  { destruct p; simpl; [apply Hkey | apply read_or_truthy; apply Hkey
                       | apply read_or_truthy; apply Hkey]; simpl; auto. }
  unfold Spec.branch. rewrite <- Hd.
  destruct (Spec.did_of env p) as [d|]; [|reflexivity].
  destruct (Spec.key_of env p) as [k|], (Spec.key_of env' p) as [k'|];
    simpl in Hk; try reflexivity.
  - rewrite <- Hk.
    destruct (JS.truthy d && JS.truthy k && Spec.did_ok p d); reflexivity.
  - rewrite Hk, andb_false_r. reflexivity.
  - rewrite <- Hk, andb_false_r. reflexivity.
Qed.

Lemma first_branch_same_up_to_key_values (env env' : gmap string string)
    (hint : option DidProvider) (order : list DidProvider) :
  Spec.same_up_to_key_values env env' ->
  Spec.did_and_provider (Spec.first_branch env hint order)
  = Spec.did_and_provider (Spec.first_branch env' hint order).
Proof.
  intros Hsame. induction order as [|p rest IH]; [reflexivity|].
  rewrite !first_branch_cons.
  destruct (hint_allows hint p); [|exact IH].
  pose proof (branch_same_up_to_key_values env env' p Hsame) as Hb.
  destruct (Spec.branch env p), (Spec.branch env' p); simpl in Hb;
    try discriminate; [exact Hb | exact IH].
Qed.

(** C9: a returned credential carries a DID that passed its provider's
    DID check and, as private key, the non-empty value of the
    provider's key variable as it stands; changing the values of the key
    variables to any other non-empty strings changes neither whether a
    credential is returned nor its DID and provider; and there is a
    returned credential whose private key the provider's signer then
    rejects. *)
Theorem getCredentialsFromEnv_validates_did_only `{Crypto}
    (env : gmap string string) (hint : option DidProvider) :
  (forall c, getCredentialsFromEnv env hint = Ok (Some c) ->
             Spec.did_ok (cred_provider c) (cred_did c) = true
             /\ Spec.key_of env (cred_provider c) = Some (cred_privateKey c)
             /\ cred_privateKey c <> "")
  /\ (forall env', Spec.same_up_to_key_values env env' ->
        exists r r', getCredentialsFromEnv env hint = Ok r
                     /\ getCredentialsFromEnv env' hint = Ok r'
                     /\ Spec.did_and_provider r = Spec.did_and_provider r')
  /\ (exists env0 c0,
        getCredentialsFromEnv env0 None = Ok (Some c0)
        /\ forall message,
            sign_with (cred_provider c0) message (cred_privateKey c0)
            = Throw "Invalid private key length. Expected 64 bytes for Solana keypair.").
Proof.
  split; [|split].
  - intros c Hc. rewrite getCredentialsFromEnv_resolve in Hc.
    injection Hc as Hc. apply first_branch_inv in Hc.
    destruct Hc as (p & _ & _ & Hb). apply branch_inv in Hb.
    destruct Hb as (<- & _ & Hk & Ht & Hok).
    split; [exact Hok|]. split; [exact Hk|]. apply truthy_ne, Ht.
  - intros env' Hsame. exists (Spec.resolve env hint), (Spec.resolve env' hint).
    rewrite !getCredentialsFromEnv_resolve.
    split; [reflexivity|]. split; [reflexivity|].
    apply first_branch_same_up_to_key_values, Hsame.
  - exists {[ "AGENT_DID" := "11111111111111111111111111111111";
             "AGENT_PRIVATE_KEY" := "x" ]}.
    exists {| cred_did := "11111111111111111111111111111111";
              cred_privateKey := "x"; cred_provider := solana |}.
    split; [vm_compute; reflexivity|].
    intros message. reflexivity.
Qed.

Lemma getCredentialsFromEnv_validates_did_only_witness :
  (Spec.did_ok evm "0x742d35cc6634c0532925a3b844bc9e7595f0beb0" = true
   /\ Spec.key_of sample_evm_env evm = Some "not a key"
   /\ "not a key" <> "")
  /\ exists r r',
      getCredentialsFromEnv sample_evm_env (Some evm) = Ok r
      /\ getCredentialsFromEnv (<["AGENT_PRIVATE_KEY" := "0x01"]> sample_evm_env)
           (Some evm) = Ok r'
      /\ Spec.did_and_provider r = Spec.did_and_provider r'.
Proof.
  pose proof (@getCredentialsFromEnv_validates_did_only test_crypto
                sample_evm_env (Some evm)) as (Hvalid & Hsame & _).
  split.
  - apply (Hvalid {| cred_did := "0x742d35cc6634c0532925a3b844bc9e7595f0beb0";
                     cred_privateKey := "not a key"; cred_provider := evm |}).
    vm_compute. reflexivity.
  - apply Hsame.
    split; intros name Hin; simpl in Hin;
      repeat (destruct Hin as [<-|Hin]; [vm_compute; reflexivity|]);
      destruct Hin.
Defined.

(** ** Splitting on a separator *)

Lemma split_not_nil (sep : ascii) (s : string) : JS.split sep s <> [].
Proof.
  destruct s as [|c s]; simpl; [discriminate|].
  destruct (Ascii.eqb c sep); [discriminate|].
  destruct (JS.split sep s); discriminate.
Qed.

Lemma split_no_sep (sep : ascii) (s : string) :
  JS.mem sep s = false -> JS.split sep s = [s].
Proof.
  induction s as [|c s IH]; simpl; [reflexivity|].
  destruct (Ascii.eqb c sep); simpl; [discriminate|].
  intros Hs. rewrite (IH Hs). reflexivity.
Qed.

Lemma split_app_sep (sep : ascii) (a b : string) :
  JS.mem sep a = false ->
  JS.split sep (a +:+ String sep b) = a :: JS.split sep b.
Proof.
  induction a as [|c a IH]; simpl.
  - intros _. rewrite Ascii.eqb_refl. reflexivity.
  - destruct (Ascii.eqb c sep); simpl; [discriminate|].
    intros Ha. rewrite (IH Ha). reflexivity.
Qed.

Lemma mem_app (c : ascii) (a b : string) :
  JS.mem c (a +:+ b) = JS.mem c a || JS.mem c b.
Proof.
  induction a as [|d a IH]; simpl; [reflexivity|].
  rewrite IH, orb_assoc. reflexivity.
Qed.

(** ** Lower-casing *)

Lemma lower_char_idem (c : ascii) :
  JS.lower_char (JS.lower_char c) = JS.lower_char c.
Proof. destruct c as [[] [] [] [] [] [] [] []]; reflexivity. Qed.

Lemma toLowerCase_idem (s : string) :
  JS.toLowerCase (JS.toLowerCase s) = JS.toLowerCase s.
Proof.
  induction s as [|c s IH]; simpl; [reflexivity|].
  rewrite lower_char_idem, IH. reflexivity.
Qed.

Lemma toLowerCase_app (a b : string) :
  JS.toLowerCase (a +:+ b) = JS.toLowerCase a +:+ JS.toLowerCase b.
Proof.
  induction a as [|c a IH]; simpl; [reflexivity|]. rewrite IH. reflexivity.
Qed.

(** ** Shape of what the address check accepts *)

Lemma is_hex_not_colon (c : ascii) :
  Ethers.is_hex c = true -> Ascii.eqb c ":" = false.
Proof. destruct c as [[] [] [] [] [] [] [] []]; vm_compute; congruence. Qed.

Lemma all_hex_no_colon (s : string) :
  Ethers.all_chars Ethers.is_hex s = true -> JS.mem ":" s = false.
Proof.
  induction s as [|c s IH]; simpl; [reflexivity|].
  intros Hs. apply andb_true_iff in Hs. destruct Hs as [Hc Hs].
  rewrite (is_hex_not_colon c Hc), (IH Hs). reflexivity.
Qed.

Lemma isAddress_0x_inv (body : string) :
  Ethers.isAddress ("0x" +:+ body) = true ->
  String.length body = 40 /\ Ethers.all_chars Ethers.is_hex body = true.
Proof.
  unfold Ethers.isAddress, Ethers.match_hex40, Ethers.match_icap. simpl.
  destruct (String.length body =? 40)%nat eqn:Hlen; simpl; [|discriminate].
  destruct (Ethers.all_chars Ethers.is_hex body); [|discriminate].
  intros _. split; [apply Nat.eqb_eq, Hlen | reflexivity].
Qed.

Lemma normalizeAddress_shape (address : string) :
  exists body, normalizeAddress address = "0x" +:+ body
               /\ JS.toLowerCase body = body.
Proof.
  unfold normalizeAddress.
  destruct (JS.startsWith (JS.toLowerCase address) "0x") eqn:E.
  - destruct (startsWith_inv _ _ E) as [t Ht]. exists t. split; [exact Ht|].
    pose proof (toLowerCase_idem address) as Hidem.
    rewrite Ht in Hidem. simpl in Hidem. congruence.
  - exists (JS.toLowerCase address). split; [reflexivity|].
    apply toLowerCase_idem.
Qed.

Lemma normalizeAddress_lower (address : string) :
  JS.toLowerCase (normalizeAddress address) = normalizeAddress address.
Proof.
  destruct (normalizeAddress_shape address) as (body & -> & Hbody).
  simpl. rewrite Hbody. reflexivity.
Qed.

Lemma normalizeAddress_no_colon (address : string) :
  Ethers.isAddress (normalizeAddress address) = true ->
  JS.mem ":" (normalizeAddress address) = false.
Proof.
  destruct (normalizeAddress_shape address) as (body & -> & _).
  intros Hvalid. apply isAddress_0x_inv in Hvalid. destruct Hvalid as [_ Hhex].
  simpl. apply all_hex_no_colon, Hhex.
Qed.

(** An address written with 40 hexadecimal digits, with or without the
    0x prefix and in any capitalisation, is accepted once normalised. *)

Lemma toLowerCase_length (s : string) :
  String.length (JS.toLowerCase s) = String.length s.
Proof. induction s as [|c s IH]; simpl; congruence. Qed.

Lemma lower_char_hex (c : ascii) :
  Ethers.is_hex c = true ->
  Ethers.is_hex (JS.lower_char c) = true
  /\ Ascii.eqb (JS.lower_char c) "x" = false.
Proof. destruct c as [[] [] [] [] [] [] [] []]; vm_compute; auto. Qed.

Lemma lower_char_not_capital (c : ascii) :
  Ethers.in_range 65 70 (JS.lower_char c) = false.
Proof. destruct c as [[] [] [] [] [] [] [] []]; reflexivity. Qed.

Lemma all_hex_lower (s : string) :
  Ethers.all_chars Ethers.is_hex s = true ->
  Ethers.all_chars Ethers.is_hex (JS.toLowerCase s) = true.
Proof.
  induction s as [|c s IH]; simpl; [reflexivity|].
  intros Hs. apply andb_true_iff in Hs. destruct Hs as [Hc Hs].
  rewrite (proj1 (lower_char_hex c Hc)), (IH Hs). reflexivity.
Qed.

Lemma no_capital_lower (s : string) :
  Ethers.any_char (Ethers.in_range 65 70) (JS.toLowerCase s) = false.
Proof.
  induction s as [|c s IH]; simpl; [reflexivity|].
  rewrite lower_char_not_capital, IH. reflexivity.
Qed.

Lemma isAddress_0x_lower (body : string) :
  String.length body = 40 ->
  Ethers.all_chars Ethers.is_hex body = true ->
  Ethers.isAddress ("0x" +:+ JS.toLowerCase body) = true.
Proof.
  intros Hlen Hhex.
  unfold Ethers.isAddress, Ethers.match_hex40, Ethers.match_mixed_case.
  cbn [JS.startsWith String.append Ascii.eqb Bool.eqb JS.slice].
  rewrite toLowerCase_length, Hlen, (all_hex_lower _ Hhex).
  cbn [Nat.eqb andb Ethers.any_char].
  rewrite no_capital_lower.
  replace (Ethers.in_range 65 70 "0") with false by reflexivity.
  replace (Ethers.in_range 65 70 "x") with false by reflexivity.
  reflexivity.
Qed.

Lemma hex40_address_accepted (address : string) :
  Ethers.match_hex40 address = true ->
  Ethers.isAddress (normalizeAddress address) = true.
Proof.
  unfold Ethers.match_hex40, normalizeAddress.
  destruct (JS.startsWith address "0x") eqn:Hprefix.
  - destruct (startsWith_inv _ _ Hprefix) as [body ->].
    cbn [JS.slice String.append]. intros Hbody.
    apply andb_true_iff in Hbody. destruct Hbody as [Hlen Hhex].
    apply Nat.eqb_eq in Hlen.
    cbn [JS.toLowerCase String.append].
    replace (JS.lower_char "0") with "0"%char by reflexivity.
    replace (JS.lower_char "x") with "x"%char by reflexivity.
    cbn [JS.startsWith Ascii.eqb Bool.eqb].
    apply (isAddress_0x_lower body Hlen Hhex).
  - intros Hbody. apply andb_true_iff in Hbody. destruct Hbody as [Hlen Hhex].
    apply Nat.eqb_eq in Hlen.
    assert (Hnot : JS.startsWith (JS.toLowerCase address) "0x" = false).
    { destruct address as [|c0 [|c1 rest]]; try discriminate.
      cbn [Ethers.all_chars] in Hhex.
      apply andb_true_iff in Hhex. destruct Hhex as [_ Hhex].
      apply andb_true_iff in Hhex. destruct Hhex as [Hc1 _].
      cbn [JS.toLowerCase JS.startsWith].
      rewrite (proj2 (lower_char_hex c1 Hc1)).
      destruct (Ascii.eqb (JS.lower_char c0) "0"); reflexivity. }
    rewrite Hnot. apply (isAddress_0x_lower address Hlen Hhex).
Qed.

(** ** Numerals contain no separator *)

Lemma hex_digit_not_colon (d : N) : Ascii.eqb (hex_digit d) ":" = false.
Proof.
  unfold hex_digit. generalize (N.to_nat d). intros n.
  do 16 (destruct n as [|n]; [reflexivity|]). reflexivity.
Qed.

Lemma digits_string_no_colon (radix n : N) :
  JS.mem ":" (Number.digits_string radix n) = false.
Proof.
  unfold Number.digits_string.
  generalize (Radix.to_digits radix n). intros ds.
  destruct ds as [|d ds]; [reflexivity|].
  generalize (d :: ds). clear. intros ds.
  induction ds as [|d ds IH]; simpl; [reflexivity|].
  rewrite hex_digit_not_colon, IH. reflexivity.
Qed.

Lemma toString_no_colon (z : Z) (radix : N) :
  JS.mem ":" (Number.toString z radix) = false.
Proof.
  unfold Number.toString. destruct (z <? 0)%Z.
  - rewrite mem_app, digits_string_no_colon. reflexivity.
  - apply digits_string_no_colon.
Qed.

(** ** did:ethr round trip *)

Lemma didToAddress_ethr3 (address : string) :
  JS.mem ":" address = false ->
  didToAddress ("did:ethr:" +:+ address) = Ok (JS.toLowerCase address)
  /\ length (JS.split ":" ("did:ethr:" +:+ address)) = 3%nat.
Proof.
  intros Ha. unfold didToAddress. rewrite startsWith_app.
  change ("did:ethr:" +:+ address)
    with ("did" +:+ String ":" ("ethr" +:+ String ":" address)).
  rewrite !split_app_sep by reflexivity.
  rewrite (split_no_sep _ _ Ha). split; reflexivity.
Qed.

Lemma didToAddress_ethr4 (segment address : string) :
  JS.mem ":" segment = false ->
  JS.mem ":" address = false ->
  didToAddress ("did:ethr:" +:+ segment +:+ ":" +:+ address)
  = Ok (JS.toLowerCase address)
  /\ length (JS.split ":" ("did:ethr:" +:+ segment +:+ ":" +:+ address)) = 4%nat.
Proof.
  intros Hs Ha. unfold didToAddress. rewrite startsWith_app.
  change ("did:ethr:" +:+ segment +:+ ":" +:+ address)
    with ("did" +:+ String ":" ("ethr" +:+ String ":"
            (segment +:+ String ":" address))).
  rewrite !split_app_sep by (reflexivity || assumption).
  rewrite (split_no_sep _ _ Ha). split; reflexivity.
Qed.

Lemma hexChainId_no_colon (c : ChainId) :
  (forall s, c = ChainString s -> JS.mem ":" s = false) ->
  JS.mem ":" (hexChainId c) = false.
Proof.
  destruct c as [n|s]; simpl; intros Hs.
  - apply toString_no_colon.
  - apply Hs. reflexivity.
Qed.

(** C5, as the code behaves: for an address that [addressToEthrDid]
    accepts (its lower-casing, 0x-prefixed when it is not already, is a
    valid address), with a network name and a string chain id that
    contain no colon, the DID has 3 segments when neither an explicit
    network nor an explicit chain id is used and 4 otherwise, and
    [didToAddress] of it is the lower-cased, 0x-prefixed address. *)
Theorem didToAddress_addressToEthrDid (address : string)
    (chainId : option ChainId) (network : option string) :
  Ethers.isAddress (normalizeAddress address) = true ->
  (forall net, network = Some net -> JS.mem ":" net = false) ->
  (forall s, chainId = Some (ChainString s) -> JS.mem ":" s = false) ->
  exists did,
    addressToEthrDid address chainId network = Ok did
    /\ didToAddress did = Ok (normalizeAddress address)
    /\ length (JS.split ":" did)
       = match explicit_network network, explicit_chain chainId with
         | None, None => 3%nat
         | _, _ => 4%nat
         end.
Proof.
  intros Hvalid Hnet Hchain.
  pose proof (normalizeAddress_no_colon _ Hvalid) as Hcolon.
  pose proof (normalizeAddress_lower address) as Hlower.
  unfold addressToEthrDid. rewrite Hvalid. cbn [negb].
  destruct (explicit_network network) as [net|] eqn:En.
  - assert (Hn : JS.mem ":" net = false).
    { apply Hnet. unfold explicit_network in En.
      destruct network as [net'|]; [|discriminate].
      destruct (JS.truthy net' && negb (String.eqb net' "mainnet"));
        congruence. }
    eexists. split; [reflexivity|].
    destruct (didToAddress_ethr4 net _ Hn Hcolon) as [-> ->].
    rewrite Hlower. split; reflexivity.
  - destruct (explicit_chain chainId) as [c|] eqn:Ec.
    + assert (Hc : JS.mem ":" (hexChainId c) = false).
      { apply hexChainId_no_colon. intros s ->. apply Hchain.
        unfold explicit_chain in Ec.
        destruct chainId as [[n|s']|]; [| |discriminate].
        - destruct (negb (n =? 0)%Z && negb (n =? 1)%Z); congruence.
        - destruct (JS.truthy s' && negb (String.eqb s' "0x1")); congruence. }
      eexists. split; [reflexivity|].
      destruct (didToAddress_ethr4 _ _ Hc Hcolon) as [-> ->].
      rewrite Hlower. split; reflexivity.
    + eexists. split; [reflexivity|].
      destruct (didToAddress_ethr3 _ Hcolon) as [-> ->].
      rewrite Hlower. split; reflexivity.
Qed.

Lemma didToAddress_addressToEthrDid_witness :
  exists did,
    addressToEthrDid "742D35Cc6634C0532925a3b844Bc9e7595f0bEb0"
      (Some (ChainNumber 137)) None = Ok did
    /\ didToAddress did = Ok "0x742d35cc6634c0532925a3b844bc9e7595f0beb0"
    /\ length (JS.split ":" did) = 4%nat.
Proof.
  apply (didToAddress_addressToEthrDid
           "742D35Cc6634C0532925a3b844Bc9e7595f0bEb0"
           (Some (ChainNumber 137)) None).
  - vm_compute. reflexivity.
  - intros net Hnet. discriminate.
  - intros s Hs. discriminate.
Defined.

(** C5, as stated, fails for a network name with a colon: the DID then
    has 5 segments and [didToAddress] throws. *)
Lemma didToAddress_addressToEthrDid_colon_network :
  isValidEvmAddress "0x742d35cc6634c0532925a3b844bc9e7595f0beb0" = Ok true
  /\ addressToEthrDid "0x742d35cc6634c0532925a3b844bc9e7595f0beb0" None
       (Some "eip155:137")
     = Ok "did:ethr:eip155:137:0x742d35cc6634c0532925a3b844bc9e7595f0beb0"
  /\ didToAddress "did:ethr:eip155:137:0x742d35cc6634c0532925a3b844bc9e7595f0beb0"
     = Throw "Invalid did:ethr format"
  /\ didToAddress "did:ethr:eip155:137:0x742d35cc6634c0532925a3b844bc9e7595f0beb0"
     <> Ok "0x742d35cc6634c0532925a3b844bc9e7595f0beb0".
Proof. repeat split; try (vm_compute; reflexivity). vm_compute. discriminate. Qed.

Example addressToEthrDid_rejects_icap :
  isValidEvmAddress "XE65GB6LDNXYOFTX0NSV3FUWKOWIXAMJK36" = Ok true
  /\ addressToEthrDid "XE65GB6LDNXYOFTX0NSV3FUWKOWIXAMJK36" None None
     = Throw "Invalid Ethereum address".
Proof. split; vm_compute; reflexivity. Qed.

(** ** Chain ids *)

Lemma parseInt_letter_first (c : ascii) (rest : string) :
  Ethers.is_upper c || Ethers.is_lower c = true ->
  Number.parseInt (String c rest) 10 = NaN.
Proof.
  destruct c as [[] [] [] [] [] [] [] []]; intros Hc;
    try discriminate Hc; reflexivity.
Qed.

Lemma pkh_prefix_split (did : string) :
  JS.startsWith did "did:pkh:eip155:" = true ->
  JS.startsWith did "did:ethr:" = false
  /\ exists rest, JS.split ":" did = "did" :: "pkh" :: "eip155" :: JS.split ":" rest.
Proof.
  intros Hp. apply startsWith_inv in Hp. destruct Hp as [rest ->].
  split; [reflexivity|]. exists rest.
  change ("did:pkh:eip155:" +:+ rest)
    with ("did" +:+ String ":" ("pkh" +:+ String ":"
            ("eip155" +:+ String ":" rest))).
  rewrite !split_app_sep by reflexivity. reflexivity.
Qed.

(** ** Solana signing *)

Lemma nacl_sign_detached_64 `{Crypto} (msg secretKey : list byte) :
  length secretKey = 64%nat ->
  exists signature,
    nacl_sign_detached msg secretKey = Ok signature
    /\ length signature = 64%nat.
Proof.
  intros Hlen. unfold nacl_sign_detached. rewrite Hlen, Nat.eqb_refl.
  cbn [negb]. eexists. split; [reflexivity|].
  rewrite length_take, length_app, repeat_length. lia.
Qed.

(** C7: for a private key that is a base58 string, [signSolanaMessage]
    throws the invalid-key-length error exactly when the decoded key is
    not 64 bytes long; when it is, the result is the base58 encoding of
    the 64-byte detached signature of the UTF-8 bytes of the message
    under the decoded key. *)
Theorem signSolanaMessage_key_length `{Crypto}
    (message privateKeyBase58 : string) (privateKeyBytes : list byte) :
  Base58.decode privateKeyBase58 = Ok privateKeyBytes ->
  (signSolanaMessage message privateKeyBase58
   = Throw "Invalid private key length. Expected 64 bytes for Solana keypair."
   <-> length privateKeyBytes <> 64%nat)
  /\ (length privateKeyBytes = 64%nat ->
      exists signature,
        nacl_sign_detached (utf8_encode message) privateKeyBytes = Ok signature
        /\ length signature = 64%nat
        /\ signSolanaMessage message privateKeyBase58
           = Ok (Base58.encode signature)).
Proof.
  intros Hdecode. unfold signSolanaMessage. rewrite Hdecode. cbn [bindR].
  destruct (Nat.eqb_spec (length privateKeyBytes) 64) as [Hlen|Hlen];
    cbn [negb].
  - destruct (nacl_sign_detached_64 (utf8_encode message) _ Hlen)
      as (signature & Hsig & Hsize).
    rewrite Hsig. cbn [bindR]. split.
    + split; [discriminate | contradiction].
    + intros _. exists signature. auto.
  - split; [tauto | contradiction].
Qed.

Lemma signSolanaMessage_key_length_witness :
  (@signSolanaMessage test_crypto "hello"
     "1111111111111111111111111111111111111111111111111111111111111111"
   = Throw "Invalid private key length. Expected 64 bytes for Solana keypair."
   <-> length (repeat x00 64) <> 64%nat)
  /\ (length (repeat x00 64) = 64%nat ->
      exists signature,
        @nacl_sign_detached test_crypto (utf8_encode "hello") (repeat x00 64)
        = Ok signature
        /\ length signature = 64%nat
        /\ @signSolanaMessage test_crypto "hello"
             "1111111111111111111111111111111111111111111111111111111111111111"
           = Ok (Base58.encode signature)).
Proof.
  apply (@signSolanaMessage_key_length test_crypto "hello"
           "1111111111111111111111111111111111111111111111111111111111111111"
           (repeat x00 64)).
  vm_compute. reflexivity.
Defined.

Example signSolanaMessage_short_key :
  @signSolanaMessage test_crypto "hello" "11111111111111111111111111111111"
  = Throw "Invalid private key length. Expected 64 bytes for Solana keypair.".
Proof. vm_compute. reflexivity. Qed.

Example signSolanaMessage_not_base58 :
  @signSolanaMessage test_crypto "hello" "0OIl"
  = Throw "Non-base58 character".
Proof. vm_compute. reflexivity. Qed.

(** ** Verification *)

Lemma try_catch_log_false (body : Res bool) (label : string) :
  exists b,
    snd (try_catch_log body (fun error => ([label +:+ error], Ok false))) = Ok b.
Proof. destruct body as [b|e]; simpl; eauto. Qed.

Lemma try_catch_log_throw (body : Res bool) (label e : string) :
  body = Throw e ->
  Spec.logged_false
    (try_catch_log body (fun error => ([label +:+ error], Ok false))).
Proof. intros ->. simpl. eexists. reflexivity. Qed.

Lemma verifySolanaSignature_try_malformed `{Crypto}
    (message signatureBase58 publicKeyBase58 : string) :
  Spec.solana_material_malformed signatureBase58 publicKeyBase58 ->
  exists e,
    verifySolanaSignature_try message signatureBase58 publicKeyBase58 = Throw e.
Proof.
  unfold verifySolanaSignature_try.
  intros [[e Hs] | [[e Hp] | [(bytes & Hp & Hlen) | (bytes & Hs & Hlen)]]].
  - rewrite Hs. simpl. eauto.
  - rewrite Hp. destruct (Base58.decode signatureBase58); simpl; eauto.
  - rewrite Hp. destruct (Base58.decode signatureBase58); simpl; eauto.
    apply Nat.eqb_neq in Hlen. rewrite Hlen. simpl. eauto.
  - rewrite Hs. simpl.
    destruct (Base58.decode publicKeyBase58) as [pk|e]; simpl; eauto.
    destruct (length pk =? 32)%nat; simpl; eauto.
    apply Nat.eqb_neq in Hlen. rewrite Hlen. simpl. eauto.
Qed.

(** C6: each of the three verify operations returns a boolean for all
    inputs and whatever the signature primitive does, also when that
    primitive throws.  A signature or key that does not decode or has
    the wrong length (Solana), a failed recovery (EVM) and a primitive
    that rejects its input by throwing (Ed25519) give [false] together
    with one logged diagnostic. *)
Theorem verify_never_throws `{Crypto}
    (message signature publicKeyOrAddress : string) :
  (exists b, snd (verifySignature message signature publicKeyOrAddress) = Ok b)
  /\ (exists b,
        snd (verifySolanaSignature message signature publicKeyOrAddress) = Ok b)
  /\ (exists b,
        snd (verifyEvmSignature message signature publicKeyOrAddress) = Ok b)
  /\ (Spec.solana_material_malformed signature publicKeyOrAddress ->
      Spec.logged_false
        (verifySolanaSignature message signature publicKeyOrAddress))
  /\ (forall e, ethers_verifyMessage message signature = Throw e ->
                Spec.logged_false
                  (verifyEvmSignature message signature publicKeyOrAddress))
  /\ (forall e,
        ed25519_verifyAsync (hexToBytes signature) (utf8_encode message)
          (hexToBytes publicKeyOrAddress) = Throw e ->
        Spec.logged_false
          (verifySignature message signature publicKeyOrAddress)).
Proof.
  repeat split.
  - apply try_catch_log_false.
  - apply try_catch_log_false.
  - apply try_catch_log_false.
  - intros Hbad.
    destruct (verifySolanaSignature_try_malformed message _ _ Hbad) as [e He].
    apply (try_catch_log_throw _ _ e He).
  - intros e He. apply (try_catch_log_throw _ _ e).
    unfold verifyEvmSignature_try. rewrite He. reflexivity.
  - intros e He. apply (try_catch_log_throw _ _ e). exact He.
Qed.

Lemma verify_never_throws_witness :
  Spec.logged_false (@verifySolanaSignature test_crypto "hello" "0" "0")
  /\ Spec.logged_false (@verifyEvmSignature test_crypto "hello" "0" "0")
  /\ Spec.logged_false (@verifySignature test_crypto "hello" "0" "0").
Proof.
  pose proof (@verify_never_throws test_crypto "hello" "0" "0")
    as (_ & _ & _ & Hsolana & Hevm & Hkey).
  split; [|split].
  - apply Hsolana. left. eexists. vm_compute. reflexivity.
  - apply (Hevm "invalid signature"). vm_compute. reflexivity.
  - apply (Hkey "signature of length 64 expected"). vm_compute. reflexivity.
Defined.

(** ** Nonces *)

Lemma mem_string_of_list_In (c : ascii) (l : list ascii) :
  In c l -> JS.mem c (string_of_list_ascii l) = true.
Proof.
  induction l as [|d l IH]; simpl; [contradiction|].
  intros [->|Hin].
  - rewrite Ascii.eqb_refl. reflexivity.
  - rewrite (IH Hin). apply orb_true_r.
Qed.

Lemma mem_string_of_list_none (c : ascii) (l : list ascii) :
  (forall d, In d l -> Ascii.eqb d c = false) ->
  JS.mem c (string_of_list_ascii l) = false.
Proof.
  induction l as [|d l IH]; simpl; [reflexivity|].
  intros Hall. rewrite (Hall d) by auto. rewrite IH by auto. reflexivity.
Qed.

Lemma base58_digit_char_not_pad (d : N) :
  Ascii.eqb (Base58.digit_char d) "=" = false.
Proof.
  unfold Base58.digit_char. generalize (N.to_nat d). intros n.
  do 58 (destruct n as [|n]; [reflexivity|]). reflexivity.
Qed.

Lemma base58_encode_no_pad (bytes : list byte) :
  JS.mem "=" (Base58.encode bytes) = false.
Proof.
  unfold Base58.encode. apply mem_string_of_list_none.
  intros d Hd. apply in_app_or in Hd. destruct Hd as [Hd|Hd].
  - apply repeat_spec in Hd. subst d. reflexivity.
  - apply in_map_iff in Hd. destruct Hd as (n & <- & _).
    apply base58_digit_char_not_pad.
Qed.

Lemma base64_encode_32_pad (entropy : nat -> byte) :
  JS.mem "=" (Base64.encode (random_bytes entropy 32)) = true.
Proof.
  unfold Base64.encode. apply mem_string_of_list_In.
  unfold random_bytes. cbn [seq map Base64.encode_chars].
  repeat (apply in_or_app; right). simpl. auto.
Qed.

Lemma base64_nonce_is_not_base58 (entropy : nat -> byte) :
  generateNonce entropy <> generateSolanaNonce entropy.
Proof.
  unfold generateNonce, generateSolanaNonce. intros Heq.
  pose proof (base64_encode_32_pad entropy) as Hpad.
  rewrite Heq, base58_encode_no_pad in Hpad. discriminate.
Qed.

(** The callback of the first listing draws the nonce by provider. *)
Lemma McpTools_nonce_by_provider `{Crypto} (rt : Runtime) (args : ToolArgs)
    (payload : AuthPayload) :
  McpTools.generate_auth_payload_try rt args = Ok payload ->
  payload_nonce payload
  = match payload_provider payload with
    | solana => Base58.encode (random_bytes (rt_entropy rt) 32)
    | evm | key => Base64.encode (random_bytes (rt_entropy rt) 32)
    end.
Proof.
  unfold McpTools.generate_auth_payload_try.
  destruct (McpTools.resolve rt args) as [[[did privateKey] provider]|e];
    cbn [bindR]; [|discriminate].
  destruct (match provider with
            | Some p => Ok p
            | None => detectDidProvider did
            end) as [p|e]; cbn [bindR]; [|discriminate].
  destruct (sign_with p _ privateKey) as [signature|e]; cbn [bindR];
    [|discriminate].
  intros [= <-]. destruct p; reflexivity.
Qed.

(** C2, on the callback that reads the credential from the environment
    only: the nonce of every payload is the base64 encoding of the 32
    random bytes, whatever the provider; for a Solana credential this is
    not the base58 encoding that the provider convention, and the other
    callback, use. *)
Theorem McpToolsEnv_nonce_always_base64 `{Crypto} (rt : Runtime)
    (hint : option DidProvider) (payload : AuthPayload) :
  McpToolsEnv.generate_auth_payload_try rt hint = Ok payload ->
  payload_nonce payload = Base64.encode (random_bytes (rt_entropy rt) 32)
  /\ payload_nonce payload <> generateSolanaNonce (rt_entropy rt).
Proof.
  unfold McpToolsEnv.generate_auth_payload_try.
  destruct (getCredentialsFromEnv (rt_env rt) hint) as [[c|]|e];
    cbn [bindR]; try discriminate.
  destruct (sign_with (cred_provider c) _ (cred_privateKey c))
    as [signature|e]; cbn [bindR]; [|discriminate].
  intros [= <-]. cbn [payload_nonce].
  split; [reflexivity|]. apply base64_nonce_is_not_base58.
Qed.

Lemma McpToolsEnv_nonce_always_base64_witness :
  payload_nonce sample_solana_payload
  = Base64.encode (random_bytes (rt_entropy sample_solana_runtime) 32)
  /\ payload_nonce sample_solana_payload
     <> generateSolanaNonce (rt_entropy sample_solana_runtime).
Proof.
  apply (@McpToolsEnv_nonce_always_base64 test_crypto sample_solana_runtime
           (Some solana) sample_solana_payload).
  vm_compute. reflexivity.
Defined.

(** The same input through both callbacks: base58 in one, base64 in the
    other. *)
Example generate_auth_payload_solana_nonces :
  snd (@McpTools.generate_auth_payload test_crypto sample_solana_runtime
         {| arg_did := None; arg_privateKey := None; arg_provider := None |})
  = Ok {| payload_did := payload_did sample_solana_payload;
          payload_timestamp := 1700000000000%Z;
          payload_nonce := "11111111111111111111111111111111";
          payload_signature :=
            "2g8vcEcUki27qPTRNx41M2ahVqhFNNHRxbo5t59geXuUjaiVDVyxBhhNBozAFNfSgjFhMeLVxuhodjyZP8dXHMhA";
          payload_provider := solana |}
  /\ snd (@McpToolsEnv.generate_auth_payload test_crypto sample_solana_runtime
            None)
     = Ok sample_solana_payload.
Proof. split; vm_compute; reflexivity. Qed.

(** * Further properties of the sources *)

(** ** Solana addresses and DIDs *)

Lemma append_assoc (a b c : string) : (a +:+ b) +:+ c = a +:+ (b +:+ c).
Proof. induction a as [|x a IH]; simpl; [reflexivity|]. rewrite IH. reflexivity. Qed.

Lemma base58_char_not_colon (c : ascii) (v : N) :
  Base58.char_value c = Some v -> Ascii.eqb c ":" = false.
Proof. destruct c as [[] [] [] [] [] [] [] []]; vm_compute; congruence. Qed.

Lemma base58_values_no_colon (s : string) (vs : list N) :
  Base58.values s = Some vs -> JS.mem ":" s = false.
Proof.
  revert vs. induction s as [|c s IH]; intros vs; simpl; [reflexivity|].
  destruct (Base58.char_value c) as [v|] eqn:Hc; [|discriminate].
  destruct (Base58.values s) as [vs'|]; [|discriminate].
  intros _. rewrite (base58_char_not_colon c v Hc), (IH vs' eq_refl). reflexivity.
Qed.

Lemma base58_32_no_colon (s : string) :
  Spec.base58_32_bytes s = true -> JS.mem ":" s = false.
Proof.
  unfold Spec.base58_32_bytes, Base58.decode.
  destruct (Base58.values s) as [vs|] eqn:Hv; [|discriminate].
  intros _. apply (base58_values_no_colon s vs Hv).
Qed.

Lemma solana_did_split (ref address : string) :
  JS.mem ":" ref = false ->
  JS.mem ":" address = false ->
  JS.split ":" ("did:pkh:solana:" +:+ ref +:+ ":" +:+ address)
  = ["did"; "pkh"; "solana"; ref; address].
Proof.
  intros Href Haddr.
  change ("did:pkh:solana:" +:+ ref +:+ ":" +:+ address)
    with ("did" +:+ String ":" ("pkh" +:+ String ":" ("solana" +:+ String ":"
            (ref +:+ String ":" address)))).
  rewrite !split_app_sep by (reflexivity || assumption).
  rewrite (split_no_sep _ _ Haddr). reflexivity.
Qed.

(** X1: a valid address and a chain id [solana:<reference>] without a
    further colon (the default is one) give a DID from which
    [didToWalletAddress] returns the address, which [isValidSolanaDid]
    accepts and which is detected as [solana]. *)
Theorem didToWalletAddress_walletAddressToDid (walletAddress : string)
    (chainId : option string) (ref : string) :
  isValidSolanaAddress walletAddress = Ok true ->
  default SOLANA_MAINNET_CHAIN_ID chainId = "solana:" +:+ ref ->
  JS.mem ":" ref = false ->
  exists did,
    walletAddressToDid walletAddress chainId = Ok did
    /\ didToWalletAddress did = Ok walletAddress
    /\ isValidSolanaDid did = Ok true
    /\ detectDidProvider did = Ok solana.
Proof.
  intros Hvalid Hchain Href.
  pose proof Hvalid as Hb. rewrite isValidSolanaAddress_total in Hb.
  injection Hb as Hb. pose proof (base58_32_no_colon _ Hb) as Hcolon.
  unfold walletAddressToDid. rewrite Hvalid, Hchain. cbn [bindR negb].
  exists ("did:pkh:solana:" +:+ ref +:+ ":" +:+ walletAddress).
  split; [rewrite append_assoc; reflexivity|].
  assert (Hto : didToWalletAddress
                  ("did:pkh:solana:" +:+ ref +:+ ":" +:+ walletAddress)
                = Ok walletAddress).
  { unfold didToWalletAddress. rewrite startsWith_app. cbn [negb].
    rewrite (solana_did_split ref walletAddress Href Hcolon).
    rewrite Hvalid. reflexivity. }
  split; [exact Hto|]. split.
  - unfold isValidSolanaDid. rewrite Hto. cbn [bindR try_catch].
    rewrite Hvalid. reflexivity.
  - reflexivity.
Qed.

Lemma didToWalletAddress_walletAddressToDid_witness :
  exists did,
    walletAddressToDid "11111111111111111111111111111111" None = Ok did
    /\ didToWalletAddress did = Ok "11111111111111111111111111111111"
    /\ isValidSolanaDid did = Ok true
    /\ detectDidProvider did = Ok solana.
Proof.
  apply (didToWalletAddress_walletAddressToDid
           "11111111111111111111111111111111" None
           "4sGjMW1sUnHzSxGspuhpqLDx6wiyjNtZ");
    vm_compute; reflexivity.
Defined.

(** X2: [walletAddressToDid] does not look at the chain id: with a chain
    id that has no colon (a bare name such as "mainnet") it returns a
    DID of 4 segments, which [didToWalletAddress] rejects and
    [isValidSolanaDid] reports invalid. *)
Theorem walletAddressToDid_bare_chain_rejected (walletAddress chainId : string) :
  isValidSolanaAddress walletAddress = Ok true ->
  JS.mem ":" chainId = false ->
  walletAddressToDid walletAddress (Some chainId)
  = Ok ("did:pkh:" +:+ chainId +:+ ":" +:+ walletAddress)
  /\ is_ok (didToWalletAddress
              ("did:pkh:" +:+ chainId +:+ ":" +:+ walletAddress)) = false
  /\ isValidSolanaDid ("did:pkh:" +:+ chainId +:+ ":" +:+ walletAddress)
     = Ok false.
Proof.
  intros Hvalid Hchain.
  pose proof Hvalid as Hb. rewrite isValidSolanaAddress_total in Hb.
  injection Hb as Hb. pose proof (base58_32_no_colon _ Hb) as Hcolon.
  unfold walletAddressToDid. rewrite Hvalid. cbn [bindR negb default].
  split; [reflexivity|].
  assert (Hsplit : JS.split ":" ("did:pkh:" +:+ chainId +:+ ":" +:+ walletAddress)
                   = ["did"; "pkh"; chainId; walletAddress]).
  { change ("did:pkh:" +:+ chainId +:+ ":" +:+ walletAddress)
      with ("did" +:+ String ":" ("pkh" +:+ String ":"
              (chainId +:+ String ":" walletAddress))).
    rewrite !split_app_sep by (reflexivity || assumption).
    rewrite (split_no_sep _ _ Hcolon). reflexivity. }
  assert (Hthrow : is_ok (didToWalletAddress
                            ("did:pkh:" +:+ chainId +:+ ":" +:+ walletAddress))
                   = false).
  { unfold didToWalletAddress. rewrite Hsplit.
    destruct (JS.startsWith _ "did:pkh:solana:"); reflexivity. }
  split; [exact Hthrow|].
  unfold isValidSolanaDid.
  destruct (didToWalletAddress _); [discriminate|reflexivity].
Qed.

Lemma walletAddressToDid_bare_chain_rejected_witness :
  walletAddressToDid "11111111111111111111111111111111" (Some "mainnet")
  = Ok "did:pkh:mainnet:11111111111111111111111111111111"
  /\ is_ok (didToWalletAddress
              "did:pkh:mainnet:11111111111111111111111111111111") = false
  /\ isValidSolanaDid "did:pkh:mainnet:11111111111111111111111111111111"
     = Ok false.
Proof.
  apply (walletAddressToDid_bare_chain_rejected
           "11111111111111111111111111111111" "mainnet");
    vm_compute; reflexivity.
Defined.

(** X3: whatever string [extractPublicKey] accepts, the public key it
    returns is a valid Solana address: the base58 encoding of the last
    32 of the 64 bytes of the key pair. *)
Theorem extractPublicKey_valid_address (keypairBase58 publicKey : string) :
  extractPublicKey keypairBase58 = Ok publicKey ->
  isValidSolanaAddress publicKey = Ok true
  /\ exists keypairBytes,
      Base58.decode keypairBase58 = Ok keypairBytes
      /\ length keypairBytes = 64%nat
      /\ publicKey = Base58.encode (skipn 32 keypairBytes)
      /\ Base58.decode publicKey = Ok (skipn 32 keypairBytes).
Proof.
  unfold extractPublicKey.
  destruct (Base58.decode keypairBase58) as [bytes|e]; cbn [bindR];
    [|discriminate].
  destruct (Nat.eqb_spec (length bytes) 64) as [Hlen|Hlen]; cbn [negb];
    [|discriminate].
  intros [= <-]. split.
  - rewrite isValidSolanaAddress_total. unfold Spec.base58_32_bytes.
    rewrite base58_decode_encode, length_skipn, Hlen. reflexivity.
  - exists bytes. repeat split; try assumption. apply base58_decode_encode.
Qed.

Lemma extractPublicKey_valid_address_witness :
  isValidSolanaAddress "11111111111111111111111111111111" = Ok true
  /\ exists keypairBytes,
      Base58.decode
        "1111111111111111111111111111111111111111111111111111111111111111"
      = Ok keypairBytes
      /\ length keypairBytes = 64%nat
      /\ "11111111111111111111111111111111"
         = Base58.encode (skipn 32 keypairBytes)
      /\ Base58.decode "11111111111111111111111111111111"
         = Ok (skipn 32 keypairBytes).
Proof.
  apply (extractPublicKey_valid_address
           "1111111111111111111111111111111111111111111111111111111111111111"
           "11111111111111111111111111111111").
  vm_compute. reflexivity.
Defined.

(** X4: a signature that [signSolanaMessage] returns, checked by
    [verifySolanaSignature] against the public key that
    [extractPublicKey] takes from the same key pair, passes every
    decoding and length check: nothing is logged and the answer is the
    verdict of the signature primitive on the 64 signature bytes and
    the last 32 bytes of the key pair. *)
Theorem verifySolanaSignature_of_signSolanaMessage `{Crypto}
    (message keypairBase58 signatureBase58 : string) :
  signSolanaMessage message keypairBase58 = Ok signatureBase58 ->
  exists keypairBytes signatureBytes publicKeyBase58,
    Base58.decode keypairBase58 = Ok keypairBytes
    /\ nacl_sign_detached (utf8_encode message) keypairBytes = Ok signatureBytes
    /\ extractPublicKey keypairBase58 = Ok publicKeyBase58
    /\ verifySolanaSignature message signatureBase58 publicKeyBase58
       = ([], Ok (nacl_crypto_sign_open (utf8_encode message) signatureBytes
                    (skipn 32 keypairBytes))).
Proof.
  unfold signSolanaMessage.
  destruct (Base58.decode keypairBase58) as [keypairBytes|e] eqn:Hkp;
    cbn [bindR]; [|discriminate].
  destruct (Nat.eqb_spec (length keypairBytes) 64) as [Hlen|Hlen]; cbn [negb];
    [|discriminate].
  destruct (nacl_sign_detached_64 (utf8_encode message) keypairBytes Hlen)
    as (signatureBytes & Hsig & Hsize).
  rewrite Hsig. cbn [bindR]. intros [= <-].
  exists keypairBytes, signatureBytes, (Base58.encode (skipn 32 keypairBytes)).
  split; [reflexivity|]. split; [exact Hsig|]. split.
  - unfold extractPublicKey. rewrite Hkp. cbn [bindR].
    rewrite Hlen, Nat.eqb_refl. reflexivity.
  - unfold verifySolanaSignature, verifySolanaSignature_try,
      nacl_sign_detached_verify.
    rewrite !base58_decode_encode. cbn [bindR].
    rewrite length_skipn, Hlen, Hsize. reflexivity.
Qed.

Lemma verifySolanaSignature_of_signSolanaMessage_witness :
  exists keypairBytes signatureBytes publicKeyBase58,
    Base58.decode
      "1111111111111111111111111111111111111111111111111111111111111111"
    = Ok keypairBytes
    /\ @nacl_sign_detached test_crypto (utf8_encode "hello") keypairBytes
       = Ok signatureBytes
    /\ extractPublicKey
         "1111111111111111111111111111111111111111111111111111111111111111"
       = Ok publicKeyBase58
    /\ @verifySolanaSignature test_crypto "hello"
         "43pvK9G32SgLFZxAoWKJAgjd2xdWjtehL4DCJGB9ENzxKbSqKUNodHtEWbPgN2k3CXqQYcfdJGa9qHQvpfk2KSN9"
         publicKeyBase58
       = ([], Ok (@nacl_crypto_sign_open test_crypto (utf8_encode "hello")
                    signatureBytes (skipn 32 keypairBytes))).
Proof.
  apply (@verifySolanaSignature_of_signSolanaMessage test_crypto "hello"
           "1111111111111111111111111111111111111111111111111111111111111111").
  vm_compute. reflexivity.
Defined.

(** X5: [getAddressFromPublicKeyBase58] returns its argument unchanged
    when that is a valid Solana address, and otherwise throws an error
    whose message is the inner diagnostic behind the prefix
    "Failed to get address from public key: ". *)
Theorem getAddressFromPublicKeyBase58_valid (publicKeyBase58 : string) :
  (isValidSolanaAddress publicKeyBase58 = Ok true ->
   getAddressFromPublicKeyBase58 publicKeyBase58 = Ok publicKeyBase58)
  /\ (isValidSolanaAddress publicKeyBase58 = Ok false ->
      exists reason,
        getAddressFromPublicKeyBase58 publicKeyBase58
        = Throw ("Failed to get address from public key: " +:+ reason)
        /\ (reason = "Non-base58 character"
            \/ reason = "Invalid public key length. Expected 32 bytes.")).
Proof.
  rewrite isValidSolanaAddress_total.
  unfold Spec.base58_32_bytes, getAddressFromPublicKeyBase58, Base58.decode.
  destruct (Base58.values publicKeyBase58) as [vs|]; cbn [bindR try_catch].
  - destruct (length _ =? 32)%nat; cbn [negb try_catch]; split;
      try discriminate; try reflexivity.
    intros _. eexists. split; [reflexivity|]. right. reflexivity.
  - split; [discriminate|]. intros _. eexists. split; [reflexivity|].
    left. reflexivity.
Qed.

Lemma getAddressFromPublicKeyBase58_valid_witness :
  getAddressFromPublicKeyBase58 "11111111111111111111111111111111"
  = Ok "11111111111111111111111111111111"
  /\ exists reason,
      getAddressFromPublicKeyBase58 "0x00"
      = Throw ("Failed to get address from public key: " +:+ reason)
      /\ (reason = "Non-base58 character"
          \/ reason = "Invalid public key length. Expected 32 bytes.").
Proof.
  split.
  - apply (proj1 (getAddressFromPublicKeyBase58_valid
                    "11111111111111111111111111111111")).
    vm_compute. reflexivity.
  - apply (proj2 (getAddressFromPublicKeyBase58_valid "0x00")).
    vm_compute. reflexivity.
Defined.

(** ** Hexadecimal keys of utils/crypto.ts *)

Lemma substring_0_0 (s : string) : String.substring 0 0 s = EmptyString.
Proof. destruct s; reflexivity. Qed.

Lemma bytesToHex_cons (b : byte) (bytes : list byte) :
  bytesToHex (b :: bytes)
  = String (hex_digit (Byte.to_N b / 16))
      (String (hex_digit (Byte.to_N b mod 16)) (bytesToHex bytes)).
Proof. reflexivity. Qed.

Lemma bytesToHex_length (bytes : list byte) :
  String.length (bytesToHex bytes) = 2 * length bytes.
Proof.
  induction bytes as [|b bytes IH]; [reflexivity|].
  rewrite bytesToHex_cons. cbn [String.length length]. rewrite IH. lia.
Qed.

Lemma hex_pair_byte_digits (b : byte) :
  hex_pair_byte
    (String (hex_digit (Byte.to_N b / 16))
       (String (hex_digit (Byte.to_N b mod 16)) EmptyString)) = b.
Proof. destruct b; vm_compute; reflexivity. Qed.

Lemma hexToBytes_loop_bytesToHex (bytes : list byte) :
  hexToBytes_loop (length bytes) (bytesToHex bytes) = bytes.
Proof.
  induction bytes as [|b bytes IH]; [reflexivity|].
  rewrite bytesToHex_cons. cbn [length hexToBytes_loop String.substring JS.slice].
  rewrite substring_0_0, hex_pair_byte_digits, IH. reflexivity.
Qed.

Lemma half_of_double (n : nat) : 2 * n / 2 = n.
Proof. rewrite Nat.mul_comm. apply Nat.div_mul. discriminate. Qed.

(** X6: [hexToBytes] undoes [bytesToHex] on every byte string, so
    [signMessage] with the hexadecimal form of a secret key hands the
    primitive exactly that key and the UTF-8 bytes of the message, and
    returns the hexadecimal form of its signature. *)
Theorem hexToBytes_bytesToHex `{Crypto} (bytes : list byte) (message : string) :
  hexToBytes (bytesToHex bytes) = bytes
  /\ signMessage message (bytesToHex bytes)
     = bindR (ed25519_signAsync (utf8_encode message) bytes)
         (fun signature => Ok (bytesToHex signature)).
Proof.
  assert (Hround : hexToBytes (bytesToHex bytes) = bytes).
  { unfold hexToBytes. rewrite bytesToHex_length, half_of_double.
    apply hexToBytes_loop_bytesToHex. }
  split; [exact Hround|]. unfold signMessage. rewrite Hround. reflexivity.
Qed.

(** X7: [hexToBytes] has no notion of a 0x prefix: the pair "0x" parses
    to [NaN] and is stored as a zero byte, so a prefixed key reaches the
    signature primitive one byte longer, with a leading zero. *)
Theorem hexToBytes_0x_prefix `{Crypto} (bytes : list byte) (message : string) :
  hexToBytes ("0x" +:+ bytesToHex bytes) = x00 :: bytes
  /\ signMessage message ("0x" +:+ bytesToHex bytes)
     = bindR (ed25519_signAsync (utf8_encode message) (x00 :: bytes))
         (fun signature => Ok (bytesToHex signature)).
Proof.
  assert (Hround : hexToBytes ("0x" +:+ bytesToHex bytes) = x00 :: bytes).
  { unfold hexToBytes. cbn [String.append String.length].
    rewrite bytesToHex_length.
    replace (S (S (2 * length bytes)) / 2) with (S (length bytes)).
    - cbn [hexToBytes_loop String.substring JS.slice].
      rewrite substring_0_0, hexToBytes_loop_bytesToHex. reflexivity.
    - replace (S (S (2 * length bytes))) with ((1 + length bytes) * 2) by lia.
      rewrite Nat.div_mul by discriminate. reflexivity. }
  split; [exact Hround|]. unfold signMessage. rewrite Hround. reflexivity.
Qed.

(** ** Printing and parsing integers *)

Lemma parseInt_digit_first (c : ascii) (rest : string) :
  Ethers.is_digit c = true ->
  Number.parseInt (String c rest) 10 = digits_result 10 (String c rest).
Proof.
  destruct c as [[] [] [] [] [] [] [] []]; intros Hc;
    try discriminate Hc; reflexivity.
Qed.

Lemma parseInt_minus_digit (c : ascii) (rest : string) :
  Ethers.is_digit c = true ->
  Number.parseInt (String "-" (String c rest)) 10
  = match digits_result 10 (String c rest) with
    | NaN => NaN
    | Int v => Int (- v)
    | Infinity _ => Infinity true
    end.
Proof.
  destruct c as [[] [] [] [] [] [] [] []]; intros Hc;
    try discriminate Hc;
    unfold digits_result, Number.parseInt;
    lazy - [Number.to_double Radix.of_digits Z.of_N Z.opp];
    match goal with
    | |- context [Number.to_double ?n] => destruct (Number.to_double n)
    end; reflexivity.
Qed.

Lemma parseInt_0x (rest : string) :
  Number.parseInt ("0x" +:+ rest) 16 = digits_result 16 rest.
Proof. reflexivity. Qed.

Lemma digit_value_hex_digit (radix d : N) :
  (d < radix)%N -> (radix <= 16)%N ->
  Number.digit_value radix (hex_digit d) = Some d.
Proof.
  intros Hd Hradix. rewrite <- (N2Nat.id d) in *.
  assert (Hk : N.to_nat d < 16) by lia. revert Hd Hk.
  generalize (N.to_nat d). intros k Hd Hk.
  do 16 (destruct k as [|k];
         [unfold Number.digit_value; cbv - [N.ltb];
          match goal with
          | |- context [N.ltb ?a radix] =>
              destruct (N.ltb_spec a radix); [reflexivity | lia]
          end|]).
  lia.
Qed.

Lemma leading_digits_hex (radix : N) (ds : list N) :
  (radix <= 16)%N ->
  Forall (fun d => (d < radix)%N) ds ->
  Number.leading_digits radix (string_of_list_ascii (map hex_digit ds)) = ds.
Proof.
  intros Hradix. induction 1 as [|d ds Hd _ IH]; [reflexivity|].
  cbn [map string_of_list_ascii Number.leading_digits].
  rewrite (digit_value_hex_digit radix d Hd Hradix), IH. reflexivity.
Qed.

Lemma digits_string_value (radix n : N) :
  (2 <= radix)%N -> (radix <= 16)%N ->
  Radix.of_digits radix
    (Number.leading_digits radix (Number.digits_string radix n)) = n.
Proof.
  intros Hlo Hhi. unfold Number.digits_string.
  pose proof (to_digits_value radix n Hlo) as Hvalue.
  pose proof (to_digits_canonical radix n Hlo) as [Hall _].
  destruct (Radix.to_digits radix n) as [|d ds] eqn:Hds.
  - cbn in Hvalue. subst n.
    replace (Number.leading_digits radix "0") with [0%N]; [reflexivity|].
    cbn [Number.leading_digits].
    change "0"%char with (hex_digit 0).
    rewrite (digit_value_hex_digit radix 0) by lia. reflexivity.
  - rewrite (leading_digits_hex radix (d :: ds) Hhi Hall). exact Hvalue.
Qed.

(** every natural number below 2^53 is a double *)
Lemma to_double_safe (n : N) :
  (n < 2 ^ 53)%N -> Number.to_double n = Some n.
Proof.
  intros Hn. unfold Number.to_double.
  destruct (N.ltb_spec n (2 ^ 53)); [reflexivity | lia].
Qed.

(** rounding at the first integers that are no doubles, at the largest
    double, and what [parseInt] skips and where it stops *)
Example parseInt_vectors :
  Number.to_double (2 ^ 53 + 1) = Some (2 ^ 53)%N
  /\ Number.to_double (2 ^ 53 + 3) = Some (2 ^ 53 + 4)%N
  /\ Number.to_double (2 ^ 1024 - 2 ^ 970 - 1) = Some (2 ^ 1024 - 2 ^ 971)%N
  /\ Number.to_double (2 ^ 1024 - 2 ^ 970) = None
  /\ Number.parseInt "9007199254740993" 10 = Int 9007199254740992
  /\ Number.parseInt "  -12px" 10 = Int (-12)
  /\ Number.parseInt "1e21" 10 = Int 1
  /\ Number.parseInt "0x20000000000001" 16 = Int 9007199254740992
  /\ Number.parseInt "0x" 16 = NaN.
Proof. repeat split; vm_compute; reflexivity. Qed.

Lemma digits_result_digits_string (radix n : N) :
  (2 <= radix)%N -> (radix <= 16)%N -> (n < 2 ^ 53)%N ->
  digits_result radix (Number.digits_string radix n) = Int (Z.of_N n).
Proof.
  intros Hlo Hhi Hsafe. unfold Number.digits_string, digits_result.
  pose proof (to_digits_value radix n Hlo) as Hvalue.
  pose proof (to_digits_canonical radix n Hlo) as [Hall _].
  destruct (Radix.to_digits radix n) as [|d ds] eqn:Hds.
  - cbn in Hvalue. subst n.
    replace (Number.leading_digits radix "0") with [0%N]; [reflexivity|].
    cbn [Number.leading_digits].
    change "0"%char with (hex_digit 0).
    rewrite (digit_value_hex_digit radix 0) by lia. reflexivity.
  - rewrite (leading_digits_hex radix (d :: ds) Hhi Hall), Hvalue.
    rewrite (to_double_safe n Hsafe). reflexivity.
Qed.

Lemma hex_digit_is_digit (d : N) :
  (d < 10)%N -> Ethers.is_digit (hex_digit d) = true.
Proof.
  intros Hd. rewrite <- (N2Nat.id d) in *.
  assert (Hk : N.to_nat d < 10) by lia. revert Hk.
  generalize (N.to_nat d). intros k Hk.
  do 10 (destruct k as [|k]; [reflexivity|]). lia.
Qed.

Lemma digits_string_10_first (n : N) :
  exists c rest,
    Number.digits_string 10 n = String c rest /\ Ethers.is_digit c = true.
Proof.
  unfold Number.digits_string.
  pose proof (to_digits_canonical 10 n ltac:(lia)) as [Hall _].
  destruct (Radix.to_digits 10 n) as [|d ds].
  - exists "0"%char, EmptyString. split; reflexivity.
  - eexists _, _. split; [reflexivity|].
    apply hex_digit_is_digit. exact (Forall_inv Hall).
Qed.

(** printing a safe integer in base 10 and parsing it gives it back *)
Lemma parseInt_toString_10 (z : Z) :
  (Z.abs z < 2 ^ 53)%Z ->
  Number.parseInt (Number.toString z 10) 10 = Int z.
Proof.
  intros Hsafe. unfold Number.toString.
  assert (Hpow : Z.of_N (2 ^ 53) = (2 ^ 53)%Z) by reflexivity.
  destruct (Z.ltb_spec z 0) as [Hneg|Hpos].
  - destruct (digits_string_10_first (Z.to_N (- z))) as (c & rest & Heq & Hc).
    pose proof (digits_result_digits_string 10 (Z.to_N (- z))
                  ltac:(lia) ltac:(lia) ltac:(lia)) as Hres.
    rewrite Heq in *. cbn [String.append].
    rewrite (parseInt_minus_digit c rest Hc), Hres. f_equal. lia.
  - destruct (digits_string_10_first (Z.to_N z)) as (c & rest & Heq & Hc).
    pose proof (digits_result_digits_string 10 (Z.to_N z)
                  ltac:(lia) ltac:(lia) ltac:(lia)) as Hres.
    rewrite Heq in *. rewrite (parseInt_digit_first c rest Hc), Hres.
    f_equal. lia.
Qed.

(** ** The chain id of a did:pkh:eip155 DID *)

Lemma digit_value_10_decimal (c : ascii) :
  match Number.digit_value 10 c with Some _ => true | None => false end
  = Spec.decimal_digit c.
Proof. destruct c as [[] [] [] [] [] [] [] []]; reflexivity. Qed.

Lemma is_digit_decimal (c : ascii) :
  Ethers.is_digit c = Spec.decimal_digit c.
Proof. destruct c as [[] [] [] [] [] [] [] []]; reflexivity. Qed.

Lemma trim_start_skip_blanks (s : string) :
  Number.trim_start s = Spec.skip_blanks s.
Proof.
  induction s as [|c s IH]; [reflexivity|].
  cbn [Number.trim_start Spec.skip_blanks]. rewrite IH.
  destruct c as [[] [] [] [] [] [] [] []]; reflexivity.
Qed.

Lemma leading_digits_begins (s : string) :
  Number.leading_digits 10 s = [] <-> Spec.begins_with_digit s = false.
Proof.
  destruct s as [|c s]; [split; reflexivity|].
  cbn [Number.leading_digits Spec.begins_with_digit].
  rewrite <- digit_value_10_decimal.
  destruct (Number.digit_value 10 c); split; intros; congruence.
Qed.

(** [parseInt] in base 10: white space and one sign are dropped, then
    the longest prefix of decimal digits is read *)
Lemma parseInt_10_shape (s : string) :
  exists negative : bool,
    Number.parseInt s 10
    = match Number.leading_digits 10
              (Spec.strip_sign (Number.trim_start s)) with
      | [] => NaN
      | ds =>
          match Number.to_double (Radix.of_digits 10 ds) with
          | Some v => Int (if negative then - Z.of_N v else Z.of_N v)%Z
          | None => Infinity negative
          end
      end.
Proof.
  unfold Number.parseInt.
  destruct (Number.trim_start s) as [|c t]; [exists false; reflexivity|].
  destruct c as [[] [] [] [] [] [] [] []];
    first [exists false; reflexivity | exists true; reflexivity].
Qed.

Lemma parseInt_10_NaN (s : string) :
  Number.parseInt s 10 = NaN <-> Spec.numeric s = false.
Proof.
  destruct (parseInt_10_shape s) as [negative ->]. unfold Spec.numeric.
  rewrite <- trim_start_skip_blanks, <- leading_digits_begins.
  destruct (Number.leading_digits 10 _) as [|d ds]; [split; reflexivity|].
  destruct (Number.to_double _); split; intros; discriminate.
Qed.

Lemma leading_digits_app (radix : N) (ds : list N) (tail : string) :
  (radix <= 16)%N ->
  Forall (fun d => (d < radix)%N) ds ->
  Number.leading_digits radix
    (string_of_list_ascii (map hex_digit ds) +:+ tail)
  = (ds ++ Number.leading_digits radix tail)%list.
Proof.
  intros Hradix. induction 1 as [|d ds Hd _ IH]; [reflexivity|].
  cbn [map string_of_list_ascii String.append Number.leading_digits].
  rewrite (digit_value_hex_digit radix d Hd Hradix), IH. reflexivity.
Qed.

(** a decimal numeral followed by anything that is no digit reads as
    the double nearest to its value *)
Lemma parseInt_10_numeral (n : N) (tail : string) :
  Spec.begins_with_digit tail = false ->
  Number.parseInt (Number.digits_string 10 n +:+ tail) 10
  = match Number.to_double n with
    | Some v => Int (Z.of_N v)
    | None => Infinity false
    end.
Proof.
  intros Htail. apply leading_digits_begins in Htail.
  destruct (digits_string_10_first n) as (c & rest & Heq & Hc).
  assert (Hleading :
    Number.leading_digits 10 (Number.digits_string 10 n +:+ tail)
    = Number.leading_digits 10 (Number.digits_string 10 n)).
  { unfold Number.digits_string.
    pose proof (to_digits_canonical 10 n ltac:(lia)) as [Hall _].
    destruct (Radix.to_digits 10 n) as [|d ds].
    - change "0" with (string_of_list_ascii (map hex_digit [0%N])).
      rewrite leading_digits_app by (repeat constructor; lia).
      rewrite Htail. reflexivity.
    - rewrite (leading_digits_app 10 (d :: ds) tail ltac:(lia) Hall), Htail.
      rewrite app_nil_r.
      symmetry. apply (leading_digits_hex 10 (d :: ds) ltac:(lia) Hall). }
  pose proof (digits_string_value 10 n ltac:(lia) ltac:(lia)) as Hvalue.
  rewrite Heq in *. cbn [String.append].
  rewrite (parseInt_digit_first c (rest +:+ tail) Hc). unfold digits_result.
  change (String c (rest +:+ tail)) with (String c rest +:+ tail).
  rewrite Hleading.
  destruct (Number.leading_digits 10 (String c rest)) as [|d ds] eqn:Hds.
  - apply leading_digits_begins in Hds. cbn [Spec.begins_with_digit] in Hds.
    rewrite <- is_digit_decimal in Hds. congruence.
  - rewrite Hvalue. reflexivity.
Qed.

(** C10: on a DID that starts with [did:pkh:eip155:], [extractChainId]
    returns [parseInt] in base 10 of segment 3 when there are exactly 5
    segments, whatever that segment is.  The result is [NaN], which is
    neither [null] nor an error, exactly when the segment, leading
    white space and one sign apart, does not begin with a decimal
    digit: so for every segment that begins with a letter.  A decimal
    numeral gives the double nearest to its value (the value itself
    below 2^53), also when characters that are no digits follow it.
    With any other number of segments the result is [null]. *)
Theorem extractChainId_pkh_eip155 (did : string) :
  JS.startsWith did "did:pkh:eip155:" = true ->
  (length (JS.split ":" did) = 5%nat ->
   extractChainId did
   = Ok (CNumber (Number.parseInt (nth 3 (JS.split ":" did) "") 10))
   /\ (extractChainId did = Ok (CNumber NaN)
       <-> Spec.numeric (nth 3 (JS.split ":" did) "") = false)
   /\ (forall c rest,
       nth 3 (JS.split ":" did) "" = String c rest ->
       Ethers.is_upper c || Ethers.is_lower c = true ->
       extractChainId did = Ok (CNumber NaN))
   /\ (forall n tail,
       nth 3 (JS.split ":" did) "" = Number.digits_string 10 n +:+ tail ->
       Spec.begins_with_digit tail = false ->
       extractChainId did
       = Ok (CNumber (match Number.to_double n with
                      | Some v => Int (Z.of_N v)
                      | None => Infinity false
                      end))
       /\ ((n < 2 ^ 53)%N ->
           extractChainId did = Ok (CNumber (Int (Z.of_N n))))))
  /\ (length (JS.split ":" did) <> 5%nat -> extractChainId did = Ok CNull).
Proof.
  intros Hp. destruct (pkh_prefix_split did Hp) as (Hethr & rest & Hsplit).
  unfold extractChainId. rewrite Hethr, Hp, Hsplit.
  destruct (JS.split ":" rest) as [|chain [|address [|extra more]]];
    simpl; split; try (intros; congruence); try lia.
  intros _. split; [reflexivity|]. split; [|split].
  - rewrite <- parseInt_10_NaN. split; [intros [= ->] | intros ->]; reflexivity.
  - intros c rest' -> Hc. rewrite (parseInt_letter_first c rest' Hc).
    reflexivity.
  - intros n tail -> Htail. rewrite (parseInt_10_numeral n tail Htail).
    split; [reflexivity|]. intros Hsafe. rewrite (to_double_safe n Hsafe).
    reflexivity.
Qed.

Lemma extractChainId_pkh_eip155_witness :
  extractChainId "did:pkh:eip155:137:0x742d35cc6634c0532925a3b844bc9e7595f0beb0"
  = Ok (CNumber (Int 137))
  /\ extractChainId "did:pkh:eip155:polygon:0x742d35cc6634c0532925a3b844bc9e7595f0beb0"
     = Ok (CNumber NaN)
  /\ extractChainId "did:pkh:eip155:137abc:0x742d35cc6634c0532925a3b844bc9e7595f0beb0"
     = Ok (CNumber (Int 137))
  /\ extractChainId
       "did:pkh:eip155:9007199254740993:0x742d35cc6634c0532925a3b844bc9e7595f0beb0"
     = Ok (CNumber (Int 9007199254740992))
  /\ extractChainId "did:pkh:eip155:0x742d35cc6634c0532925a3b844bc9e7595f0beb0"
     = Ok CNull.
Proof.
  split; [|split; [|split; [|split]]].
  - apply (proj1 (extractChainId_pkh_eip155
                    "did:pkh:eip155:137:0x742d35cc6634c0532925a3b844bc9e7595f0beb0"
                    eq_refl)). reflexivity.
  - apply (proj1 (proj2 (proj2
             (proj1 (extractChainId_pkh_eip155
                       "did:pkh:eip155:polygon:0x742d35cc6634c0532925a3b844bc9e7595f0beb0"
                       eq_refl) eq_refl)))) with (c := "p"%char) (rest := "olygon");
      reflexivity.
  - apply (proj2 (proj2 (proj2
             (proj1 (extractChainId_pkh_eip155
                       "did:pkh:eip155:137abc:0x742d35cc6634c0532925a3b844bc9e7595f0beb0"
                       eq_refl) eq_refl))) 137%N "abc");
      vm_compute; reflexivity.
  - apply (proj1 (proj2 (proj2 (proj2
             (proj1 (extractChainId_pkh_eip155
                       "did:pkh:eip155:9007199254740993:0x742d35cc6634c0532925a3b844bc9e7595f0beb0"
                       eq_refl) eq_refl))) 9007199254740993%N "" eq_refl eq_refl)).
  - apply (proj2 (extractChainId_pkh_eip155
                    "did:pkh:eip155:0x742d35cc6634c0532925a3b844bc9e7595f0beb0"
                    eq_refl)). vm_compute. discriminate.
Defined.

(** ** did:pkh:eip155 and did:ethr with chain ids *)

Lemma pkh_did_split (chain address : string) :
  JS.mem ":" chain = false ->
  JS.mem ":" address = false ->
  JS.split ":" ("did:pkh:eip155:" +:+ chain +:+ ":" +:+ address)
  = ["did"; "pkh"; "eip155"; chain; address].
Proof.
  intros Hchain Haddr.
  change ("did:pkh:eip155:" +:+ chain +:+ ":" +:+ address)
    with ("did" +:+ String ":" ("pkh" +:+ String ":" ("eip155" +:+ String ":"
            (chain +:+ String ":" address)))).
  rewrite !split_app_sep by (reflexivity || assumption).
  rewrite (split_no_sep _ _ Haddr). reflexivity.
Qed.

(** X8: for an address that [addressToPkhDid] accepts and a chain id
    that is a safe integer (1 when omitted), the DID gives back the
    lower-cased, 0x-prefixed address through [didToAddress] and the
    chain id through [extractChainId]; it is a valid EVM DID and is
    detected as [evm]. *)
Theorem addressToPkhDid_round_trip (address : string) (chainId : option Z) :
  Ethers.isAddress (normalizeAddress address) = true ->
  (Z.abs (default 1 chainId) < 2 ^ 53)%Z ->
  exists did,
    addressToPkhDid address chainId = Ok did
    /\ didToAddress did = Ok (normalizeAddress address)
    /\ extractChainId did = Ok (CNumber (Int (default 1%Z chainId)))
    /\ isValidEvmDid did = Ok true
    /\ detectDidProvider did = Ok evm.
Proof.
  intros Hvalid Hsafe.
  pose proof (normalizeAddress_no_colon _ Hvalid) as Hcolon.
  pose proof (normalizeAddress_lower address) as Hlower.
  pose proof (toString_no_colon (default 1%Z chainId) 10) as Hchain.
  unfold addressToPkhDid. rewrite Hvalid. cbn [negb].
  eexists. split; [reflexivity|].
  assert (Hto : didToAddress
                  ("did:pkh:eip155:" +:+ Number.toString (default 1%Z chainId) 10
                     +:+ ":" +:+ normalizeAddress address)
                = Ok (normalizeAddress address)).
  { unfold didToAddress.
    replace (JS.startsWith _ "did:ethr:") with false by reflexivity.
    rewrite startsWith_app, (pkh_did_split _ _ Hchain Hcolon), Hlower.
    reflexivity. }
  split; [exact Hto|]. split; [|split].
  - unfold extractChainId.
    replace (JS.startsWith _ "did:ethr:") with false by reflexivity.
    rewrite startsWith_app, (pkh_did_split _ _ Hchain Hcolon).
    rewrite (parseInt_toString_10 _ Hsafe). reflexivity.
  - unfold isValidEvmDid. rewrite Hto. cbn [bindR try_catch].
    rewrite Hvalid. reflexivity.
  - reflexivity.
Qed.

Lemma addressToPkhDid_round_trip_witness :
  exists did,
    addressToPkhDid "742D35Cc6634C0532925a3b844Bc9e7595f0bEb0" (Some 137%Z)
    = Ok did
    /\ didToAddress did = Ok "0x742d35cc6634c0532925a3b844bc9e7595f0beb0"
    /\ extractChainId did = Ok (CNumber (Int 137))
    /\ isValidEvmDid did = Ok true
    /\ detectDidProvider did = Ok evm.
Proof.
  apply (addressToPkhDid_round_trip
           "742D35Cc6634C0532925a3b844Bc9e7595f0bEb0" (Some 137%Z)).
  - vm_compute. reflexivity.
  - vm_compute. reflexivity.
Defined.

Lemma ethr_split3 (address : string) :
  JS.mem ":" address = false ->
  JS.split ":" ("did:ethr:" +:+ address) = ["did"; "ethr"; address].
Proof.
  intros Ha.
  change ("did:ethr:" +:+ address)
    with ("did" +:+ String ":" ("ethr" +:+ String ":" address)).
  rewrite !split_app_sep by reflexivity.
  rewrite (split_no_sep _ _ Ha). reflexivity.
Qed.

Lemma ethr_split4 (segment address : string) :
  JS.mem ":" segment = false ->
  JS.mem ":" address = false ->
  JS.split ":" ("did:ethr:" +:+ segment +:+ ":" +:+ address)
  = ["did"; "ethr"; segment; address].
Proof.
  intros Hs Ha.
  change ("did:ethr:" +:+ segment +:+ ":" +:+ address)
    with ("did" +:+ String ":" ("ethr" +:+ String ":"
            (segment +:+ String ":" address))).
  rewrite !split_app_sep by (reflexivity || assumption).
  rewrite (split_no_sep _ _ Ha). reflexivity.
Qed.

(** X9: with a numeric chain id that is a safe integer,
    [extractChainId] of the DID that [addressToEthrDid] builds is the
    chain id when that is 2 or more; it is 1 for the chain ids 0 and 1,
    which give the short DID; and it is [NaN] for a negative chain id,
    whose hexadecimal form "0x-..." does not parse. *)
Theorem extractChainId_addressToEthrDid_number (address : string) (n : Z) :
  Ethers.isAddress (normalizeAddress address) = true ->
  (Z.abs n < 2 ^ 53)%Z ->
  exists did,
    addressToEthrDid address (Some (ChainNumber n)) None = Ok did
    /\ extractChainId did
       = Ok (CNumber (if (n <? 0)%Z then NaN
                      else if (n <? 2)%Z then Int 1 else Int n)).
Proof.
  intros Hvalid Hsafe.
  pose proof (normalizeAddress_no_colon _ Hvalid) as Hcolon.
  unfold addressToEthrDid. rewrite Hvalid. cbn [negb explicit_network].
  unfold explicit_chain.
  destruct (Z.eqb_spec n 0) as [->|Hn0]; cbn [negb andb].
  { eexists. split; [reflexivity|]. unfold extractChainId.
    rewrite startsWith_app, (ethr_split3 _ Hcolon). reflexivity. }
  destruct (Z.eqb_spec n 1) as [->|Hn1]; cbn [negb].
  { eexists. split; [reflexivity|]. unfold extractChainId.
    rewrite startsWith_app, (ethr_split3 _ Hcolon). reflexivity. }
  eexists. split; [reflexivity|]. unfold extractChainId, hexChainId.
  assert (Hseg : JS.mem ":" ("0x" +:+ Number.toString n 16) = false)
    by (rewrite mem_app, toString_no_colon; reflexivity).
  rewrite startsWith_app, (ethr_split4 _ _ Hseg Hcolon), startsWith_app.
  rewrite parseInt_0x. unfold Number.toString.
  destruct (Z.ltb_spec n 0) as [Hneg|Hpos].
  - reflexivity.
  - rewrite digits_result_digits_string by lia.
    destruct (Z.ltb_spec n 2); [lia|]. do 3 f_equal. lia.
Qed.

Lemma extractChainId_addressToEthrDid_number_witness :
  exists did,
    addressToEthrDid "0x742d35cc6634c0532925a3b844bc9e7595f0beb0"
      (Some (ChainNumber 11155111)) None = Ok did
    /\ extractChainId did = Ok (CNumber (Int 11155111)).
Proof.
  apply (extractChainId_addressToEthrDid_number
           "0x742d35cc6634c0532925a3b844bc9e7595f0beb0" 11155111).
  - vm_compute. reflexivity.
  - vm_compute. reflexivity.
Defined.

Lemma networkMap_cases (name : string) (id : Z) :
  networkMap !! name = Some id ->
  In (name, id)
    [ ("mainnet", 1%Z); ("goerli", 5%Z); ("sepolia", 11155111%Z);
      ("polygon", 137%Z); ("optimism", 10%Z); ("arbitrum", 42161%Z) ].
Proof.
  unfold networkMap. intros Hlookup.
  repeat (apply lookup_insert_Some in Hlookup;
          destruct Hlookup as [[<- <-]|[_ Hlookup]]; [simpl; tauto|]).
  apply lookup_singleton_Some in Hlookup. destruct Hlookup as [<- <-].
  simpl. tauto.
Qed.

(** X10: for each network name of the table in [extractChainId], the
    DID that [addressToEthrDid] builds for that network gives back the
    table's chain id, and the address; for "mainnet" this is the short
    DID, provided no explicit chain id is passed along with it. *)
Theorem extractChainId_addressToEthrDid_network (address name : string)
    (id : Z) (chainId : option ChainId) :
  Ethers.isAddress (normalizeAddress address) = true ->
  networkMap !! name = Some id ->
  (name = "mainnet" -> explicit_chain chainId = None) ->
  exists did,
    addressToEthrDid address chainId (Some name) = Ok did
    /\ extractChainId did = Ok (CNumber (Int id))
    /\ didToAddress did = Ok (normalizeAddress address).
Proof.
  intros Hvalid Hname Hmain.
  pose proof (normalizeAddress_no_colon _ Hvalid) as Hcolon.
  pose proof (normalizeAddress_lower address) as Hlower.
  apply networkMap_cases in Hname.
  unfold addressToEthrDid. rewrite Hvalid. cbn [negb].
  simpl in Hname.
  destruct Hname as [Hn|[Hn|[Hn|[Hn|[Hn|[Hn|[]]]]]]];
    injection Hn as <- <-; cbn [explicit_network JS.truthy String.eqb
                                 Ascii.eqb Bool.eqb andb negb].
  1: { rewrite (Hmain eq_refl). eexists. split; [reflexivity|].
       unfold extractChainId, didToAddress.
       rewrite startsWith_app, (ethr_split3 _ Hcolon), Hlower.
       split; reflexivity. }
  all: eexists; (split; [reflexivity|]);
    unfold extractChainId, didToAddress;
    match goal with
    | |- context ["did:ethr:" +:+ ?seg +:+ ":" +:+ _] =>
        rewrite startsWith_app, (ethr_split4 seg _ eq_refl Hcolon), Hlower
    end;
    split; reflexivity.
Qed.

Lemma extractChainId_addressToEthrDid_network_witness :
  exists did,
    addressToEthrDid "0x742d35cc6634c0532925a3b844bc9e7595f0beb0"
      (Some (ChainNumber 1)) (Some "polygon") = Ok did
    /\ extractChainId did = Ok (CNumber (Int 137))
    /\ didToAddress did = Ok "0x742d35cc6634c0532925a3b844bc9e7595f0beb0".
Proof.
  apply (extractChainId_addressToEthrDid_network
           "0x742d35cc6634c0532925a3b844bc9e7595f0beb0" "polygon" 137
           (Some (ChainNumber 1))).
  - vm_compute. reflexivity.
  - vm_compute. reflexivity.
  - discriminate.
Defined.

(** ** EVM DIDs are checked for shape only *)

Lemma hex40_unprefixed_lower (address : string) :
  JS.startsWith address "0x" = false ->
  String.length address = 40 ->
  Ethers.all_chars Ethers.is_hex address = true ->
  JS.startsWith (JS.toLowerCase address) "0x" = false.
Proof.
  intros _ Hlen Hhex.
  destruct address as [|c0 [|c1 rest]]; try discriminate.
  cbn [Ethers.all_chars] in Hhex.
  apply andb_true_iff in Hhex. destruct Hhex as [_ Hhex].
  apply andb_true_iff in Hhex. destruct Hhex as [Hc1 _].
  cbn [JS.toLowerCase JS.startsWith].
  rewrite (proj2 (lower_char_hex c1 Hc1)).
  destruct (Ascii.eqb (JS.lower_char c0) "0"); reflexivity.
Qed.

Lemma hex40_lower_valid (address : string) :
  Ethers.match_hex40 address = true ->
  Ethers.isAddress (JS.toLowerCase address) = true
  /\ JS.mem ":" address = false.
Proof.
  unfold Ethers.match_hex40.
  destruct (JS.startsWith address "0x") eqn:Hprefix.
  - destruct (startsWith_inv _ _ Hprefix) as [body ->].
    cbn [JS.slice String.append]. intros Hbody.
    apply andb_true_iff in Hbody. destruct Hbody as [Hlen Hhex].
    apply Nat.eqb_eq in Hlen. split.
    + apply (isAddress_0x_lower body Hlen Hhex).
    + simpl. apply all_hex_no_colon, Hhex.
  - intros Hbody. apply andb_true_iff in Hbody. destruct Hbody as [Hlen Hhex].
    apply Nat.eqb_eq in Hlen. split; [|apply all_hex_no_colon, Hhex].
    pose proof (hex40_unprefixed_lower address Hprefix Hlen Hhex) as Hnot.
    unfold Ethers.isAddress, Ethers.match_hex40. rewrite Hnot.
    rewrite toLowerCase_length, Hlen, (all_hex_lower _ Hhex).
    cbn [Nat.eqb andb]. unfold Ethers.match_mixed_case.
    cbn [String.append Ethers.any_char].
    rewrite no_capital_lower. reflexivity.
Qed.

(** X11: [isValidEvmDid] checks the shape of a DID only.  For any
    string of 40 hexadecimal digits, with or without 0x and in any
    capitalisation (so also one whose EIP-55 checksum is wrong), and
    any middle segment without a colon (so also an unknown network or a
    chain id that is not a number), the did:ethr and did:pkh:eip155
    DIDs built from them are valid. *)
Theorem isValidEvmDid_shape_only (address segment : string) :
  Ethers.match_hex40 address = true ->
  JS.mem ":" segment = false ->
  isValidEvmDid ("did:ethr:" +:+ address) = Ok true
  /\ isValidEvmDid ("did:ethr:" +:+ segment +:+ ":" +:+ address) = Ok true
  /\ isValidEvmDid ("did:pkh:eip155:" +:+ segment +:+ ":" +:+ address)
     = Ok true.
Proof.
  intros Hhex Hseg. destruct (hex40_lower_valid address Hhex) as [Hvalid Hcolon].
  unfold isValidEvmDid, didToAddress. repeat split.
  - rewrite startsWith_app, (ethr_split3 _ Hcolon). cbn [bindR try_catch].
    rewrite Hvalid. reflexivity.
  - rewrite startsWith_app, (ethr_split4 _ _ Hseg Hcolon). cbn [bindR try_catch].
    rewrite Hvalid. reflexivity.
  - replace (JS.startsWith _ "did:ethr:") with false by reflexivity.
    rewrite startsWith_app, (pkh_did_split _ _ Hseg Hcolon).
    cbn [bindR try_catch]. rewrite Hvalid. reflexivity.
Qed.

Lemma isValidEvmDid_shape_only_witness :
  isValidEvmAddress "0x5AAeb6053F3E94C9b9A09f33669435E7Ef1BeAed" = Ok false
  /\ isValidEvmDid "did:ethr:0x5AAeb6053F3E94C9b9A09f33669435E7Ef1BeAed"
     = Ok true
  /\ isValidEvmDid
       "did:ethr:no-such-network:0x5AAeb6053F3E94C9b9A09f33669435E7Ef1BeAed"
     = Ok true
  /\ isValidEvmDid
       "did:pkh:eip155:no-such-network:0x5AAeb6053F3E94C9b9A09f33669435E7Ef1BeAed"
     = Ok true.
Proof.
  split; [vm_compute; reflexivity|].
  apply (isValidEvmDid_shape_only
           "0x5AAeb6053F3E94C9b9A09f33669435E7Ef1BeAed" "no-such-network");
    vm_compute; reflexivity.
Defined.

(** ** EVM verification compares addresses as strings *)




(** ** utils/auth-base.ts: the nonce manager *)

Lemma isUsed_fresh (usedNonces : gmap string JSNum) (nonce : string)
    (timestamp : JSNum) :
  usedNonces !! nonce = None ->
  AuthBase.isUsed usedNonces nonce timestamp
  = (false, <[nonce := timestamp]> usedNonces).
Proof. unfold AuthBase.isUsed. intros ->. reflexivity. Qed.



(** X14: the test for a recorded nonce is the truthiness of its
    timestamp, so a nonce recorded with the timestamp 0 or [NaN] is not
    recognised when it comes again: the second call answers [false]
    too, and overwrites the entry. *)
Theorem isUsed_misses_falsy_timestamp (usedNonces : gmap string JSNum)
    (nonce : string) (timestamp later : JSNum) :
  usedNonces !! nonce = None ->
  AuthBase.number_truthy timestamp = false ->
  AuthBase.isUsed (snd (AuthBase.isUsed usedNonces nonce timestamp))
    nonce later
  = (false, <[nonce := later]> usedNonces).
Proof.
  intros Hfresh Hfalsy. rewrite (isUsed_fresh _ _ _ Hfresh). cbn [snd].
  unfold AuthBase.isUsed. rewrite lookup_insert_eq, Hfalsy.
  rewrite insert_insert_eq. reflexivity.
Qed.

Lemma isUsed_misses_falsy_timestamp_witness :
  AuthBase.isUsed (snd (AuthBase.isUsed ∅ "n1" (Int 0))) "n1" (Int 0)
  = (false, <["n1" := Int 0]> ∅).
Proof.
  apply (isUsed_misses_falsy_timestamp ∅ "n1" (Int 0) (Int 0)); reflexivity.
Defined.




(** [verifyTimestamp] accepts an integer timestamp exactly when it lies
    from [windowMs] (5 minutes when omitted) before now to 60 seconds
    after now, and it accepts the timestamp [NaN] always. *)
Lemma verifyTimestamp_window (now : Z) (windowMs : option Z) (t : Z) :
  (AuthBase.verifyTimestamp now (Int t) windowMs = true
   <-> (now - default 300000 windowMs <= t /\ t <= now + 60000)%Z)
  /\ AuthBase.verifyTimestamp now NaN windowMs = true.
Proof.
  split; [|reflexivity]. unfold AuthBase.verifyTimestamp.
  change (5 * 60 * 1000)%Z with 300000%Z. change (60 * 1000)%Z with 60000%Z.
  destruct (Z.ltb_spec (default 300000%Z windowMs) (now - t)%Z);
    destruct (Z.ltb_spec 60000%Z (t - now)%Z); split; intros; try discriminate;
    try reflexivity; lia.
Qed.

(** ** The signed message determines its parts *)

Lemma append_colon_inj (a a' n n' : string) :
  JS.mem ":" n = false ->
  JS.mem ":" n' = false ->
  a +:+ ":" +:+ n = a' +:+ ":" +:+ n' ->
  a = a' /\ n = n'.
Proof.
  intros Hn Hn'. revert a'. induction a as [|c a IH]; intros a' Heq.
  - destruct a' as [|c' a']; simpl in Heq.
    + injection Heq as ->. auto.
    + injection Heq as <- Heq. subst n. rewrite mem_app in Hn. simpl in Hn.
      rewrite orb_true_r in Hn. discriminate.
  - destruct a' as [|c' a']; simpl in Heq.
    + injection Heq as -> Heq. subst n'. rewrite mem_app in Hn'. simpl in Hn'.
      rewrite orb_true_r in Hn'. discriminate.
    + injection Heq as <- Heq. destruct (IH a' Heq) as [-> ->]. auto.
Qed.

Lemma base64_digit_char_not_colon (d : N) :
  Ascii.eqb (Base64.digit_char d) ":" = false.
Proof.
  unfold Base64.digit_char. generalize (N.to_nat d). intros n.
  do 64 (destruct n as [|n]; [reflexivity|]). reflexivity.
Qed.

Lemma base64_chars_no_colon (n : nat) (bytes : list byte) :
  length bytes <= n ->
  forall c, In c (Base64.encode_chars bytes) -> Ascii.eqb c ":" = false.
Proof.
  revert bytes. induction n as [|n IH]; intros bytes Hlen c Hc.
  - destruct bytes; [contradiction | simpl in Hlen; lia].
  - destruct bytes as [|b0 [|b1 [|b2 rest]]].
    + contradiction.
    + simpl in Hc.
      destruct Hc as [<-|[<-|[<-|[<-|[]]]]];
        first [apply base64_digit_char_not_colon | reflexivity].
    + simpl in Hc.
      destruct Hc as [<-|[<-|[<-|[<-|[]]]]];
        first [apply base64_digit_char_not_colon | reflexivity].
    + cbn [Base64.encode_chars] in Hc. apply in_app_or in Hc.
      destruct Hc as [Hc|Hc].
      * simpl in Hc.
        destruct Hc as [<-|[<-|[<-|[<-|[]]]]];
          apply base64_digit_char_not_colon.
      * apply (IH rest); [simpl in Hlen; lia | exact Hc].
Qed.

Lemma base64_encode_no_colon (bytes : list byte) :
  JS.mem ":" (Base64.encode bytes) = false.
Proof.
  unfold Base64.encode. apply mem_string_of_list_none.
  apply (base64_chars_no_colon (length bytes)). lia.
Qed.

Lemma base58_encode_no_colon (bytes : list byte) :
  JS.mem ":" (Base58.encode bytes) = false.
Proof.
  pose proof (base58_decode_encode bytes) as Hdec.
  unfold Base58.decode in Hdec.
  destruct (Base58.values (Base58.encode bytes)) as [vs|] eqn:Hv;
    [|discriminate].
  apply (base58_values_no_colon _ vs Hv).
Qed.

Lemma toString_10_inj (a b : Z) :
  Number.toString a 10 = Number.toString b 10 -> a = b.
Proof.
  intros Heq. unfold Number.toString in Heq.
  assert (Hvalue : forall n m : N,
             Number.digits_string 10 n = Number.digits_string 10 m -> n = m).
  { intros n m Hnm.
    rewrite <- (digits_string_value 10 n), <- (digits_string_value 10 m), Hnm
      by lia. reflexivity. }
  destruct (Z.ltb_spec a 0) as [Ha|Ha], (Z.ltb_spec b 0) as [Hb|Hb].
  - cbn [String.append] in Heq. injection Heq as Heq.
    apply Hvalue in Heq. lia.
  - destruct (digits_string_10_first (Z.to_N b)) as (c & rest & E & Hc).
    rewrite E in Heq. cbn [String.append] in Heq. injection Heq as <- _.
    discriminate Hc.
  - destruct (digits_string_10_first (Z.to_N a)) as (c & rest & E & Hc).
    rewrite E in Heq. cbn [String.append] in Heq. injection Heq as -> _.
    discriminate Hc.
  - apply Hvalue in Heq. lia.
Qed.

(** X17: the nonce of every provider contains no colon, and for nonces
    without a colon the authentication message
    "<did>:<timestamp>:<nonce>" determines the DID, the timestamp and
    the nonce, although a DID contains colons itself: two messages are
    equal only when all three parts are. *)
Theorem auth_message_unambiguous (did did' nonce nonce' : string)
    (timestamp timestamp' : Z) :
  (forall provider entropy,
      JS.mem ":" (McpTools.nonce_for provider entropy) = false)
  /\ (JS.mem ":" nonce = false ->
      JS.mem ":" nonce' = false ->
      AuthBase.buildAuthMessage did (Int timestamp) nonce
      = AuthBase.buildAuthMessage did' (Int timestamp') nonce' ->
      did = did' /\ timestamp = timestamp' /\ nonce = nonce')
  /\ auth_message did timestamp nonce
     = AuthBase.buildAuthMessage did (Int timestamp) nonce.
Proof.
  split; [|split; [|reflexivity]].
  - intros [| |] entropy; cbn [McpTools.nonce_for];
      unfold generateNonce, generateSolanaNonce, generateEvmNonce;
      first [apply base64_encode_no_colon | apply base58_encode_no_colon].
  - unfold AuthBase.buildAuthMessage. intros Hn Hn' Heq.
    assert (Hshape : forall d t n : string,
               d +:+ ":" +:+ t +:+ ":" +:+ n = (d +:+ ":" +:+ t) +:+ ":" +:+ n)
      by (intros; rewrite !append_assoc; reflexivity).
    rewrite !Hshape in Heq.
    destruct (append_colon_inj _ _ _ _ Hn Hn' Heq) as [Hleft ->].
    destruct (append_colon_inj _ _ _ _ (toString_no_colon _ _)
                (toString_no_colon _ _) Hleft) as [-> Hts].
    apply toString_10_inj in Hts. auto.
Qed.

Lemma auth_message_unambiguous_witness :
  "did:key:z6Mk" = "did:key:z6Mk" /\ 17%Z = 17%Z /\ "AAAA" = "AAAA".
Proof.
  apply (proj1 (proj2 (auth_message_unambiguous
                         "did:key:z6Mk" "did:key:z6Mk" "AAAA" "AAAA" 17 17)));
    reflexivity.
Defined.

(** ** utils/did-generator.ts: the base58 encoder of the generator *)

Lemma string_of_list_ascii_app_append (l1 l2 : list ascii) :
  string_of_list_ascii (l1 ++ l2)
  = string_of_list_ascii l1 +:+ string_of_list_ascii l2.
Proof. induction l1 as [|c l1 IH]; simpl; [reflexivity|]. rewrite IH. reflexivity. Qed.

Lemma hex_values_bytesToHex (bytes : list byte) :
  DidGenerator.hex_values (bytesToHex bytes)
  = Some (flat_map (fun b => [Byte.to_N b / 16; Byte.to_N b mod 16]%N) bytes).
Proof.
  induction bytes as [|b bytes IH]; [reflexivity|].
  rewrite bytesToHex_cons. cbn [DidGenerator.hex_values flat_map app].
  pose proof (Byte.to_N_bounded b) as Hb.
  rewrite (digit_value_hex_digit 16 (Byte.to_N b / 16))
    by (try lia; apply N.Div0.div_lt_upper_bound; lia).
  rewrite (digit_value_hex_digit 16 (Byte.to_N b mod 16))
    by (try lia; apply N.mod_lt; lia).
  rewrite IH. reflexivity.
Qed.

Lemma nibbles_value (bytes : list byte) (start : N) :
  fold_left (fun acc d => (acc * 16 + d)%N)
    (flat_map (fun b => [Byte.to_N b / 16; Byte.to_N b mod 16]%N) bytes) start
  = fold_left (fun acc d => (acc * 256 + d)%N) (map Byte.to_N bytes) start.
Proof.
  revert start. induction bytes as [|b bytes IH]; intros start; [reflexivity|].
  cbn [flat_map app map fold_left]. rewrite IH. f_equal.
  pose proof (N.div_mod (Byte.to_N b) 16 ltac:(lia)). lia.
Qed.

Lemma BigInt_0x_bytesToHex (b : byte) (bytes : list byte) :
  DidGenerator.BigInt_0x (bytesToHex (b :: bytes))
  = Ok (Radix.of_digits 256 (map Byte.to_N (b :: bytes))).
Proof.
  pose proof (hex_values_bytesToHex (b :: bytes)) as Hvalues.
  rewrite bytesToHex_cons in *. unfold DidGenerator.BigInt_0x.
  rewrite Hvalues. unfold Radix.of_digits.
  rewrite nibbles_value. reflexivity.
Qed.

Lemma digits_loop_to_digits (fuel : nat) (num : N) (acc : list N) :
  DidGenerator.digits_loop fuel num
    (string_of_list_ascii (map Base58.digit_char acc))
  = string_of_list_ascii
      (map Base58.digit_char (Radix.to_digits_go 58 fuel num acc)).
Proof.
  revert num acc. induction fuel as [|fuel IH]; intros num acc; [reflexivity|].
  cbn [DidGenerator.digits_loop Radix.to_digits_go].
  destruct (N.eqb_spec num 0) as [->|Hnz].
  - reflexivity.
  - destruct (N.ltb_spec 0 num) as [_|Hz]; [|lia].
    apply (IH (num / 58)%N ((num mod 58)%N :: acc)).
Qed.

Lemma byte_eqb_sym (a b : byte) : Byte.eqb a b = Byte.eqb b a.
Proof.
  destruct (Byte.eqb a b) eqn:Hab.
  - apply Byte.byte_dec_bl in Hab. subst b. symmetry. apply Byte.byte_dec_lb.
    reflexivity.
  - destruct (Byte.eqb b a) eqn:Hba; [|reflexivity].
    apply Byte.byte_dec_bl in Hba. subst b.
    rewrite (Byte.byte_dec_lb eq_refl) in Hab. discriminate.
Qed.

Lemma ones_shift (k : nat) (result : string) :
  string_of_list_ascii (repeat "1"%char k) +:+ String "1" result
  = String "1" (string_of_list_ascii (repeat "1"%char k) +:+ result).
Proof. induction k as [|k IH]; simpl; [reflexivity|]. rewrite IH. reflexivity. Qed.

Lemma leading_ones_count (bytes : list byte) (result : string) :
  DidGenerator.leading_ones bytes result
  = string_of_list_ascii
      (repeat "1"%char (Base58.count_leading (Byte.eqb x00) bytes))
    +:+ result.
Proof.
  revert result. induction bytes as [|b bytes IH]; intros result;
    [reflexivity|].
  cbn [DidGenerator.leading_ones Base58.count_leading].
  rewrite (byte_eqb_sym b x00). destruct (Byte.eqb x00 b); [|reflexivity].
  rewrite IH, ones_shift. reflexivity.
Qed.

Lemma bytesToBase58_encode (b : byte) (bytes : list byte) :
  DidGenerator.bytesToBase58 (b :: bytes) = Ok (Base58.encode (b :: bytes)).
Proof.
  unfold DidGenerator.bytesToBase58. rewrite BigInt_0x_bytesToHex.
  cbn [bindR]. rewrite leading_ones_count.
  change EmptyString with (string_of_list_ascii (map Base58.digit_char [])).
  rewrite digits_loop_to_digits.
  unfold Base58.encode, Radix.to_digits.
  rewrite string_of_list_ascii_app_append. reflexivity.
Qed.

(** X18: the generator's own base58 encoder agrees with bs58 on every
    byte string that is not empty (so bs58 decodes what it encodes),
    and throws on the empty one, whose hexadecimal form "0x" is no
    BigInt literal. *)
Theorem bytesToBase58_agrees_with_bs58 (bytes : list byte) :
  (bytes <> [] ->
   DidGenerator.bytesToBase58 bytes = Ok (Base58.encode bytes)
   /\ bindR (DidGenerator.bytesToBase58 bytes) Base58.decode = Ok bytes)
  /\ DidGenerator.bytesToBase58 [] = Throw "Cannot convert 0x to a BigInt".
Proof.
  split; [|reflexivity]. intros Hne.
  destruct bytes as [|b bytes]; [contradiction|].
  rewrite bytesToBase58_encode. split; [reflexivity|].
  cbn [bindR]. apply base58_decode_encode.
Qed.

Lemma bytesToBase58_agrees_with_bs58_witness :
  DidGenerator.bytesToBase58 [x00; x00; x01] = Ok (Base58.encode [x00; x00; x01])
  /\ bindR (DidGenerator.bytesToBase58 [x00; x00; x01]) Base58.decode
     = Ok [x00; x00; x01].
Proof.
  apply (proj1 (bytesToBase58_agrees_with_bs58 [x00; x00; x01])).
  discriminate.
Defined.

(** ** utils/did-generator.ts: the shape of a generated DID *)

Lemma of_digits_app (radix : N) (l1 l2 : list N) :
  Radix.of_digits radix (l1 ++ l2)
  = (Radix.of_digits radix l1 * radix ^ N.of_nat (length l2)
     + Radix.of_digits radix l2)%N.
Proof.
  unfold Radix.of_digits at 1. rewrite fold_left_app.
  apply of_digits_from.
Qed.

Lemma of_digits_bound (radix : N) (ds : list N) :
  (1 <= radix)%N ->
  Forall (fun d => (d < radix)%N) ds ->
  (Radix.of_digits radix ds < radix ^ N.of_nat (length ds))%N.
Proof.
  intros Hradix. induction 1 as [|d ds Hd _ IH].
  - cbn. lia.
  - rewrite of_digits_cons. cbn [length].
    rewrite Nat2N.inj_succ, N.pow_succ_r'. nia.
Qed.

Lemma canonical_length_le (radix : N) (ds : list N) (k : nat) :
  (2 <= radix)%N ->
  Radix.canonical radix ds ->
  (Radix.of_digits radix ds < radix ^ N.of_nat k)%N ->
  length ds <= k.
Proof.
  intros Hradix [_ Hhead] Hvalue. destruct ds as [|h rest]; [simpl; lia|].
  specialize (Hhead h rest eq_refl). rewrite of_digits_cons in Hvalue.
  cbn [length]. destruct (Nat.le_gt_cases (S (length rest)) k) as [|Hgt];
    [assumption|exfalso].
  assert (Hpow : (radix ^ N.of_nat k <= radix ^ N.of_nat (length rest))%N)
    by (apply N.pow_le_mono_r; lia).
  nia.
Qed.

Lemma Forall_repeat_zero (radix : N) (k : nat) :
  (1 <= radix)%N -> Forall (fun d => (d < radix)%N) (repeat 0%N k).
Proof.
  intros Hradix. induction k as [|k IH]; simpl; constructor; [lia|exact IH].
Qed.

(** the leading digits of a number that lies in the range they span *)
Lemma to_digits_top (radix n : N) (top : list N) (k : nat) :
  (2 <= radix)%N ->
  Radix.canonical radix top -> top <> [] ->
  (Radix.of_digits radix top * radix ^ N.of_nat k <= n)%N ->
  (n < (Radix.of_digits radix top + 1) * radix ^ N.of_nat k)%N ->
  exists rest, Radix.to_digits radix n = top ++ rest /\ length rest = k.
Proof.
  intros Hradix [Hall Hhead] Hne Hlo Hhi.
  set (V := Radix.of_digits radix top) in *.
  set (low := Radix.to_digits radix (n - V * radix ^ N.of_nat k)).
  pose proof (to_digits_canonical radix (n - V * radix ^ N.of_nat k) Hradix)
    as Hlow.
  pose proof (to_digits_value radix (n - V * radix ^ N.of_nat k) Hradix)
    as Hlowv.
  fold low in Hlow, Hlowv.
  assert (Hlen : length low <= k).
  { apply (canonical_length_le radix low k Hradix Hlow). rewrite Hlowv. lia. }
  exists (repeat 0%N (k - length low) ++ low). split.
  - assert (Hvalue : Radix.of_digits radix
                       (top ++ repeat 0%N (k - length low) ++ low) = n).
    { rewrite of_digits_app, of_digits_leading_zeros, Hlowv.
      rewrite length_app, repeat_length.
      replace (k - length low + length low) with k by lia. fold V. lia. }
    rewrite <- Hvalue at 1. apply to_digits_of_digits; [exact Hradix|].
    split.
    + apply Forall_app. split; [exact Hall|].
      apply Forall_app. split; [apply Forall_repeat_zero; lia | apply Hlow].
    + intros d rest Heq. destruct top as [|h t]; [contradiction|].
      injection Heq as <- _. apply (Hhead h t eq_refl).
  - rewrite length_app, repeat_length. lia.
Qed.

Lemma bytes_value_bound (bytes : list byte) :
  (Radix.of_digits 256 (map Byte.to_N bytes) < 256 ^ N.of_nat (length bytes))%N.
Proof.
  rewrite <- (length_map Byte.to_N bytes).
  apply of_digits_bound; [lia|].
  apply List.Forall_forall. intros d Hd. apply in_map_iff in Hd.
  destruct Hd as (b & <- & _). pose proof (Byte.to_N_bounded b). lia.
Qed.

Lemma did_key_digits (publicKeyBytes : list byte) :
  length publicKeyBytes = 32 ->
  exists rest,
    Radix.to_digits 58
      (Radix.of_digits 256 (map Byte.to_N (xed :: x01 :: publicKeyBytes)))
    = [5; 20; 43]%N ++ rest
    /\ length rest = 44.
Proof.
  intros Hlen. pose proof (bytes_value_bound publicKeyBytes) as Hv.
  rewrite Hlen in Hv.
  cbn [map]. rewrite !of_digits_cons. cbn [length]. rewrite length_map, Hlen.
  set (v := Radix.of_digits 256 (map Byte.to_N publicKeyBytes)) in *.
  change (Byte.to_N xed) with 237%N. change (Byte.to_N x01) with 1%N.
  assert (Hlo : (18023 * 58 ^ 44 <= 60673 * 256 ^ 32)%N)
    by (apply N.leb_le; vm_compute; reflexivity).
  assert (Hhi : (60674 * 256 ^ 32 <= 18024 * 58 ^ 44)%N)
    by (apply N.leb_le; vm_compute; reflexivity).
  assert (H33 : (256 ^ N.of_nat 33 = 256 * 256 ^ 32)%N) by reflexivity.
  assert (H32 : (256 ^ N.of_nat 32 = 256 ^ 32)%N) by reflexivity.
  assert (H44 : (58 ^ N.of_nat 44 = 58 ^ 44)%N) by reflexivity.
  apply (to_digits_top 58 _ [5; 20; 43]%N 44).
  - lia.
  - split; [repeat constructor; lia | intros d rest [= <- _]; lia].
  - discriminate.
  - change (Radix.of_digits 58 [5; 20; 43]%N) with 18023%N.
    rewrite H33, H32 in *. rewrite H44. lia.
  - change (Radix.of_digits 58 [5; 20; 43]%N) with 18023%N.
    rewrite H33, H32 in *. rewrite H44. lia.
Qed.

(** X19: for a public key of 32 bytes [createDidKey] returns a DID that
    starts with "did:key:z6Mk" and goes on with 44 more base58
    characters.  It is detected as [key]; and [extractPublicKeyFromDID]
    returns [null] on it, as on every string. *)
Theorem createDidKey_z6Mk (publicKeyBytes : list byte) :
  length publicKeyBytes = 32 ->
  exists suffix,
    DidGenerator.createDidKey publicKeyBytes = Ok ("did:key:z6Mk" +:+ suffix)
    /\ String.length suffix = 44
    /\ Base58.decode ("6Mk" +:+ suffix) = Ok (xed :: x01 :: publicKeyBytes)
    /\ detectDidProvider ("did:key:z6Mk" +:+ suffix) = Ok key
    /\ extractPublicKeyFromDID ("did:key:z6Mk" +:+ suffix) = None.
Proof.
  intros Hlen. destruct (did_key_digits publicKeyBytes Hlen)
    as (rest & Hdigits & Hrest).
  exists (string_of_list_ascii (map Base58.digit_char rest)).
  assert (Hencode : Base58.encode (xed :: x01 :: publicKeyBytes)
                    = "6Mk" +:+ string_of_list_ascii
                                  (map Base58.digit_char rest)).
  { unfold Base58.encode. rewrite Hdigits. reflexivity. }
  unfold DidGenerator.createDidKey. cbn [app].
  rewrite bytesToBase58_encode, Hencode. cbn [bindR].
  split; [reflexivity|]. split; [|split; [|split]].
  - rewrite <- (length_map Base58.digit_char rest) in Hrest.
    rewrite <- Hrest. clear.
    induction (map Base58.digit_char rest) as [|c l IH]; simpl; congruence.
  - rewrite <- Hencode. apply base58_decode_encode.
  - reflexivity.
  - apply extractPublicKeyFromDID_always_null.
Qed.

Lemma createDidKey_z6Mk_witness :
  exists suffix,
    DidGenerator.createDidKey (repeat x00 32) = Ok ("did:key:z6Mk" +:+ suffix)
    /\ String.length suffix = 44
    /\ Base58.decode ("6Mk" +:+ suffix) = Ok (xed :: x01 :: repeat x00 32)
    /\ detectDidProvider ("did:key:z6Mk" +:+ suffix) = Ok key
    /\ extractPublicKeyFromDID ("did:key:z6Mk" +:+ suffix) = None.
Proof. apply (createDidKey_z6Mk (repeat x00 32)). reflexivity. Defined.

(** ** The generated key pair as credentials *)

Lemma generic_env_lookup (did privateKey : string) (p : DidProvider) :
  Spec.did_of {[ "AGENT_DID" := did; "AGENT_PRIVATE_KEY" := privateKey ]} p
  = Some did
  /\ Spec.key_of {[ "AGENT_DID" := did; "AGENT_PRIVATE_KEY" := privateKey ]} p
     = Some privateKey.
Proof.
  assert (Hd : ({[ "AGENT_DID" := did; "AGENT_PRIVATE_KEY" := privateKey ]}
                : gmap string string) !! "AGENT_DID" = Some did)
    by apply lookup_insert_eq.
  assert (Hk : ({[ "AGENT_DID" := did; "AGENT_PRIVATE_KEY" := privateKey ]}
                : gmap string string) !! "AGENT_PRIVATE_KEY" = Some privateKey)
    by (rewrite lookup_insert_ne by done; apply lookup_singleton_eq).
  assert (Hnone : forall name : string,
             name <> "AGENT_DID" -> name <> "AGENT_PRIVATE_KEY" ->
             ({[ "AGENT_DID" := did; "AGENT_PRIVATE_KEY" := privateKey ]}
              : gmap string string) !! name = None).
  { intros name H1 H2. rewrite lookup_insert_ne by congruence.
    apply lookup_singleton_ne. congruence. }
  destruct p; unfold Spec.did_of, Spec.key_of, Spec.read_or;
    rewrite ?Hnone by discriminate; auto.
Qed.

Lemma did_key_checks (rest : string) :
  JS.truthy ("did:key:z" +:+ rest) = true
  /\ Spec.did_ok solana ("did:key:z" +:+ rest) = false
  /\ Spec.did_ok evm ("did:key:z" +:+ rest) = false
  /\ Spec.did_ok key ("did:key:z" +:+ rest) = true.
Proof.
  split; [reflexivity|]. split; [reflexivity|]. split; [|reflexivity].
  cbn [Spec.did_ok].
  replace (Spec.evm_did_ok ("did:key:z" +:+ rest)) with false by reflexivity.
  unfold Ethers.isAddress, Ethers.match_hex40.
  replace (JS.startsWith ("did:key:z" +:+ rest) "0x") with false by reflexivity.
  replace (Ethers.all_chars Ethers.is_hex ("did:key:z" +:+ rest)) with false
    by reflexivity.
  rewrite andb_false_r. reflexivity.
Qed.

Lemma resolve_generic_key (did hex : string) :
  JS.truthy did = true -> JS.truthy hex = true ->
  Spec.did_ok solana did = false ->
  Spec.did_ok evm did = false ->
  Spec.did_ok key did = true ->
  Spec.resolve {[ "AGENT_DID" := did; "AGENT_PRIVATE_KEY" := hex ]} None
  = Some {| cred_did := did; cred_privateKey := hex; cred_provider := key |}.
Proof.
  intros Htruthy Hhex Hsolana Hevm Hkey.
  unfold Spec.resolve. rewrite !first_branch_cons.
  unfold Spec.first_branch, hint_allows, Spec.branch.
  destruct (generic_env_lookup did hex solana) as [-> ->].
  destruct (generic_env_lookup did hex evm) as [-> ->].
  destruct (generic_env_lookup did hex key) as [-> ->].
  rewrite Htruthy, Hhex, Hsolana, Hevm, Hkey. reflexivity.
Qed.

(** X20: the pair that [generateDidKeyPair] returns works as the
    generic credentials: with its DID in AGENT_DID and its private key
    in AGENT_PRIVATE_KEY, resolution without a hint returns them with
    provider [key], and [hexToBytes] of the private key is the secret
    key that was drawn. *)
Theorem generateDidKeyPair_resolves
    (getPublicKeyAsync : list byte -> Res (list byte)) (entropy : nat -> byte)
    (pair : DidGenerator.DidKeyPair) :
  DidGenerator.generateDidKeyPair getPublicKeyAsync entropy = Ok pair ->
  getCredentialsFromEnv
    {[ "AGENT_DID" := DidGenerator.pair_did pair;
       "AGENT_PRIVATE_KEY" := DidGenerator.pair_privateKeyHex pair ]} None
  = Ok (Some {| cred_did := DidGenerator.pair_did pair;
                cred_privateKey := DidGenerator.pair_privateKeyHex pair;
                cred_provider := key |})
  /\ hexToBytes (DidGenerator.pair_privateKeyHex pair) = random_bytes entropy 32
  /\ detectDidProvider (DidGenerator.pair_did pair) = Ok key.
Proof.
  unfold DidGenerator.generateDidKeyPair, DidGenerator.createDidKey.
  destruct (getPublicKeyAsync (random_bytes entropy 32)) as [publicKey|e];
    cbn [bindR]; [|discriminate].
  cbn [app]. rewrite bytesToBase58_encode. cbn [bindR].
  intros [= <-].
  cbn [DidGenerator.pair_did DidGenerator.pair_privateKeyHex].
  destruct (did_key_checks (Base58.encode (xed :: x01 :: publicKey)))
    as (Htruthy & Hsolana & Hevm & Hkey).
  split; [|split].
  - rewrite getCredentialsFromEnv_resolve. f_equal.
    apply resolve_generic_key; first [assumption | reflexivity].
  - unfold hexToBytes. rewrite bytesToHex_length, half_of_double.
    apply hexToBytes_loop_bytesToHex.
  - reflexivity.
Qed.

Lemma generateDidKeyPair_resolves_witness :
  exists pair,
    DidGenerator.generateDidKeyPair sample_getPublicKey (fun _ => x00) = Ok pair
    /\ getCredentialsFromEnv
         {[ "AGENT_DID" := DidGenerator.pair_did pair;
            "AGENT_PRIVATE_KEY" := DidGenerator.pair_privateKeyHex pair ]} None
       = Ok (Some {| cred_did := DidGenerator.pair_did pair;
                     cred_privateKey := DidGenerator.pair_privateKeyHex pair;
                     cred_provider := key |})
    /\ hexToBytes (DidGenerator.pair_privateKeyHex pair)
       = random_bytes (fun _ => x00) 32
    /\ detectDidProvider (DidGenerator.pair_did pair) = Ok key.
Proof.
  eexists. split.
  - vm_compute. reflexivity.
  - apply (generateDidKeyPair_resolves sample_getPublicKey (fun _ => x00)).
    vm_compute. reflexivity.
Defined.

(** ** Resolution and detection together *)

Lemma is_digit_not_colon (c : ascii) :
  Ethers.is_digit c = true -> Ascii.eqb c ":" = false.
Proof. destruct c as [[] [] [] [] [] [] [] []]; vm_compute; congruence. Qed.

Lemma is_alnum_not_colon (c : ascii) :
  Ethers.is_alnum c = true -> Ascii.eqb c ":" = false.
Proof. destruct c as [[] [] [] [] [] [] [] []]; vm_compute; congruence. Qed.

Lemma all_alnum_no_colon (s : string) :
  Ethers.all_chars Ethers.is_alnum s = true -> JS.mem ":" s = false.
Proof.
  induction s as [|c s IH]; simpl; [reflexivity|].
  intros Hs. apply andb_true_iff in Hs. destruct Hs as [Hc Hs].
  rewrite (is_alnum_not_colon c Hc), (IH Hs). reflexivity.
Qed.

Lemma icap_no_colon (value : string) :
  Ethers.match_icap value = true -> JS.mem ":" value = false.
Proof.
  unfold Ethers.match_icap. intros Hm.
  apply andb_true_iff in Hm. destruct Hm as [Hm Hrest].
  apply andb_true_iff in Hm. destruct Hm as [Hm Hlen].
  apply andb_true_iff in Hm. destruct Hm as [Hprefix Hdigits].
  apply andb_true_iff in Hrest. destruct Hrest as [_ Halnum].
  destruct (startsWith_inv _ _ Hprefix) as [t ->].
  destruct t as [|c2 [|c3 t]]; try discriminate Hlen.
  cbn [String.append String.substring JS.slice] in *.
  rewrite substring_0_0 in Hdigits. cbn [Ethers.all_chars] in Hdigits.
  apply andb_true_iff in Hdigits. destruct Hdigits as [Hc2 Hc3].
  apply andb_true_iff in Hc3. destruct Hc3 as [Hc3 _].
  cbn [JS.mem]. rewrite (is_digit_not_colon c2 Hc2), (is_digit_not_colon c3 Hc3).
  rewrite (all_alnum_no_colon t Halnum). reflexivity.
Qed.

Lemma isAddress_no_colon (value : string) :
  Ethers.isAddress value = true -> JS.mem ":" value = false.
Proof.
  unfold Ethers.isAddress.
  destruct (Ethers.match_hex40 value) eqn:Hhex.
  - intros _. apply (hex40_lower_valid value Hhex).
  - destruct (Ethers.match_icap value) eqn:Hicap; [|discriminate].
    intros _. apply (icap_no_colon value Hicap).
Qed.

(** ** Resolution order and the hint *)

Lemma solana_did_checks (did : string) :
  Spec.solana_did_ok did = true ->
  JS.truthy did = true
  /\ Spec.did_ok solana did = true
  /\ Spec.did_ok evm did = false
  /\ Spec.did_ok key did = false.
Proof.
  intros Hdid. split; [exact (solana_did_ok_truthy _ Hdid)|].
  cbn [Spec.did_ok]. rewrite Hdid. split; [reflexivity|].
  unfold Spec.solana_did_ok in Hdid. apply andb_true_iff in Hdid.
  destruct Hdid as [Hprefix _].
  destruct (startsWith_inv _ _ Hprefix) as [rest ->].
  split; [|reflexivity].
  destruct (Ethers.isAddress ("did:pkh:solana:" +:+ rest)) eqn:Haddr.
  - apply isAddress_no_colon in Haddr. discriminate Haddr.
  - reflexivity.
Qed.

(** C4: resolution checks Solana, then EVM, then key, each only when
    the hint is unset or names that provider; the first branch whose
    DID and key are present and whose DID validates wins, and the result
    is [null] when none does.  So with a hint the result is that of the
    hinted provider's branch alone.  In particular an environment with
    only AGENT_DID, a valid Solana did:pkh, and AGENT_PRIVATE_KEY, any
    non-empty value, resolves to provider [solana] without a hint and
    under the hint [solana], and to [null] under the hints [evm] and
    [key]. *)
Theorem getCredentialsFromEnv_order (env : gmap string string)
    (hint : option DidProvider) :
  getCredentialsFromEnv env hint = Ok (Spec.resolve env hint)
  /\ (forall p, hint = Some p ->
        getCredentialsFromEnv env hint = Ok (Spec.branch env p))
  /\ forall did privateKey : string,
      isValidSolanaDid did = Ok true ->
      privateKey <> "" ->
      getCredentialsFromEnv
        {[ "AGENT_DID" := did; "AGENT_PRIVATE_KEY" := privateKey ]} hint
      = Ok (match hint with
            | None | Some solana =>
                Some {| cred_did := did; cred_privateKey := privateKey;
                        cred_provider := solana |}
            | Some _ => None
            end).
Proof.
  split; [apply getCredentialsFromEnv_resolve|]. split.
  - intros p ->. rewrite getCredentialsFromEnv_resolve.
    unfold Spec.resolve. rewrite !first_branch_cons. cbn [Spec.first_branch].
    destruct p; cbn [hint_allows DidProvider_eqb];
      destruct (Spec.branch env _); reflexivity.
  - intros did privateKey Hdid Hkey.
    rewrite getCredentialsFromEnv_resolve.
    rewrite isValidSolanaDid_total in Hdid. injection Hdid as Hdid.
    apply truthy_ne in Hkey.
    destruct (solana_did_checks did Hdid) as (Htruthy & Hsolana & Hevm & Hk).
    assert (Hbranch : forall p,
               Spec.branch
                 {[ "AGENT_DID" := did; "AGENT_PRIVATE_KEY" := privateKey ]} p
               = if Spec.did_ok p did
                 then Some {| cred_did := did; cred_privateKey := privateKey;
                              cred_provider := p |}
                 else None).
    { intros p. unfold Spec.branch.
      destruct (generic_env_lookup did privateKey p) as [-> ->].
      rewrite Htruthy, Hkey. reflexivity. }
    unfold Spec.resolve. rewrite !first_branch_cons. cbn [Spec.first_branch].
    rewrite !Hbranch, Hsolana, Hevm, Hk.
    destruct hint as [[| |]|]; reflexivity.
Qed.

Lemma getCredentialsFromEnv_order_witness :
  getCredentialsFromEnv
    {[ "AGENT_DID" :=
         "did:pkh:solana:4sGjMW1sUnHzSxGspuhpqLDx6wiyjNtZ:11111111111111111111111111111111";
       "AGENT_PRIVATE_KEY" :=
         "1111111111111111111111111111111111111111111111111111111111111111" ]}
    None
  = Ok (Some {| cred_did :=
                  "did:pkh:solana:4sGjMW1sUnHzSxGspuhpqLDx6wiyjNtZ:11111111111111111111111111111111";
                cred_privateKey :=
                  "1111111111111111111111111111111111111111111111111111111111111111";
                cred_provider := solana |})
  /\ getCredentialsFromEnv
       {[ "AGENT_DID" :=
            "did:pkh:solana:4sGjMW1sUnHzSxGspuhpqLDx6wiyjNtZ:11111111111111111111111111111111";
          "AGENT_PRIVATE_KEY" :=
            "1111111111111111111111111111111111111111111111111111111111111111" ]}
       (Some key)
     = Ok None.
Proof.
  split.
  - apply (proj2 (proj2 (getCredentialsFromEnv_order ∅ None))).
    + vm_compute. reflexivity.
    + discriminate.
  - apply (proj2 (proj2 (getCredentialsFromEnv_order ∅ (Some key)))).
    + vm_compute. reflexivity.
    + discriminate.
Defined.

Lemma no_colon_no_prefix (s p : string) :
  JS.mem ":" s = false -> JS.mem ":" p = true -> JS.startsWith s p = false.
Proof.
  intros Hs Hp. destruct (JS.startsWith s p) eqn:Hsp; [|reflexivity].
  destruct (startsWith_inv _ _ Hsp) as [t ->].
  rewrite mem_app, Hp in Hs. discriminate.
Qed.

Lemma detectDidProvider_no_colon (did : string) :
  JS.mem ":" did = false ->
  detectDidProvider did
  = Ok (if Spec.base58_32_bytes did then solana
        else if Ethers.isAddress did then evm else key).
Proof.
  intros Hcolon. unfold detectDidProvider.
  rewrite !(no_colon_no_prefix did) by (assumption || reflexivity).
  cbn [orb]. rewrite isValidSolanaAddress_total. cbn [bindR].
  destruct (Spec.base58_32_bytes did); [reflexivity|].
  rewrite isValidEvmAddress_total. cbn [bindR].
  destruct (Ethers.isAddress did); reflexivity.
Qed.

Lemma detectDidProvider_prefixed (did : string) :
  (JS.startsWith did "did:key:" = true -> detectDidProvider did = Ok key)
  /\ (JS.startsWith did "did:pkh:solana:" = true ->
      detectDidProvider did = Ok solana)
  /\ (JS.startsWith did "did:ethr:" = true -> detectDidProvider did = Ok evm)
  /\ (JS.startsWith did "did:pkh:eip155:" = true ->
      detectDidProvider did = Ok evm).
Proof.
  repeat split; intros Hp; destruct (startsWith_inv _ _ Hp) as [t ->];
    reflexivity.
Qed.

(** X21: the provider of a credential that [getCredentialsFromEnv]
    returns is the provider that [detectDidProvider] finds in its DID,
    with one exception: an [evm] credential whose DID is a raw address
    that is also the base58 form of 32 bytes is detected as [solana]. *)
Theorem resolved_provider_is_detected (env : gmap string string)
    (hint : option DidProvider) (c : Credentials) :
  getCredentialsFromEnv env hint = Ok (Some c) ->
  detectDidProvider (cred_did c) = Ok (cred_provider c)
  \/ (cred_provider c = evm
      /\ Ethers.isAddress (cred_did c) = true
      /\ Spec.base58_32_bytes (cred_did c) = true
      /\ detectDidProvider (cred_did c) = Ok solana).
Proof.
  intros Hc. rewrite getCredentialsFromEnv_resolve in Hc. injection Hc as Hc.
  apply first_branch_inv in Hc. destruct Hc as (p & _ & _ & Hb).
  apply branch_inv in Hb. destruct Hb as (Hp & _ & _ & _ & Hok).
  rewrite Hp. destruct (detectDidProvider_prefixed (cred_did c))
    as (Hkey & Hsolana & Hethr & Hpkh).
  destruct p; cbn [Spec.did_ok] in Hok.
  - left. apply Hkey, Hok.
  - left. apply orb_true_iff in Hok. destruct Hok as [Hdid|Hraw].
    + apply Hsolana. unfold Spec.solana_did_ok in Hdid.
      apply andb_true_iff in Hdid. apply Hdid.
    + rewrite (detectDidProvider_no_colon _ (base58_32_no_colon _ Hraw)), Hraw.
      reflexivity.
  - apply orb_true_iff in Hok. destruct Hok as [Hdid|Hraw].
    + left. unfold Spec.evm_did_ok in Hdid.
      destruct (JS.startsWith (cred_did c) "did:ethr:") eqn:He;
        [apply Hethr; reflexivity|].
      destruct (JS.startsWith (cred_did c) "did:pkh:eip155:") eqn:Hk;
        [apply Hpkh; reflexivity | discriminate].
    + rewrite (detectDidProvider_no_colon _ (isAddress_no_colon _ Hraw)), Hraw.
      destruct (Spec.base58_32_bytes (cred_did c)) eqn:Hb58.
      * right. auto.
      * left. reflexivity.
Qed.

Lemma resolved_provider_is_detected_witness :
  detectDidProvider "1111111111ffffffffffffffffffffffffffffff" = Ok evm
  \/ (evm = evm
      /\ Ethers.isAddress "1111111111ffffffffffffffffffffffffffffff" = true
      /\ Spec.base58_32_bytes "1111111111ffffffffffffffffffffffffffffff" = true
      /\ detectDidProvider "1111111111ffffffffffffffffffffffffffffff"
         = Ok solana).
Proof.
  apply (resolved_provider_is_detected sample_ambiguous_env None
           {| cred_did := "1111111111ffffffffffffffffffffffffffffff";
              cred_privateKey := "0x01"; cred_provider := evm |}).
  vm_compute. reflexivity.
Defined.

(** the exception of X21 occurs *)
Example resolved_provider_ambiguous :
  getCredentialsFromEnv sample_ambiguous_env None
  = Ok (Some {| cred_did := "1111111111ffffffffffffffffffffffffffffff";
                cred_privateKey := "0x01"; cred_provider := evm |})
  /\ detectDidProvider "1111111111ffffffffffffffffffffffffffffff" = Ok solana.
Proof. split; vm_compute; reflexivity. Qed.

Lemma resolve_with_hint (env : gmap string string) (p : DidProvider) :
  Spec.resolve env (Some p) = Spec.branch env p.
Proof.
  unfold Spec.resolve. rewrite !first_branch_cons. cbn [Spec.first_branch].
  destruct p; cbn [hint_allows DidProvider_eqb];
    destruct (Spec.branch env _); reflexivity.
Qed.

(** X22: a provider hint restricts resolution to that provider's
    branch.  A credential returned under a hint has the hinted
    provider; a credential returned without a hint is returned again
    under the hint of its own provider; and when resolution succeeds
    under some hint it succeeds without one, possibly for an earlier
    provider. *)
Theorem getCredentialsFromEnv_hint (env : gmap string string)
    (p : DidProvider) (c : Credentials) :
  (getCredentialsFromEnv env (Some p) = Ok (Some c) -> cred_provider c = p)
  /\ (getCredentialsFromEnv env None = Ok (Some c) ->
      getCredentialsFromEnv env (Some (cred_provider c)) = Ok (Some c))
  /\ (getCredentialsFromEnv env (Some p) = Ok (Some c) ->
      exists c', getCredentialsFromEnv env None = Ok (Some c')).
Proof.
  rewrite !getCredentialsFromEnv_resolve, !resolve_with_hint.
  split; [|split].
  - intros [= Hb]. apply branch_inv in Hb. apply Hb.
  - intros [= Hc]. apply first_branch_inv in Hc.
    destruct Hc as (q & _ & _ & Hb).
    pose proof (branch_inv _ _ _ Hb) as (Hq & _). rewrite Hq, Hb. reflexivity.
  - intros [= Hb]. unfold Spec.resolve. rewrite !first_branch_cons.
    cbn [hint_allows Spec.first_branch].
    destruct (Spec.branch env solana) as [c1|] eqn:H1; [eauto|].
    destruct (Spec.branch env evm) as [c2|] eqn:H2; [eauto|].
    destruct (Spec.branch env key) as [c3|] eqn:H3; [eauto|].
    destruct p; congruence.
Qed.

Lemma getCredentialsFromEnv_hint_witness :
  (evm = evm)
  /\ getCredentialsFromEnv sample_evm_env (Some evm)
     = Ok (Some {| cred_did := "0x742d35cc6634c0532925a3b844bc9e7595f0beb0";
                   cred_privateKey := "not a key"; cred_provider := evm |})
  /\ exists c', getCredentialsFromEnv sample_evm_env None = Ok (Some c').
Proof.
  pose proof (getCredentialsFromEnv_hint sample_evm_env evm
                {| cred_did := "0x742d35cc6634c0532925a3b844bc9e7595f0beb0";
                   cred_privateKey := "not a key"; cred_provider := evm |})
    as (Hprov & Hagain & Hany).
  split; [|split].
  - apply Hprov. vm_compute. reflexivity.
  - apply Hagain. vm_compute. reflexivity.
  - apply Hany. vm_compute. reflexivity.
Defined.

(** ** The two tools agree *)

(** X23: the signature in a payload of [generate_auth_payload] is the
    one a later call of [create_did_signature] in the same environment
    returns for the message "<did>:<timestamp>:<nonce>" built from the
    payload, with the same DID and provider, whatever the clock and
    the entropy source have become: in the listings that read the
    environment only, and in the first listing.  There the nonce that
    [create_did_signature] reports is drawn anew at the later call; it
    is not the payload's, which is part of the message. *)
Theorem create_did_signature_of_payload `{Crypto} (rt later : Runtime)
    (hint : option DidProvider) (args : ToolArgs) (payload : AuthPayload) :
  rt_env later = rt_env rt ->
  (McpToolsEnv.generate_auth_payload_try rt hint = Ok payload ->
   McpSign.create_did_signature_env_try later
     (AuthBase.buildAuthMessage (payload_did payload)
        (Int (payload_timestamp payload)) (payload_nonce payload)) hint
   = Ok {| signed_did := payload_did payload;
           signed_message :=
             AuthBase.buildAuthMessage (payload_did payload)
               (Int (payload_timestamp payload)) (payload_nonce payload);
           signed_nonce := None;
           signed_signature := payload_signature payload;
           signed_provider := payload_provider payload |})
  /\ (McpTools.generate_auth_payload_try rt args = Ok payload ->
      McpSign.create_did_signature_try later
        (AuthBase.buildAuthMessage (payload_did payload)
           (Int (payload_timestamp payload)) (payload_nonce payload)) args
      = Ok {| signed_did := payload_did payload;
              signed_message :=
                AuthBase.buildAuthMessage (payload_did payload)
                  (Int (payload_timestamp payload)) (payload_nonce payload);
              signed_nonce :=
                Some (McpTools.nonce_for (payload_provider payload)
                        (rt_entropy later));
              signed_signature := payload_signature payload;
              signed_provider := payload_provider payload |}).
Proof.
  intros Henv. split.
  - unfold McpToolsEnv.generate_auth_payload_try,
      McpSign.create_did_signature_env_try. rewrite Henv.
    destruct (getCredentialsFromEnv (rt_env rt) hint) as [[c|]|e];
      cbn [bindR]; try discriminate.
    destruct (sign_with (cred_provider c) _ (cred_privateKey c))
      as [signature|e] eqn:Hsign; cbn [bindR]; [|discriminate].
    intros [= <-].
    cbn [payload_did payload_timestamp payload_nonce payload_signature
           payload_provider].
    change (AuthBase.buildAuthMessage (cred_did c) (Int (rt_now rt))
              (generateNonce (rt_entropy rt)))
      with (auth_message (cred_did c) (rt_now rt)
              (generateNonce (rt_entropy rt))).
    rewrite Hsign. reflexivity.
  - unfold McpTools.generate_auth_payload_try,
      McpSign.create_did_signature_try.
    assert (Hresolve : McpTools.resolve later args = McpTools.resolve rt args)
      by (unfold McpTools.resolve; rewrite Henv; reflexivity).
    rewrite Hresolve.
    destruct (McpTools.resolve rt args) as [[[did privateKey] provider]|e];
      cbn [bindR]; [|discriminate].
    destruct (match provider with
              | Some p => Ok p
              | None => detectDidProvider did
              end) as [p|e]; cbn [bindR]; [|discriminate].
    destruct (sign_with p _ privateKey) as [signature|e] eqn:Hsign;
      cbn [bindR]; [|discriminate].
    intros [= <-].
    cbn [payload_did payload_timestamp payload_nonce payload_signature
           payload_provider].
    change (AuthBase.buildAuthMessage did (Int (rt_now rt))
              (McpTools.nonce_for p (rt_entropy rt)))
      with (auth_message did (rt_now rt)
              (McpTools.nonce_for p (rt_entropy rt))).
    rewrite Hsign. reflexivity.
Qed.

Lemma create_did_signature_of_payload_witness :
  @McpSign.create_did_signature_try test_crypto sample_later_runtime
    (AuthBase.buildAuthMessage (payload_did sample_solana_payload_base58)
       (Int (payload_timestamp sample_solana_payload_base58))
       (payload_nonce sample_solana_payload_base58))
    {| arg_did := None; arg_privateKey := None; arg_provider := None |}
  = Ok {| signed_did := payload_did sample_solana_payload_base58;
          signed_message :=
            AuthBase.buildAuthMessage
              (payload_did sample_solana_payload_base58)
              (Int (payload_timestamp sample_solana_payload_base58))
              (payload_nonce sample_solana_payload_base58);
          signed_nonce := Some "JEKNVnkbo3jma5nREBBJCDoXFVeKkD56V3xKrvRmWxFG";
          signed_signature := payload_signature sample_solana_payload_base58;
          signed_provider := payload_provider sample_solana_payload_base58 |}.
Proof.
  apply (proj2 (@create_did_signature_of_payload test_crypto
                  sample_solana_runtime sample_later_runtime None
                  {| arg_did := None; arg_privateKey := None;
                     arg_provider := None |} sample_solana_payload_base58
                  eq_refl)).
  vm_compute. reflexivity.
Defined.

(** ** The [did] argument of the first listing *)

(** X24: in the first listing of [generate_auth_payload], a [did]
    argument without a [privateKey] is put into the payload and into
    the signed message as it is, while the private key and the provider
    are those of the credential that the environment resolves to; the
    argument is never compared with that credential's DID.  With both
    arguments given the environment is not read at all. *)
Theorem generate_auth_payload_did_argument `{Crypto} (rt : Runtime)
    (did : string) (hint : option DidProvider) (c : Credentials) :
  JS.truthy did = true ->
  (getCredentialsFromEnv (rt_env rt) hint = Ok (Some c) ->
   McpTools.generate_auth_payload_try rt
     {| arg_did := Some did; arg_privateKey := None; arg_provider := hint |}
   = bindR
       (sign_with (cred_provider c)
          (auth_message did (rt_now rt)
             (McpTools.nonce_for (cred_provider c) (rt_entropy rt)))
          (cred_privateKey c))
       (fun signature =>
          Ok {| payload_did := did; payload_timestamp := rt_now rt;
                payload_nonce :=
                  McpTools.nonce_for (cred_provider c) (rt_entropy rt);
                payload_signature := signature;
                payload_provider := cred_provider c |}))
  /\ (forall privateKey env',
        JS.truthy privateKey = true ->
        McpTools.generate_auth_payload_try rt
          {| arg_did := Some did; arg_privateKey := Some privateKey;
             arg_provider := hint |}
        = McpTools.generate_auth_payload_try
            {| rt_env := env'; rt_now := rt_now rt;
               rt_entropy := rt_entropy rt |}
            {| arg_did := Some did; arg_privateKey := Some privateKey;
               arg_provider := hint |}).
Proof.
  intros Hdid. split.
  - intros Hc. unfold McpTools.generate_auth_payload_try, McpTools.resolve.
    cbn [arg_did arg_privateKey arg_provider]. rewrite Hc. cbn [bindR].
    rewrite Hdid.
    assert (Hprov : match hint with
                    | Some p => p
                    | None => cred_provider c
                    end = cred_provider c).
    { destruct hint as [p|]; [|reflexivity].
      rewrite getCredentialsFromEnv_resolve, resolve_with_hint in Hc.
      injection Hc as Hc. apply branch_inv in Hc. symmetry. apply Hc. }
    rewrite Hprov. cbn [bindR]. reflexivity.
  - intros privateKey env' Hkey.
    unfold McpTools.generate_auth_payload_try, McpTools.resolve.
    cbn [arg_did arg_privateKey arg_provider rt_now rt_entropy].
    rewrite Hdid, Hkey. reflexivity.
Qed.

Lemma generate_auth_payload_did_argument_witness :
  @McpTools.generate_auth_payload_try test_crypto sample_solana_runtime
    {| arg_did := Some "did:key:z6MkeTG3bFFSLYVU7VqhgZxqr6YzpaGrQtFMh1uvqGy1vDnP";
       arg_privateKey := None; arg_provider := None |}
  = bindR
      (@sign_with test_crypto solana
         (auth_message "did:key:z6MkeTG3bFFSLYVU7VqhgZxqr6YzpaGrQtFMh1uvqGy1vDnP"
            (rt_now sample_solana_runtime)
            (McpTools.nonce_for solana (rt_entropy sample_solana_runtime)))
         "1111111111111111111111111111111111111111111111111111111111111111")
      (fun signature =>
         Ok {| payload_did :=
                 "did:key:z6MkeTG3bFFSLYVU7VqhgZxqr6YzpaGrQtFMh1uvqGy1vDnP";
               payload_timestamp := rt_now sample_solana_runtime;
               payload_nonce :=
                 McpTools.nonce_for solana (rt_entropy sample_solana_runtime);
               payload_signature := signature;
               payload_provider := solana |}).
Proof.
  apply (proj1 (@generate_auth_payload_did_argument test_crypto
                  sample_solana_runtime
                  "did:key:z6MkeTG3bFFSLYVU7VqhgZxqr6YzpaGrQtFMh1uvqGy1vDnP"
                  None
                  {| cred_did := sample_solana_did;
                     cred_privateKey :=
                       "1111111111111111111111111111111111111111111111111111111111111111";
                     cred_provider := solana |} eq_refl)).
  vm_compute. reflexivity.
Defined.

(** ** Payloads and the timestamp window *)

(** X16: the timestamp of a payload that [generate_auth_payload]
    produced at the instant [rt_now] is accepted by [verifyTimestamp]
    at a later (or earlier) instant exactly when that instant lies from
    60 seconds before [rt_now] to [windowMs] (5 minutes when omitted)
    after it; the timestamp [NaN] is accepted at every instant and for
    every window. *)
Theorem payload_timestamp_window `{Crypto} (rt : Runtime)
    (hint : option DidProvider) (payload : AuthPayload) (later : Z)
    (windowMs : option Z) :
  McpToolsEnv.generate_auth_payload_try rt hint = Ok payload ->
  (AuthBase.verifyTimestamp later (Int (payload_timestamp payload)) windowMs
   = true
   <-> (rt_now rt - 60000 <= later
        /\ later <= rt_now rt + default 300000 windowMs)%Z)
  /\ AuthBase.verifyTimestamp later NaN windowMs = true.
Proof.
  intros Hpayload.
  assert (Hts : payload_timestamp payload = rt_now rt).
  { unfold McpToolsEnv.generate_auth_payload_try in Hpayload.
    destruct (getCredentialsFromEnv (rt_env rt) hint) as [[c|]|e];
      cbn [bindR] in Hpayload; try discriminate.
    destruct (sign_with (cred_provider c) _ (cred_privateKey c))
      as [signature|e]; cbn [bindR] in Hpayload; [|discriminate].
    injection Hpayload as <-. reflexivity. }
  rewrite Hts.
  destruct (verifyTimestamp_window later windowMs (rt_now rt)) as [Hiff Hnan].
  split; [|exact Hnan]. rewrite Hiff. lia.
Qed.

Lemma payload_timestamp_window_witness :
  (AuthBase.verifyTimestamp 1700000300000
     (Int (payload_timestamp sample_solana_payload)) None = true
   <-> (rt_now sample_solana_runtime - 60000 <= 1700000300000
        /\ 1700000300000 <= rt_now sample_solana_runtime + default 300000 None)%Z)
  /\ AuthBase.verifyTimestamp 1700000300000 NaN None = true.
Proof.
  apply (@payload_timestamp_window test_crypto sample_solana_runtime None
           sample_solana_payload 1700000300000 None).
  vm_compute. reflexivity.
Defined.
